(** * reliant-type: the security validators

    A shallow embedding of [SecurityValidators]
    (src/core/schema/mode/interfaces/validators/mods/securityValidator.ts)
    and the properties its specification states about it.

    JavaScript values live in an explicit store: an object or an array is a
    reference into a finite map of property lists, so that shared and cyclic
    object graphs exist in the model as they do at run time. *)

From Stdlib Require Import ZArith Lia Ascii String DecimalString.
From stdpp Require Import base option list strings gmap.

Local Open Scope string_scope.
Local Open Scope Z_scope.

(** ** JavaScript strings

    A [string] stands for a JavaScript string whose UTF-16 code units are all
    below 256; [String.length] is then the [length] property. *)
Module JS.

Definition code (c : ascii) : N := N_of_ascii c.

Definition between (lo hi : N) (c : ascii) : bool :=
  (lo <=? code c)%N && (code c <=? hi)%N.

Definition is_char (d c : ascii) : bool := Ascii.eqb d c.

(** [String.prototype.startsWith] *)
Fixpoint startsWith (s p : string) : bool :=
  match p, s with
  | EmptyString, _ => true
  | String _ _, EmptyString => false
  | String a p', String b s' => Ascii.eqb a b && startsWith s' p'
  end.

(** [String.prototype.includes] *)
Fixpoint includes (s p : string) : bool :=
  startsWith s p ||
  match s with
  | EmptyString => false
  | String _ s' => includes s' p
  end.

Fixpoint rev_string (acc s : string) : string :=
  match s with
  | EmptyString => acc
  | String c s' => rev_string (String c acc) s'
  end.

Definition reverse (s : string) : string := rev_string EmptyString s.

(** [String.prototype.endsWith] *)
Definition endsWith (s p : string) : bool :=
  startsWith (reverse s) (reverse p).

(** [String.prototype.split] with a one-character separator: the pieces
    between the separators, always at least one piece. *)
Fixpoint split (sep : ascii) (s : string) : list string :=
  match s with
  | EmptyString => [EmptyString]
  | String c s' =>
      if Ascii.eqb c sep then EmptyString :: split sep s'
      else match split sep s' with
           | [] => [String c EmptyString]
           | p :: ps => String c p :: ps
           end
  end.

(** Number of occurrences of a character: [(s.match(/c/g) || []).length]. *)
Fixpoint count_char (d : ascii) (s : string) : nat :=
  match s with
  | EmptyString => O
  | String c s' => (if Ascii.eqb c d then 1 else 0)%nat + count_char d s'
  end.

(** White space and line terminators below 256, the characters that
    [String.prototype.trim] removes and [\s] matches. *)
Definition is_space (c : ascii) : bool :=
  between 9 13 c || (code c =? 32)%N || (code c =? 160)%N.

Fixpoint trimStart (s : string) : string :=
  match s with
  | EmptyString => EmptyString
  | String c s' => if is_space c then trimStart s' else s
  end.

(** [String.prototype.trim] *)
Definition trim (s : string) : string :=
  reverse (trimStart (reverse (trimStart s))).

(** [String.prototype.toLowerCase] on code units below 256: the ASCII
    capitals and the Latin-1 capitals (all of 192..222 but the sign 215). *)
Definition lower_char (c : ascii) : ascii :=
  if between 65 90 c || (between 192 222 c && negb (code c =? 215)%N)
  then ascii_of_N (code c + 32) else c.

Fixpoint toLowerCase (s : string) : string :=
  match s with
  | EmptyString => EmptyString
  | String c s' => String (lower_char c) (toLowerCase s')
  end.

(** [String.prototype.substring(0, n)] *)
Definition substring0 (n : nat) (s : string) : string := String.substring 0 n s.

(** Decimal rendering of an integer, as a template literal prints it. *)
Definition show (z : Z) : string := NilZero.string_of_int (Z.to_int z).

Definition len (s : string) : Z := Z.of_nat (String.length s).

Definition is_digit (c : ascii) : bool := between 48 57 c.

Fixpoint all_chars (p : ascii -> bool) (s : string) : bool :=
  match s with
  | EmptyString => true
  | String c s' => p c && all_chars p s'
  end.

Fixpoint digits_value (acc : Z) (s : string) : Z :=
  match s with
  | EmptyString => acc
  | String c s' => digits_value (10 * acc + (Z.of_N (code c) - 48)) s'
  end.

Definition is_bit (c : ascii) : bool := between 48 49 c.

Fixpoint bits_value (acc : Z) (s : string) : Z :=
  match s with
  | EmptyString => acc
  | String c s' => bits_value (2 * acc + (Z.of_N (code c) - 48)) s'
  end.

(** The run of decimal digits a string starts with, and what follows it. *)
Fixpoint span_digits (s : string) : string * string :=
  match s with
  | EmptyString => (EmptyString, EmptyString)
  | String c s' =>
      if is_digit c
      then let '(digits, rest) := span_digits s' in (String c digits, rest)
      else (EmptyString, s)
  end.

Definition nonempty (s : string) : bool :=
  match s with EmptyString => false | String _ _ => true end.

(** The binary digits of a [BinaryIntegerLiteral]: [0b] or [0B] and at least
    one binary digit. *)
Definition binary_literal (s : string) : option string :=
  match s with
  | String zero (String b bits) =>
      if is_char "0" zero && (is_char "b" b || is_char "B" b)
         && nonempty bits && all_chars is_bit bits
      then Some bits else None
  | _ => None
  end.

(** [Number(s)] for the pieces of an address that has passed the character
    screen of [validateIp], which are made of decimal digits, the letters a
    to f in either case and colons. Of the forms of a [StringNumericLiteral]
    these characters can write four: the empty string, which is 0; a run of
    decimal digits; a run of decimal digits, [e] or [E], and a run of decimal
    digits; and a binary literal. Anything else is read as NaN ([None]). The
    value is the exact integer: the validators compare it with constants
    below 256 only, and the double nearest to an integer is on the same side
    of such a constant as the integer is. *)
Definition Number (s : string) : option Z :=
  if all_chars is_digit s then Some (digits_value 0 s)
  else
    match binary_literal s with
    | Some bits => Some (bits_value 0 bits)
    | None =>
        match span_digits s with
        | (mantissa, String e exponent) =>
            if (is_char "e" e || is_char "E" e)
               && nonempty mantissa && nonempty exponent
               && all_chars is_digit exponent
            then Some (digits_value 0 mantissa * 10 ^ digits_value 0 exponent)
            else None
        | _ => None
        end
    end.

(** ** Values and the object store *)

Abbreviation loc := positive.

Inductive value : Type :=
  | VUndefined
  | VNull
  | VBool (b : bool)
  | VNumber (n : Z)
  | VNaN
  | VString (s : string)
  | VFunction
  | VRef (l : loc).

(** An object of the store: its own enumerable string-keyed properties in
    [Object.keys] order, and whether it is an array ([Array.isArray]). *)
Record object : Type := Obj { is_array : bool; props : list (string * value) }.

Definition keys (o : object) : list string := map fst (props o).
Definition values (o : object) : list value := map snd (props o).

Abbreviation heap := (gmap loc object).



(** Truthiness: [!v] is [negb (truthy v)]. *)
Definition truthy (v : value) : bool :=
  match v with
  | VUndefined | VNull | VNaN => false
  | VBool b => b
  | VNumber n => negb (n =? 0)
  | VString s => negb (String.eqb s EmptyString)
  | VFunction | VRef _ => true
  end.

(** The names every plain object inherits from [Object.prototype]; the [in]
    operator sees them next to the own properties. *)
Definition Object_prototype_names : list string :=
  [ "constructor"; "__defineGetter__"; "__defineSetter__"; "hasOwnProperty";
    "__lookupGetter__"; "__lookupSetter__"; "isPrototypeOf";
    "propertyIsEnumerable"; "toString"; "valueOf"; "__proto__";
    "toLocaleString" ].

Definition mem (k : string) (l : list string) : bool := existsb (String.eqb k) l.

(** [k in o] for a plain object *)
Definition has_property (k : string) (o : object) : bool :=
  mem k (keys o) || mem k Object_prototype_names.

End JS.
Export JS.

(** ** Regular expressions

    The patterns written in the source are whole-string matchers built from
    character classes; [test] of an unanchored pattern is [search]. Matching
    is by derivatives, so every pattern below can be run. *)
Module Regex.

Inductive regex : Type :=
  | Void
  | Eps
  | Class (p : ascii -> bool)
  | Seq (r s : regex)
  | Alt (r s : regex)
  | Star (r : regex).

Fixpoint nullable (r : regex) : bool :=
  match r with
  | Void => false
  | Eps => true
  | Class _ => false
  | Seq r s => nullable r && nullable s
  | Alt r s => nullable r || nullable s
  | Star _ => true
  end.

Definition seq (r s : regex) : regex :=
  match r, s with
  | Void, _ => Void
  | _, Void => Void
  | Eps, _ => s
  | _, Eps => r
  | _, _ => Seq r s
  end.

Definition alt (r s : regex) : regex :=
  match r, s with
  | Void, _ => s
  | _, Void => r
  | _, _ => Alt r s
  end.

Fixpoint deriv (c : ascii) (r : regex) : regex :=
  match r with
  | Void => Void
  | Eps => Void
  | Class p => if p c then Eps else Void
  | Seq r s =>
      if nullable r then alt (seq (deriv c r) s) (deriv c s)
      else seq (deriv c r) s
  | Alt r s => alt (deriv c r) (deriv c s)
  | Star r => seq (deriv c r) (Star r)
  end.

(** [/^r$/.test(s)] *)
Fixpoint matches (r : regex) (s : string) : bool :=
  match s with
  | EmptyString => nullable r
  | String c s' => matches (deriv c r) s'
  end.

Definition any : regex := Class (fun _ => true).

(** [.] : any character but a line terminator *)
Definition dot : regex :=
  Class (fun c => negb ((code c =? 10)%N || (code c =? 13)%N)).

(** [/r/.test(s)] : a match anywhere in [s] *)
Definition search (r : regex) (s : string) : bool :=
  matches (Seq (Star any) (Seq r (Star any))) s.

Definition plus (r : regex) : regex := Seq r (Star r).

(** [r{0,n}] *)
Fixpoint upto (n : nat) (r : regex) : regex :=
  match n with
  | O => Eps
  | S n' => Alt Eps (Seq r (upto n' r))
  end.

Definition opt (r : regex) : regex := Alt Eps r.

(** a literal, with the [i] flag when [ci] is set *)
Fixpoint lit (ci : bool) (s : string) : regex :=
  match s with
  | EmptyString => Eps
  | String c s' =>
      Seq (Class (fun d => if ci then Ascii.eqb (lower_char d) (lower_char c)
                           else Ascii.eqb d c))
          (lit ci s')
  end.

Definition alnum (c : ascii) : bool :=
  between 97 122 c || between 65 90 c || between 48 57 c.

Definition alpha (c : ascii) : bool := between 97 122 c || between 65 90 c.

Definition one_of (set : string) (c : ascii) : bool :=
  existsb (Ascii.eqb c) (list_ascii_of_string set).

End Regex.
Export Regex.

(** A [RegExp] object handed in by a caller or held in a constant table is
    seen through its [test] method: the answer it gives on a text in the call
    at hand. For a pattern without the [g] and the [y] flag that is a
    property of the text; a pattern with one of them answers from its
    [lastIndex], and is an object of the module [Stateful] below. *)
Definition RegExp : Type := string -> bool.

(** ** Errors and results *)

(** The members of [ErrorCode] this file uses; [ErrorName] is the case of
    [validateJson] passing [error.name] in the place of a code. *)
Inductive ErrorCode : Type :=
  | UNKNOWN_ERROR
  | STRING_TOO_LONG
  | STRING_TOO_SHORT
  | INVALID_STRING_FORMAT
  | PATTERN_MISMATCH
  | INVALID_JSON
  | SECURITY_VIOLATION
  | ErrorName (name : string).

(** An error is the [ErrorHandler] call that makes it, with its arguments in
    the order of the call. *)
Inductive ValidationError : Type :=
  | createValidationError (path : list string) (message : string) (code : ErrorCode)
  | createStringError (path : list string) (message : string) (received : value)
      (code : ErrorCode)
  | createTypeError (path : list string) (expected : string) (received : value)
  | createSimpleError (message : string) (path : list string) (expected : string).

(** The code a call passes explicitly; [createTypeError] and
    [createSimpleError] pass none. *)
Definition error_code (e : ValidationError) : option ErrorCode :=
  match e with
  | createValidationError _ _ c => Some c
  | createStringError _ _ _ c => Some c
  | createTypeError _ _ _ => None
  | createSimpleError _ _ _ => None
  end.

Definition error_message (e : ValidationError) : option string :=
  match e with
  | createValidationError _ m _ => Some m
  | createStringError _ m _ _ => Some m
  | createTypeError _ _ _ => None
  | createSimpleError m _ _ => Some m
  end.

(** Modelled from the spec: the error taxonomy of section 7, and the kind each
    code of this file falls under (the declaration of [ErrorCode] is not among
    the sources). No code used here falls under [TypeMismatch] or [Timeout]. *)
Inductive ErrorKind : Type :=
  | TypeMismatch | LengthViolation | PatternMismatch | SecurityViolation
  | InvalidFormat | Timeout | UnknownError.

Definition kind_of_code (c : ErrorCode) : ErrorKind :=
  match c with
  | UNKNOWN_ERROR => UnknownError
  | STRING_TOO_LONG | STRING_TOO_SHORT => LengthViolation
  | INVALID_STRING_FORMAT | INVALID_JSON => InvalidFormat
  | PATTERN_MISMATCH => PatternMismatch
  | SECURITY_VIOLATION => SecurityViolation
  | ErrorName _ => UnknownError
  end.

Record SchemaValidationResult : Type := Result {
  success : bool;
  errors : list ValidationError;
  warnings : list string;
  data : value
}.

(** The mutations the validators make on their [result] object. *)
Definition fail (e : ValidationError) (r : SchemaValidationResult) : SchemaValidationResult :=
  Result false (errors r ++ [e]) (warnings r) (data r).

Definition warn (w : string) (r : SchemaValidationResult) : SchemaValidationResult :=
  Result (success r) (errors r) (warnings r ++ [w]) (data r).

Definition set_data (v : value) (r : SchemaValidationResult) : SchemaValidationResult :=
  Result (success r) (errors r) (warnings r) v.

(** [result.success = result.success && other.success] followed by the two
    [push(...other.errors)], [push(...other.warnings)]. *)
Definition merge (other r : SchemaValidationResult) : SchemaValidationResult :=
  Result (success r && success other) (errors r ++ errors other)
         (warnings r ++ warnings other) (data r).

Definition when (b : bool) (f : SchemaValidationResult -> SchemaValidationResult)
    (r : SchemaValidationResult) : SchemaValidationResult :=
  if b then f r else r.

(** The first pattern of a table that matches, as the [for ... break] loops
    look for it. *)
Definition any_test (patterns : list RegExp) (text : string) : bool :=
  existsb (fun pattern => pattern text) patterns.

(** Thrown values, and the completion of a call that may throw. *)
Inductive exn : Type :=
  | JsError (name message : string)
  | NonError.

Inductive completion (A : Type) : Type :=
  | Return (a : A)
  | Throw (e : exn).
Arguments Return {A} a.
Arguments Throw {A} e.

(** [error instanceof Error ? error.message : "Unknown error"] *)
Definition message_of (e : exn) : string :=
  match e with
  | JsError _ m => m
  | NonError => "Unknown error"
  end.

(** ** What the validators import

    [SECURITY_CONSTANTS], [MAX_OBJECT_DEPTH], the helpers of [securityHelpers]
    and the host functions [JSON.parse], [String.prototype.normalize] and the
    compiled AJV schema are not part of this file: the validators take them
    from an environment. *)
Record SecurityConstants : Type := {
  DANGEROUS_PROPERTIES : list string;
  MAX_VALIDATION_TIME : Z;
  MAX_TEXT_LENGTH : Z;
  MAX_JSON_SIZE : Z;
  XSS_PATTERNS : list RegExp;
  SQL_PATTERNS : list RegExp;
  LDAP_PATTERNS : list RegExp;
  COMMAND_INJECTION_PATTERNS : list RegExp
}.

(** The configuration object [validateJsonSync] hands to [validateJsonDeep]. *)
Record JsonDeepConfig : Type := {
  cfg_maxDepth : Z;
  cfg_maxKeys : Z;
  cfg_maxStringLength : Z;
  cfg_maxArrayLength : Z;
  cfg_allowedTypes : list string;
  cfg_forbiddenKeys : list string;
  cfg_currentDepth : Z;
  cfg_keyCount : Z
}.

Record Env : Type := {
  SECURITY_CONSTANTS : SecurityConstants;
  MAX_OBJECT_DEPTH : Z;
  (** the [valid] field of the helper's answer *)
  validateIPv4 : string -> bool -> bool;
  validateIPv6 : string -> bool -> bool;
  normalizeIPv6 : string -> string;
  validateObjectDeep : heap -> value -> Z -> Z -> SchemaValidationResult;
  validateObjectSchema : heap -> value -> value -> SchemaValidationResult;
  validateJsonDeep : heap -> value -> JsonDeepConfig -> SchemaValidationResult;
  validateJsonSchema : heap -> value -> value -> SchemaValidationResult;
  (** [JSON.parse]: the parsed value and the store with the objects it made *)
  JSON_parse : heap -> string -> completion (value * heap);
  (** [text.normalize("NFC")] *)
  normalizeNFC : string -> completion string;
  (** the compiled schema "secure-json-v2": whether there is one, its verdict,
      and the rendering of [validate.errors] when it has errors *)
  ajv_secure_json : option (heap -> value -> bool * option string)
}.

(** ** The prototype-pollution scanner *)
Section Scanner.
Context (E : Env).

Definition dangerous (key : string) : bool :=
  mem key (DANGEROUS_PROPERTIES (SECURITY_CONSTANTS E)).

(** The second loop of the scanner, over [Object.values(obj)], around the
    recursive call [scan]: it stops at the first value found dangerous, and
    hands the visited set on from one value to the next. *)
Fixpoint scan_values (scan : value -> gset loc -> option (bool * gset loc))
    (vs : list value) (visited : gset loc) : option (bool * gset loc) :=
  match vs with
  | [] => Some (false, visited)
  | v :: vs' =>
      match scan v visited with
      | None => None
      | Some (true, visited') => Some (true, visited')
      | Some (false, visited') => scan_values scan vs' visited'
      end
  end.

(** [hasDangerousProperties(obj, visited)]. The [WeakSet] is shared by all the
    calls of one scan, so it is threaded through them and returned. A call
    costs one unit of [fuel]; [None] is a scan cut short for want of it.
    A reference to nothing in the store designates no object. *)
Fixpoint hasDangerousProperties (fuel : nat) (h : heap) (obj : value)
    (visited : gset loc) : option (bool * gset loc) :=
  match fuel with
  | O => None
  | S fuel' =>
      match obj with
      | VRef l =>
          match h !! l with
          | None => Some (false, visited)
          | Some o =>
              if decide (l ∈ visited) then Some (false, visited)
              else
                let visited := {[l]} ∪ visited in
                (* Check current level *)
                if existsb dangerous (keys o) then Some (true, visited)
                (* Recursively check nested objects *)
                else scan_values (hasDangerousProperties fuel' h) (values o) visited
          end
      | _ => Some (false, visited)
      end
  end.

(** The fuel that every scan of the store [h] gets through: one unit more
    than there are objects. *)
Definition scan_fuel (h : heap) : nat := S (size (dom h)).

(** [this.hasDangerousProperties(value)], with a fresh [WeakSet]. *)
Definition hasDangerousProperties_fresh (h : heap) (obj : value) : bool :=
  match hasDangerousProperties (scan_fuel h) h obj ∅ with
  | Some (b, _) => b
  | None => false
  end.

End Scanner.

(** ** Option records

    A field left out by the caller is [None]; each validator destructures its
    record with the defaults written in the source. *)
Module TextOptions.
Inductive Encoding := utf8 | ascii | latin1.
Record t : Type := Make {
  minLength : option Z;
  maxLength : option Z;
  allowEmpty : option bool;
  trimWhitespace : option bool;
  allowedCharacters : option RegExp;
  forbiddenPatterns : option (list RegExp);
  encoding : option Encoding;
  preventXSS : option bool;
  preventSQLInjection : option bool;
  preventLDAPInjection : option bool;
  preventCommandInjection : option bool;
  normalizeUnicode : option bool;
  (** [None] is the default, [Infinity] *)
  maxLines : option Z;
  requireAlphanumeric : option bool;
  allowHTML : option bool;
  stripHTML : option bool;
  timeout : option Z;
  enableMetrics : option bool
}.
Definition empty : t :=
  Make None None None None None None None None None None None None None None
       None None None None.
End TextOptions.

Module JsonOptions.
Inductive SecurityMode := fast | secure | strict.
Record t : Type := Make {
  maxDepth : option Z;
  maxKeys : option Z;
  maxStringLength : option Z;
  maxArrayLength : option Z;
  allowedTypes : option (list string);
  forbiddenKeys : option (list string);
  schema : option value;
  preventCircular : option bool;
  maxSize : option Z;
  securityMode : option SecurityMode;
  timeout : option Z;
  enableMetrics : option bool;
  useCache : option bool
}.
Definition empty : t :=
  Make None None None None None None None None None None None None None.
End JsonOptions.

Module IpOptions.
Inductive Version := v4 | v6 | both.
Record t : Type := Make {
  version : option Version;
  allowPrivate : option bool;
  allowLoopback : option bool;
  allowMulticast : option bool;
  allowReserved : option bool;
  allowCIDR : option bool;
  strict : option bool;
  blockBogons : option bool;
  allowDocumentation : option bool
}.
Definition empty : t := Make None None None None None None None None None.
End IpOptions.

Module ObjectOptions.
Record t : Type := Make {
  allowNull : option bool;
  allowArray : option bool;
  maxDepth : option Z;
  maxKeys : option Z;
  requiredKeys : option (list string);
  allowedKeys : option (list string);
  forbiddenKeys : option (list string);
  keyPattern : option RegExp;
  schema : option value;
  strict : option bool;
  preventPrototypePollution : option bool;
  maxPropertyNameLength : option Z
}.
Definition empty : t :=
  Make None None None None None None None None None None None None.
End ObjectOptions.

Module EmailOptions.
Record t : Type := Make {
  allowInternational : option bool;
  maxLength : option Z;
  allowedDomains : option (list string);
  blockedDomains : option (list string);
  requireMX : option bool;
  strict : option bool
}.
Definition empty : t := Make None None None None None None.
End EmailOptions.

Module BatchOptions.
Record t : Type := Make {
  continueOnError : option bool;
  maxConcurrency : option Z;
  timeout : option Z
}.
Definition empty : t := Make None None None.
End BatchOptions.

(** ** The process-wide cache and metrics *)

(** Modelled from the spec: [ValidationCache] and [ValidationMetrics] are
    imported from [securityValidatorHelpers], which is not among the sources;
    sections 4.5 and 4.6 describe a memo table with [get] and [set] and a
    per-operation recorder. The recorder keeps the outcome of each call; its
    durations are wall-clock readings and are left out. *)
Record World : Type := {
  cache : list (string * SchemaValidationResult);
  metrics : list (string * bool)
}.

(** Modelled from the spec: [ValidationCache.get], the result stored under a
    key, if any. *)
Definition ValidationCache_get (key : string) (w : World) : option SchemaValidationResult :=
  snd <$> List.find (fun kv => String.eqb (fst kv) key) (cache w).

(** Modelled from the spec: [ValidationCache.set]. *)
Definition ValidationCache_set (key : string) (r : SchemaValidationResult) (w : World) : World :=
  {| cache := (key, r) :: cache w; metrics := metrics w |}.

(** Modelled from the spec: [ValidationMetrics.record], without the duration. *)
Definition ValidationMetrics_record (name : string) (isError : bool) (w : World) : World :=
  {| cache := cache w; metrics := metrics w ++ [(name, isError)] |}.

(** ** withTimeout

    The race between the operation and the timer. [timer_first] says that the
    timer fires before the operation settles; an operation that settles in
    the turn it is started in always wins the race. *)
Definition withTimeout {T : Type} (timer_first : bool) (operation : completion T)
    (timeoutMs : Z) : completion T :=
  if timer_first
  then Throw (JsError "Error" ("Validation timeout after " +:+ show timeoutMs +:+ "ms"))
  else operation.

(** ** The validators *)
Section Validators.
Context (E : Env).

Let SC := SECURITY_CONSTANTS E.

Definition fresh_result (value : value) : SchemaValidationResult :=
  Result true [] [] value.

(** *** validateTextSync *)

(** [/^[\x00-\x7F]*$/] *)
Definition re_ascii : regex := Star (Class (between 0 127)).
(** [/^[a-zA-Z0-9\s]*$/] *)
Definition re_alnum_space : regex := Star (Class (fun c => alnum c || is_space c)).
(** [/[\x00-\x08\x0B\x0C\x0E-\x1F\x7F-\x9F]/] *)
Definition re_control : regex :=
  Class (fun c => between 0 8 c || between 11 12 c || between 14 31 c
                  || between 127 159 c).

Definition NUL : string := String (ascii_of_N 0) EmptyString.
Definition LF : ascii := ascii_of_N 10.

(** The stages after the two short-circuit guards, on the text as trimmed and
    normalised; [value] is the caller's input, which every error quotes. *)
Definition text_stages (value : value) (options : TextOptions.t) (text : string)
    (result : SchemaValidationResult) : SchemaValidationResult :=
  let minLength := default 0 (TextOptions.minLength options) in
  let allowEmpty := default true (TextOptions.allowEmpty options) in
  let forbiddenPatterns := default [] (TextOptions.forbiddenPatterns options) in
  let encoding := default TextOptions.utf8 (TextOptions.encoding options) in
  let preventXSS := default true (TextOptions.preventXSS options) in
  let preventSQLInjection := default true (TextOptions.preventSQLInjection options) in
  let preventLDAPInjection := default false (TextOptions.preventLDAPInjection options) in
  let preventCommandInjection :=
    default false (TextOptions.preventCommandInjection options) in
  let requireAlphanumeric := default false (TextOptions.requireAlphanumeric options) in
  let allowHTML := default false (TextOptions.allowHTML options) in
  (* Empty string validation *)
  if negb allowEmpty && (len text =? 0) then
    fail (createStringError [] "Text cannot be empty" value STRING_TOO_SHORT) result
  else
    (* Length validation *)
    let result :=
      when (len text <? minLength)
        (fail (createStringError []
                 ("Text must be at least " +:+ show minLength +:+ " characters long")
                 value STRING_TOO_SHORT)) result in
    (* Line count validation *)
    let result :=
      match TextOptions.maxLines options with
      | None => result
      | Some maxLines =>
          let lineCount := Z.of_nat (length (split LF text)) in
          when (lineCount >? maxLines)
            (fail (createStringError []
                     ("Text cannot exceed " +:+ show maxLines +:+ " lines")
                     value STRING_TOO_LONG)) result
      end in
    (* Character encoding validation *)
    let result :=
      when (match encoding with TextOptions.ascii => negb (matches re_ascii text)
                              | _ => false end)
        (fail (createStringError [] "Text contains non-ASCII characters" value
                 INVALID_STRING_FORMAT)) result in
    (* Alphanumeric requirement *)
    let result :=
      when (requireAlphanumeric && negb (matches re_alnum_space text))
        (fail (createStringError []
                 "Text must contain only alphanumeric characters and spaces" value
                 INVALID_STRING_FORMAT)) result in
    (* Allowed characters validation *)
    let result :=
      when (match TextOptions.allowedCharacters options with
            | Some allowedCharacters => negb (allowedCharacters text)
            | None => false end)
        (fail (createStringError [] "Text contains disallowed characters" value
                 INVALID_STRING_FORMAT)) result in
    (* Forbidden patterns check *)
    let result :=
      when (any_test forbiddenPatterns text)
        (fail (createStringError [] "Text contains forbidden pattern" value
                 PATTERN_MISMATCH)) result in
    (* XSS prevention *)
    let result :=
      if preventXSS && negb allowHTML then
        let result :=
          when (any_test (XSS_PATTERNS SC) text)
            (fail (createStringError []
                     "Text contains potentially malicious content (XSS)" value
                     INVALID_STRING_FORMAT)) result in
        when (includes text "javascript:" || includes text "data:text/html")
          (fail (createStringError [] "Text contains dangerous URI schemes" value
                   INVALID_STRING_FORMAT)) result
      else result in
    (* SQL injection prevention *)
    let result :=
      when (preventSQLInjection && any_test (SQL_PATTERNS SC) text)
        (warn "Text contains SQL-like patterns") result in
    (* LDAP injection prevention *)
    let result :=
      when (preventLDAPInjection && any_test (LDAP_PATTERNS SC) text)
        (fail (createStringError [] "Text contains LDAP injection patterns" value
                 INVALID_STRING_FORMAT)) result in
    (* Command injection prevention *)
    let result :=
      when (preventCommandInjection && any_test (COMMAND_INJECTION_PATTERNS SC) text)
        (fail (createStringError [] "Text contains command injection patterns" value
                 INVALID_STRING_FORMAT)) result in
    (* Control character detection *)
    let result :=
      when (search re_control text) (warn "Text contains control characters") result in
    (* Null byte detection *)
    when (includes text NUL)
      (fail (createStringError [] "Text contains null bytes" value
               INVALID_STRING_FORMAT)) result.

Definition validateTextSync (value : value) (options : TextOptions.t)
    : SchemaValidationResult :=
  let result := fresh_result value in
  let maxLength := default (MAX_TEXT_LENGTH SC) (TextOptions.maxLength options) in
  let trimWhitespace := default false (TextOptions.trimWhitespace options) in
  let normalizeUnicode := default false (TextOptions.normalizeUnicode options) in
  match value with
  | VString text =>
      (* Early size check to prevent DoS *)
      if len text >? maxLength then
        fail (createStringError []
                ("Text exceeds maximum length of " +:+ show maxLength +:+ " characters")
                value STRING_TOO_LONG) result
      else
        (* Trim whitespace if requested *)
        let '(text, result) :=
          if trimWhitespace && negb (String.eqb (trim text) text)
          then (trim text,
                warn "Whitespace trimmed from text" (set_data (VString (trim text)) result))
          else (text, result) in
        (* Unicode normalization *)
        let '(text, result) :=
          if normalizeUnicode then
            match normalizeNFC E text with
            | Return normalized =>
                if negb (String.eqb normalized text)
                then (normalized,
                      warn "Unicode characters normalized"
                        (set_data (VString normalized) result))
                else (text, result)
            | Throw _ => (text, warn "Unicode normalization failed" result)
            end
          else (text, result) in
        text_stages value options text result
  | _ => fail (createTypeError [] "string" value) result
  end.

(** *** validateText

    The operation given to [withTimeout] runs [validateTextSync] to its end in
    the turn it is started in, so the timer never fires first. *)
Definition validateText (value : value) (options : TextOptions.t) (w : World)
    : completion SchemaValidationResult * World :=
  let operationName := "validateText" in
  let enableMetrics := default false (TextOptions.enableMetrics options) in
  match withTimeout false (Return (validateTextSync value options))
          (default (MAX_VALIDATION_TIME SC) (TextOptions.timeout options)) with
  | Return result =>
      (Return result,
       if enableMetrics
       then ValidationMetrics_record operationName (negb (success result)) w
       else w)
  | Throw error =>
      (Return (Result false
                 [createValidationError [] (message_of error) UNKNOWN_ERROR] [] value),
       if enableMetrics then ValidationMetrics_record operationName true w else w)
  end.

(** *** JSON.stringify

    The serialisation of a value of the store. A property holding [undefined]
    or a function is left out of an object and printed as [null] in an array;
    at top level the answer is then [undefined] ([None]). A call descends one
    level per unit of [fuel]: with [scan_fuel h] units, running out means a
    path longer than the store has objects, that is a cycle, for which
    [JSON.stringify] throws a [TypeError]. *)
Definition DQ : string := String (ascii_of_N 34) EmptyString.

Definition hex_digit (n : N) : ascii :=
  ascii_of_N (if (n <? 10)%N then 48 + n else 87 + n).

Definition escape_char (c : ascii) : string :=
  let n := code c in
  if (n =? 34)%N then "\" +:+ DQ else
  if (n =? 92)%N then "\\" else
  if (n =? 8)%N then "\b" else
  if (n =? 9)%N then "\t" else
  if (n =? 10)%N then "\n" else
  if (n =? 12)%N then "\f" else
  if (n =? 13)%N then "\r" else
  if (n <? 32)%N
  then "\u00" +:+ String (hex_digit (n / 16)) (String (hex_digit (n mod 16)) EmptyString)
  else String c EmptyString.

Fixpoint escape (s : string) : string :=
  match s with
  | EmptyString => EmptyString
  | String c s' => escape_char c +:+ escape s'
  end.

Definition quote (s : string) : string := DQ +:+ escape s +:+ DQ.

Definition join (sep : string) (l : list string) : string := String.concat sep l.

Definition circular : exn := JsError "TypeError" "Converting circular structure to JSON".

Fixpoint stringify (fuel : nat) (h : heap) (v : value) : completion (option string) :=
  match fuel with
  | O => Throw circular
  | S fuel' =>
      match v with
      | VUndefined | VFunction => Return None
      | VNull | VNaN => Return (Some "null")
      | VBool b => Return (Some (if b then "true" else "false"))
      | VNumber n => Return (Some (show n))
      | VString s => Return (Some (quote s))
      | VRef l =>
          match h !! l with
          | None => Return None
          | Some o =>
              (fix members (ps : list (string * value)) (acc : list string) :=
                 match ps with
                 | [] =>
                     Return (Some (if is_array o
                                   then "[" +:+ join "," (rev acc) +:+ "]"
                                   else "{" +:+ join "," (rev acc) +:+ "}"))
                 | (k, v') :: ps' =>
                     match stringify fuel' h v' with
                     | Throw e => Throw e
                     | Return None =>
                         members ps' (if is_array o then "null" :: acc else acc)
                     | Return (Some s) =>
                         members ps' ((if is_array o then s
                                       else quote k +:+ ":" +:+ s) :: acc)
                     end
                 end) (props o) []
          end
      end
  end.

Definition JSON_stringify (h : heap) (v : value) : completion (option string) :=
  stringify (scan_fuel h) h v.

(** *** validateJsonSync and validateJson *)

Definition show_bool (b : bool) : string := if b then "true" else "false".

Definition show_strings (l : list string) : string :=
  "[" +:+ join "," (map quote l) +:+ "]".

Definition mode_name (m : JsonOptions.SecurityMode) : string :=
  match m with
  | JsonOptions.fast => "fast"
  | JsonOptions.secure => "secure"
  | JsonOptions.strict => "strict"
  end.

(** [JSON.stringify(options)]: the fields the caller gave, here in the order
    of the record. *)
Definition stringify_options (h : heap) (o : JsonOptions.t) : completion string :=
  match match JsonOptions.schema o with
        | None => Return None
        | Some s => JSON_stringify h s
        end with
  | Throw e => Throw e
  | Return schema_text =>
      let field (name : string) (text : option string) : list string :=
        match text with
        | Some t => [quote name +:+ ":" +:+ t]
        | None => []
        end in
      Return ("{" +:+ join ","
        (field "maxDepth" (show <$> JsonOptions.maxDepth o)
         ++ field "maxKeys" (show <$> JsonOptions.maxKeys o)
         ++ field "maxStringLength" (show <$> JsonOptions.maxStringLength o)
         ++ field "maxArrayLength" (show <$> JsonOptions.maxArrayLength o)
         ++ field "allowedTypes" (show_strings <$> JsonOptions.allowedTypes o)
         ++ field "forbiddenKeys" (show_strings <$> JsonOptions.forbiddenKeys o)
         ++ field "schema" schema_text
         ++ field "preventCircular" (show_bool <$> JsonOptions.preventCircular o)
         ++ field "maxSize" (show <$> JsonOptions.maxSize o)
         ++ field "securityMode" ((quote ∘ mode_name) <$> JsonOptions.securityMode o)
         ++ field "timeout" (show <$> JsonOptions.timeout o)
         ++ field "enableMetrics" (show_bool <$> JsonOptions.enableMetrics o)
         ++ field "useCache" (show_bool <$> JsonOptions.useCache o))
        +:+ "}")
  end.

(** The checks on the parsed data, from the security mode on. *)
Definition json_checks (h : heap) (parsedData : value) (options : JsonOptions.t)
    (result : SchemaValidationResult) : SchemaValidationResult :=
  let maxDepth := default (MAX_OBJECT_DEPTH E) (JsonOptions.maxDepth options) in
  let maxKeys := default 1000 (JsonOptions.maxKeys options) in
  let maxStringLength := default 10000 (JsonOptions.maxStringLength options) in
  let maxArrayLength := default 1000 (JsonOptions.maxArrayLength options) in
  let allowedTypes :=
    default ["object"; "array"; "string"; "number"; "boolean"; "null"]
      (JsonOptions.allowedTypes options) in
  let forbiddenKeys := default [] (JsonOptions.forbiddenKeys options) in
  let schema := default VUndefined (JsonOptions.schema options) in
  let preventCircular := default true (JsonOptions.preventCircular options) in
  let securityMode := default JsonOptions.secure (JsonOptions.securityMode options) in
  let guarded :=
    match securityMode with JsonOptions.fast => false | _ => true end in
  (* Security validations based on mode *)
  if guarded && hasDangerousProperties_fresh E h parsedData then
    fail (createValidationError []
            "JSON contains dangerous properties (prototype pollution risk)"
            INVALID_JSON) result
  else
    match (match securityMode, ajv_secure_json E with
           | JsonOptions.strict, Some validate =>
               let '(valid, validate_errors) := validate h parsedData in
               if valid then None else Some validate_errors
           | _, _ => None
           end) with
    | Some validate_errors =>
        let result :=
          fail (createValidationError [] "JSON failed strict security validation"
                  INVALID_JSON) result in
        match validate_errors with
        | Some text => warn ("AJV errors: " +:+ text) result
        | None => result
        end
    | None =>
        (* Circular reference detection *)
        if preventCircular
           && match JSON_stringify h parsedData with Throw _ => true | Return _ => false end
        then
          fail (createValidationError [] "JSON contains circular references"
                  INVALID_JSON) result
        else
          (* Deep validation *)
          let validationResult :=
            validateJsonDeep E h parsedData
              {| cfg_maxDepth := maxDepth; cfg_maxKeys := maxKeys;
                 cfg_maxStringLength := maxStringLength;
                 cfg_maxArrayLength := maxArrayLength;
                 cfg_allowedTypes := allowedTypes;
                 cfg_forbiddenKeys := forbiddenKeys;
                 cfg_currentDepth := 0; cfg_keyCount := 0 |} in
          let result := set_data parsedData (merge validationResult result) in
          (* Schema validation if provided *)
          if truthy schema && success result
          then merge (validateJsonSchema E h parsedData schema) result
          else result
    end.

(** [validateJsonSync]; the store it returns holds the objects [JSON.parse]
    has made. *)
Definition validateJsonSync (h : heap) (value : value) (options : JsonOptions.t)
    : SchemaValidationResult * heap :=
  let result := fresh_result value in
  let maxSize := default (MAX_JSON_SIZE SC) (JsonOptions.maxSize options) in
  match value with
  | VString text =>
      (* Size check for string *)
      if len text >? maxSize then
        (fail (createStringError []
                 ("JSON string exceeds maximum size of " +:+ show maxSize +:+ " characters")
                 value STRING_TOO_LONG) result, h)
      else
        match JSON_parse E h text with
        | Throw error =>
            (fail (createValidationError []
                     ("Invalid JSON string: " +:+
                      match error with JsError _ m => m | NonError => "Parse error" end)
                     INVALID_JSON) result, h)
        | Return (parsedData, h') => (json_checks h' parsedData options result, h')
        end
  | VRef _ => (json_checks h value options result, h)
  | _ => (fail (createTypeError [] "string or object" value) result, h)
  end.

(** [validateJson]. The cache key is computed before the [try] block is
    entered: what [JSON.stringify] throws there, and the [TypeError] of
    calling [substring] on its [undefined] answer, leave the function. *)
Definition validateJson (h : heap) (value : value) (options : JsonOptions.t) (w : World)
    : completion SchemaValidationResult * heap * World :=
  let operationName := "validateJson" in
  let enableMetrics := default false (JsonOptions.enableMetrics options) in
  let cacheKey : completion (option string) :=
    if default false (JsonOptions.useCache options) then
      match JSON_stringify h value with
      | Throw e => Throw e
      | Return None =>
          Throw (JsError "TypeError"
                   "Cannot read properties of undefined (reading 'substring')")
      | Return (Some text) =>
          match stringify_options h options with
          | Throw e => Throw e
          | Return opts =>
              Return (Some ("json_" +:+ substring0 100 text +:+ "_" +:+ opts))
          end
      end
    else Return None in
  match cacheKey with
  | Throw e => (Throw e, h, w)
  | Return cacheKey =>
      match cacheKey ≫= (fun key => ValidationCache_get key w) with
      | Some cached => (Return cached, h, w)
      | None =>
          match withTimeout false (Return (validateJsonSync h value options))
                  (default (MAX_VALIDATION_TIME SC) (JsonOptions.timeout options)) with
          | Return (result, h') =>
              let w :=
                if enableMetrics
                then ValidationMetrics_record operationName (negb (success result)) w
                else w in
              let w :=
                match cacheKey with
                | Some key => if success result then ValidationCache_set key result w else w
                | None => w
                end in
              (Return result, h', w)
          | Throw error =>
              let w :=
                if enableMetrics then ValidationMetrics_record operationName true w
                else w in
              let code :=
                match error with
                | JsError name _ => ErrorName name
                | NonError => UNKNOWN_ERROR
                end in
              (Return (Result false [createValidationError [] (message_of error) code]
                         [] value), h, w)
          end
      end
  end.

(** *** validateIp *)

(** [/^[\d\.:a-fA-F\/]+$/] *)
Definition re_ip_chars : regex :=
  plus (Class (fun c => is_digit c || one_of ".:/" c
                        || between 97 102 c || between 65 70 c)).
(** [/^\d+$/] *)
Definition re_digits : regex := plus (Class is_digit).

(** [octets[i]]: [None] stands for both [undefined] (past the end) and NaN,
    on which every comparison below is false. *)
Definition octet (octets : list (option Z)) (i : nat) : option Z :=
  mjoin (octets !! i).

Definition equals (o : option Z) (k : Z) : bool :=
  match o with Some z => z =? k | None => false end.

Definition within (o : option Z) (lo hi : Z) : bool :=
  match o with Some z => (lo <=? z) && (z <=? hi) | None => false end.

Definition sec (message : string) : ValidationError :=
  createValidationError [] message SECURITY_VIOLATION.

Definition ipv4_checks (options : IpOptions.t) (ipAddress : string)
    (result : SchemaValidationResult) : SchemaValidationResult :=
  let allowPrivate := default true (IpOptions.allowPrivate options) in
  let allowLoopback := default true (IpOptions.allowLoopback options) in
  let allowMulticast := default false (IpOptions.allowMulticast options) in
  let allowReserved := default true (IpOptions.allowReserved options) in
  let blockBogons := default false (IpOptions.blockBogons options) in
  let allowDocumentation := default true (IpOptions.allowDocumentation options) in
  let octets := map Number (split "." ipAddress) in
  let o0 := octet octets 0 in
  let o1 := octet octets 1 in
  let o2 := octet octets 2 in
  (* private IP detection *)
  let result :=
    when (negb allowPrivate &&
          (equals o0 10 || (equals o0 172 && within o1 16 31)
           || (equals o0 192 && equals o1 168) || (equals o0 169 && equals o1 254)))
      (fail (sec "Private IPv4 addresses not allowed")) result in
  (* Loopback validation *)
  let result :=
    when (negb allowLoopback && equals o0 127)
      (fail (sec "Loopback addresses not allowed")) result in
  (* Multicast validation *)
  let result :=
    when (negb allowMulticast && within o0 224 239)
      (fail (sec "Multicast addresses not allowed")) result in
  (* Documentation addresses (RFC 5737) *)
  let result :=
    when (negb allowDocumentation &&
          ((equals o0 192 && equals o1 0 && equals o2 2)
           || (equals o0 198 && equals o1 51 && equals o2 100)
           || (equals o0 203 && equals o1 0 && equals o2 113)))
      (fail (sec "Documentation addresses not allowed")) result in
  (* Bogon detection *)
  let result :=
    when (blockBogons && (equals o0 0 || equals o0 255 || within o0 240 255))
      (fail (sec "Bogon IP address detected")) result in
  (* Reserved ranges *)
  when (negb allowReserved && (equals o0 0 || equals o0 255))
    (fail (sec "Reserved IPv4 addresses not allowed")) result.

Definition ipv6_checks (options : IpOptions.t) (ipAddress : string)
    (result : SchemaValidationResult) : SchemaValidationResult :=
  let allowPrivate := default true (IpOptions.allowPrivate options) in
  let allowLoopback := default true (IpOptions.allowLoopback options) in
  let allowMulticast := default false (IpOptions.allowMulticast options) in
  let allowDocumentation := default true (IpOptions.allowDocumentation options) in
  let normalized := normalizeIPv6 E ipAddress in
  let result :=
    when (negb allowLoopback
          && String.eqb normalized "0000:0000:0000:0000:0000:0000:0000:0001")
      (fail (sec "IPv6 loopback address not allowed")) result in
  (* Unique local addresses (RFC 4193) *)
  let result :=
    when (negb allowPrivate
          && (startsWith normalized "fc00:" || startsWith normalized "fd00:"))
      (fail (sec "Private IPv6 addresses not allowed")) result in
  (* Link-local addresses *)
  let result :=
    when (negb allowPrivate && startsWith normalized "fe80:")
      (fail (sec "Link-local IPv6 addresses not allowed")) result in
  let result :=
    when (negb allowMulticast && startsWith normalized "ff00:")
      (fail (sec "IPv6 multicast addresses not allowed")) result in
  (* Documentation prefix (RFC 3849) *)
  when (negb allowDocumentation && startsWith normalized "2001:0db8:")
    (fail (sec "Documentation IPv6 addresses not allowed")) result.

(** From the format validation on: [ipAddress] is the address without its
    prefix, [cidrPrefix] the prefix when there is one. *)
Definition ip_checks (options : IpOptions.t) (ipAddress : string) (cidrPrefix : option Z)
    (result : SchemaValidationResult) : SchemaValidationResult :=
  let version := default IpOptions.both (IpOptions.version options) in
  let strict := default true (IpOptions.strict options) in
  (* Validate IP format *)
  let isIPv4 := validateIPv4 E ipAddress strict in
  let isIPv6 := validateIPv6 E ipAddress strict in
  (* Version validation *)
  let invalid :=
    match version with
    | IpOptions.v4 =>
        if negb isIPv4 then Some (sec "Invalid IPv4 address format") else None
    | IpOptions.v6 =>
        if negb isIPv6 then Some (sec "Invalid IPv6 address format") else None
    | IpOptions.both =>
        if negb isIPv4 && negb isIPv6
        then Some (sec "Invalid IP address format (must be valid IPv4 or IPv6)")
        else None
    end in
  match invalid with
  | Some e => fail e result
  | None =>
      (* CIDR prefix validation *)
      let result :=
        match cidrPrefix with
        | Some p =>
            let result :=
              when (isIPv4 && ((p <? 0) || (p >? 32)))
                (fail (sec "Invalid IPv4 CIDR prefix (must be 0-32)")) result in
            when (isIPv6 && ((p <? 0) || (p >? 128)))
              (fail (sec "Invalid IPv6 CIDR prefix (must be 0-128)")) result
        | None => result
        end in
      (* IPv4 specific validations *)
      let result := if isIPv4 then ipv4_checks options ipAddress result else result in
      (* IPv6 specific validations *)
      if isIPv6 then ipv6_checks options ipAddress result else result
  end.

Definition validateIp (value : value) (options : IpOptions.t) : SchemaValidationResult :=
  let result := fresh_result value in
  let allowCIDR := default false (IpOptions.allowCIDR options) in
  match value with
  | VString text =>
      let ip := trim text in
      (* Basic format validation *)
      if negb (matches re_ip_chars ip) then
        fail (sec "IP address contains invalid characters") result
      else if includes ip "/" then
        (* Handle CIDR notation *)
        if negb allowCIDR then fail (sec "CIDR notation is not allowed") result
        else
          match split "/" ip with
          | [ipAddress; prefixStr] =>
              if negb (matches re_digits prefixStr)
              then fail (sec "CIDR prefix must be numeric") result
              else ip_checks options ipAddress (Some (digits_value 0 prefixStr)) result
          | _ => fail (sec "Invalid CIDR notation format") result
          end
      else ip_checks options ip None result
  | _ => fail (createSimpleError "Expected string for IP address" [] "string") result
  end.

(** *** validateObject *)

(** [/^__|.*prototype.*|.*constructor.*$/i]: a name that starts with two
    underscores, or holds "prototype", or holds "constructor" with no line
    terminator after it. *)
Definition re_suspicious (key : string) : bool :=
  matches (Seq (lit true "__") (Star any)) key
  || search (Seq (Star dot) (Seq (lit true "prototype") (Star dot))) key
  || matches (Seq (Star any) (Seq (Star dot) (Seq (lit true "constructor") (Star dot)))) key.

(** The body of the loop over the keys, for one key; the two [continue]s are
    the two early answers. *)
Definition check_key (options : ObjectOptions.t) (key : string)
    (result : SchemaValidationResult) : SchemaValidationResult :=
  let allowedKeys := default [] (ObjectOptions.allowedKeys options) in
  let forbiddenKeys := default [] (ObjectOptions.forbiddenKeys options) in
  let strict := default false (ObjectOptions.strict options) in
  let maxPropertyNameLength :=
    default 100 (ObjectOptions.maxPropertyNameLength options) in
  (* Property name length check *)
  if len key >? maxPropertyNameLength then
    fail (sec ("Property name '" +:+ substring0 20 key +:+ "...' exceeds maximum length of "
               +:+ show maxPropertyNameLength)) result
  (* Dangerous key detection *)
  else if dangerous E key then
    fail (sec ("Dangerous property name detected: '" +:+ key +:+ "'")) result
  else
    (* Allowed keys check *)
    let result :=
      if negb (length allowedKeys =? 0)%nat && negb (mem key allowedKeys) then
        if strict
        then fail (sec ("Key '" +:+ key +:+ "' is not in allowed keys list")) result
        else warn ("Key '" +:+ key +:+ "' is not in allowed keys list") result
      else result in
    (* Forbidden keys check *)
    let result :=
      when (mem key forbiddenKeys)
        (fail (sec ("Key '" +:+ key +:+ "' is forbidden"))) result in
    (* Key pattern validation *)
    let result :=
      when (match ObjectOptions.keyPattern options with
            | Some keyPattern => negb (keyPattern key)
            | None => false end)
        (fail (sec ("Key '" +:+ key +:+ "' does not match required pattern"))) result in
    (* Check for suspicious patterns in key names *)
    when (re_suspicious key)
      (warn ("Suspicious property name detected: '" +:+ key +:+ "'")) result.

(** What [validateObject] does with a value that is a plain object [o]. *)
Definition object_checks (h : heap) (value : value) (o : object)
    (options : ObjectOptions.t) (result : SchemaValidationResult)
    : SchemaValidationResult :=
  let maxDepth := default (MAX_OBJECT_DEPTH E) (ObjectOptions.maxDepth options) in
  let maxKeys := default 1000 (ObjectOptions.maxKeys options) in
  let requiredKeys := default [] (ObjectOptions.requiredKeys options) in
  let schema := default VUndefined (ObjectOptions.schema options) in
  let preventPrototypePollution :=
    default true (ObjectOptions.preventPrototypePollution options) in
  (* Prototype pollution check *)
  if preventPrototypePollution && hasDangerousProperties_fresh E h value then
    fail (sec "Object contains dangerous properties that could lead to prototype pollution")
      result
  else
    let keys := keys o in
    (* Key count validation *)
    let result :=
      when (Z.of_nat (length keys) >? maxKeys)
        (fail (sec ("Object has too many keys (" +:+ show (Z.of_nat (length keys))
                    +:+ "), maximum allowed: " +:+ show maxKeys))) result in
    (* Required keys validation *)
    let result :=
      fold_left
        (fun result requiredKey =>
           when (negb (has_property requiredKey o))
             (fail (sec ("Missing required key: " +:+ requiredKey))) result)
        requiredKeys result in
    (* key validation *)
    let result := fold_left (fun result key => check_key options key result) keys result in
    (* Deep structure validation *)
    let result := merge (validateObjectDeep E h value maxDepth 0) result in
    (* Schema validation if provided *)
    if truthy schema && success result
    then merge (validateObjectSchema E h value schema) result
    else result.

Definition validateObject (h : heap) (value : value) (options : ObjectOptions.t)
    : SchemaValidationResult :=
  let result := fresh_result value in
  let allowNull := default false (ObjectOptions.allowNull options) in
  let allowArray := default false (ObjectOptions.allowArray options) in
  match value with
  | VNull =>
      (* Null check *)
      when (negb allowNull) (fail (sec "Null values not allowed")) result
  | VRef l =>
      match h !! l with
      | Some o =>
          if is_array o then
            (* Array check *)
            when (negb allowArray) (fail (sec "Arrays not allowed")) result
          else object_checks h value o options result
      | None => fail (createTypeError [] "object" value) result
      end
  | _ =>
      (* Type check *)
      fail (createTypeError [] "object" value) result
  end.

(** *** validateEmail *)

(** [/^[a-zA-Z0-9._+-]+$/] *)
Definition re_local_strict : regex :=
  plus (Class (fun c => alnum c || one_of "._+-" c)).

(** [[a-zA-Z0-9!#$%&'*+/=?^_`{|}~-]] *)
Definition atext (c : ascii) : bool := alnum c || one_of "!#$%&'*+/=?^_`{|}~-" c.

(** [/^atext+(?:\.atext+)*$/] *)
Definition re_local_rfc : regex :=
  Seq (plus (Class atext)) (Star (Seq (Class (is_char ".")) (plus (Class atext)))).

(** [/^[a-zA-Z0-9.-]+\.[a-zA-Z]{2,}$/] *)
Definition re_domain_strict : regex :=
  Seq (plus (Class (fun c => alnum c || one_of ".-" c)))
      (Seq (Class (is_char "."))
           (Seq (Class alpha) (Seq (Class alpha) (Star (Class alpha))))).

(** [[a-zA-Z0-9](?:[a-zA-Z0-9-]{0,61}[a-zA-Z0-9])?] *)
Definition re_label : regex :=
  Seq (Class alnum)
      (opt (Seq (upto 61 (Class (fun c => alnum c || is_char "-" c))) (Class alnum))).

(** [/^label(?:\.label)*$/] *)
Definition re_domain_labels : regex :=
  Seq re_label (Star (Seq (Class (is_char ".")) re_label)).

(** The class of the pattern for prohibited characters: the brackets
    < > ( ) [ ], the backslash, the comma, the semicolon, the colon, white
    space, the at sign and the double quote. *)
Definition re_prohibited : regex :=
  Class (fun c => one_of "<>()[]\,;:@" c || (code c =? 34)%N || is_space c).

(** [/[^\x00-\x7F]/] *)
Definition re_non_ascii : regex := Class (fun c => negb (between 0 127 c)).

(** [/test|temp|fake|spam|noreply/i] *)
Definition re_disposable : regex :=
  Alt (lit true "test") (Alt (lit true "temp") (Alt (lit true "fake")
    (Alt (lit true "spam") (lit true "noreply")))).

(** The accumulating checks on the two parts, up to the final assignment of
    the cleaned address to [result.data]. *)
Definition email_checks (options : EmailOptions.t) (email localPart domain : string)
    (result : SchemaValidationResult) : SchemaValidationResult :=
  let allowInternational := default true (EmailOptions.allowInternational options) in
  let allowedDomains := default [] (EmailOptions.allowedDomains options) in
  let blockedDomains := default [] (EmailOptions.blockedDomains options) in
  let strict := default true (EmailOptions.strict options) in
  (* Local part length validation *)
  let result :=
    when (len localPart >? 64)
      (fail (sec "Email local part exceeds 64 characters")) result in
  (* Plus addressing check *)
  let result :=
    when (includes localPart "+")
      (fail (sec "Plus addressing (+ symbols) is not allowed")) result in
  (* Local part character validation *)
  let result :=
    when (negb (matches (if strict then re_local_strict else re_local_rfc) localPart))
      (fail (sec "Email local part contains invalid characters")) result in
  (* Check for consecutive dots *)
  let result :=
    when (includes localPart "..")
      (fail (sec "Email local part cannot contain consecutive dots")) result in
  (* Check for dots at start or end *)
  let result :=
    when (startsWith localPart "." || endsWith localPart ".")
      (fail (sec "Email local part cannot start or end with a dot")) result in
  (* Domain validation *)
  let result :=
    when (len domain >? 255) (fail (sec "Email domain exceeds 255 characters")) result in
  (* Domain format validation *)
  let result :=
    if strict then
      when (negb (matches re_domain_strict domain))
        (fail (sec "Invalid domain format - must contain at least one dot and valid TLD"))
        result
    else
      when (negb (matches re_domain_labels domain))
        (fail (sec "Invalid domain format")) result in
  (* Check for consecutive dots in domain *)
  let result :=
    when (includes domain "..")
      (fail (sec "Domain cannot contain consecutive dots")) result in
  (* Check for dots at start or end of domain *)
  let result :=
    when (startsWith domain "." || endsWith domain ".")
      (fail (sec "Domain cannot start or end with a dot")) result in
  (* International domain validation *)
  let result :=
    when (negb allowInternational && search re_non_ascii domain)
      (fail (sec "International domain names are not allowed")) result in
  (* Domain whitelist/blacklist *)
  let result :=
    when (negb (length allowedDomains =? 0)%nat && negb (mem domain allowedDomains))
      (fail (sec ("Email domain '" +:+ domain +:+ "' is not allowed"))) result in
  let result :=
    when (mem domain blockedDomains)
      (fail (sec ("Email domain '" +:+ domain +:+ "' is blocked"))) result in
  (* Additional validation for common invalid patterns *)
  let result :=
    when (search re_prohibited localPart)
      (fail (sec "Email local part contains prohibited characters (spaces, quotes, brackets, etc.)"))
      result in
  (* Suspicious patterns *)
  let result :=
    when (search re_disposable email)
      (warn "Email appears to be temporary or test address") result in
  (* Set the cleaned data *)
  set_data (VString email) result.

(** [const [localPart, domain] = email.split("@")]: a missing piece is
    [undefined], which the emptiness check treats as the empty string. *)
Definition email_parts (email : string) : string * string :=
  let pieces := split "@" email in
  (default EmptyString (pieces !! 0%nat), default EmptyString (pieces !! 1%nat)).

Definition validateEmail (value : value) (options : EmailOptions.t)
    : SchemaValidationResult :=
  let result := fresh_result value in
  let maxLength := default 254 (EmailOptions.maxLength options) in
  match value with
  | VString text =>
      let email := toLowerCase (trim text) in
      (* Length check *)
      if len email >? maxLength then
        fail (createStringError []
                ("Email exceeds maximum length of " +:+ show maxLength +:+ " characters")
                value STRING_TOO_LONG) result
      (* Basic format check - must contain exactly one @ *)
      else if negb (count_char "@" email =? 1)%nat then
        fail (sec "Email must contain exactly one @ symbol") result
      else
        let '(localPart, domain) := email_parts email in
        (* Check for empty parts *)
        if String.eqb localPart EmptyString || String.eqb domain EmptyString then
          fail (sec "Email local part and domain cannot be empty") result
        else email_checks options email localPart domain result
  | _ => fail (createTypeError [] "string" value) result
  end.

End Validators.

(** *** validateBatch

    The values of a batch are JavaScript values; a validator returns a result
    or throws (a rejected promise is a throw at the [await]). *)
Record BatchSummary : Type := { total : nat; passed : nat; failed : nat }.
Record BatchResult : Type := { results : list SchemaValidationResult; summary : BatchSummary }.

Section Batch.
Context (validator : value -> completion SchemaValidationResult).

(** [for (let i = 0; i < values.length; i += maxConcurrency)]
    [batches.push(values.slice(i, i + maxConcurrency))], for a step that is
    an integer. The loop is given [fuel] turns; with a step that is not
    positive it never leaves a non-empty list, and the answer is [None]
    whatever the fuel. *)
Fixpoint createBatches (fuel : nat) (values : list value) (i : nat) (maxConcurrency : Z)
    : option (list (list value)) :=
  match fuel with
  | O => None
  | S fuel' =>
      if (i <? length values)%nat then
        cons (take (Z.to_nat maxConcurrency) (drop i values))
          <$> createBatches fuel' values (i + Z.to_nat maxConcurrency) maxConcurrency
      else Some []
  end.

(** One item of a window: the validator's result, or the result made in the
    [catch] of the item when it throws. *)
Definition run_item (value : value) : SchemaValidationResult :=
  match validator value with
  | Return r => r
  | Throw error =>
      Result false
        [createValidationError [] ("Batch validation error: " +:+ message_of error)
           UNKNOWN_ERROR] [] value
  end.

(** The loop over the windows. [expiry = Some k] says that the timer fires
    while the window started [k] windows from here is awaited: that window's
    results are then not pushed, and the flag returned is [true]. *)
Fixpoint run_windows (continueOnError : bool) (expiry : option nat)
    (batches : list (list value)) (results : list SchemaValidationResult)
    : bool * list SchemaValidationResult :=
  match batches with
  | [] => (false, results)
  | batch :: rest =>
      match expiry with
      | Some O => (true, results)
      | _ =>
          let batchResults := map run_item batch in
          let results := (results ++ batchResults)%list in
          (* Stop on first error if continueOnError is false *)
          if negb continueOnError && existsb (fun r => negb (success r)) batchResults
          then (false, results)
          else run_windows continueOnError (Nat.pred <$> expiry) rest results
      end
  end.

(** The result the [catch] block makes up for a value. *)
Definition timeout_result (error : exn) (value : value) : SchemaValidationResult :=
  Result false
    [createValidationError [] ("Batch validation timeout: " +:+ message_of error)
       UNKNOWN_ERROR] [] value.

(** The loop of the [catch] block, from its turn [i], with [turns] turns left:
    each turn reads [results.length] anew; an index past the end of [values]
    reads [undefined]. *)
Fixpoint timeout_fill (values : list value) (error : exn) (turns i : nat)
    (results : list SchemaValidationResult) : list SchemaValidationResult :=
  match turns with
  | O => results
  | S turns' =>
      timeout_fill values error turns' (S i)
        (results ++
         [timeout_result error
            (default VUndefined (values !! (length results + i)%nat))])%list
  end.

Definition summarize (results : list SchemaValidationResult) : BatchSummary :=
  {| total := length results;
     passed := length (filter (fun r => success r = true) results);
     failed := length (filter (fun r => success r = false) results) |}.

(** [validateBatch]; [None] is the call that never gets out of the loop that
    makes the windows. *)
Definition validateBatch (values : list value) (options : BatchOptions.t)
    (expiry : option nat) : option BatchResult :=
  let continueOnError := default true (BatchOptions.continueOnError options) in
  let maxConcurrency := default 10 (BatchOptions.maxConcurrency options) in
  let timeout := default 30000 (BatchOptions.timeout options) in
  batches ← createBatches (S (length values)) values 0 maxConcurrency;
  let '(timer_first, results) := run_windows continueOnError expiry batches [] in
  let results :=
    match withTimeout timer_first (Return tt) timeout with
    | Return _ => results
    | Throw error =>
        (* Add timeout error for remaining values *)
        let remaining := (length values - length results)%nat in
        timeout_fill values error remaining 0 results
    end in
  Some {| results := results; summary := summarize results |}.

End Batch.

(** * Patterns that remember

    A [RegExp] object with the [g] or the [y] flag keeps in its [lastIndex]
    where its last successful [test] ended and starts the next [test] there;
    a [test] that fails puts [lastIndex] back to 0. The validators above see
    a pattern handed in from outside through the answer of its [test], which
    is all there is to a pattern without these flags. This module has the
    two validators that call [test] on such patterns, [validateTextSync] and
    [validateObject], with the patterns as the objects they are and the
    [lastIndex] of every pattern handed on from one [test] to the next. *)
Module Stateful.

Record RegExp : Type := {
  global : bool;
  sticky : bool;
  (** [RegExpBuiltinExec]: where the match found in the text from an index on
      ends, if there is one *)
  exec : nat -> string -> option nat;
  (** the object: two patterns at one address are one object *)
  address : loc
}.

(** The [lastIndex] of the pattern objects; 0 where nothing is recorded. *)
Abbreviation LastIndex := (gmap loc nat).

Definition State (A : Type) : Type := LastIndex -> A * LastIndex.

Definition ret {A : Type} (x : A) : State A := fun lastIndex => (x, lastIndex).

Definition bind {A B : Type} (m : State A) (f : A -> State B) : State B :=
  fun lastIndex => let '(x, lastIndex) := m lastIndex in f x lastIndex.

#[local] Notation "'let*' x := m 'in' k" := (bind m (fun x => k))
  (at level 10, x name, m at level 100, k at level 200, only parsing).

(** The pattern reads and writes its [lastIndex]. *)
Definition remembers (pattern : RegExp) : bool := global pattern || sticky pattern.

(** [pattern.test(text)] *)
Definition test (pattern : RegExp) (text : string) : State bool := fun lastIndex =>
  if remembers pattern then
    match exec pattern (default 0%nat (lastIndex !! address pattern)) text with
    | Some e => (true, <[address pattern := e]> lastIndex)
    | None => (false, <[address pattern := 0%nat]> lastIndex)
    end
  else
    (match exec pattern 0 text with Some _ => true | None => false end, lastIndex).

(** [for (const pattern of patterns) if (pattern.test(text)) { ...; break; }]:
    whether the body has run. The patterns after the first that answers
    [true] are not asked. *)
Fixpoint any_test (patterns : list RegExp) (text : string) : State bool :=
  match patterns with
  | [] => ret false
  | pattern :: rest =>
      let* found := test pattern text in
      if found then ret true else any_test rest text
  end.

(** The pattern tables of [SECURITY_CONSTANTS]. *)
Record PatternTables : Type := {
  XSS_PATTERNS : list RegExp;
  SQL_PATTERNS : list RegExp;
  LDAP_PATTERNS : list RegExp;
  COMMAND_INJECTION_PATTERNS : list RegExp
}.

(** The options of [validateTextSync]. *)
Module Text.
Record t : Type := Make {
  minLength : option Z;
  maxLength : option Z;
  allowEmpty : option bool;
  trimWhitespace : option bool;
  allowedCharacters : option RegExp;
  forbiddenPatterns : option (list RegExp);
  encoding : option TextOptions.Encoding;
  preventXSS : option bool;
  preventSQLInjection : option bool;
  preventLDAPInjection : option bool;
  preventCommandInjection : option bool;
  normalizeUnicode : option bool;
  (** [None] is the default, [Infinity] *)
  maxLines : option Z;
  requireAlphanumeric : option bool;
  allowHTML : option bool;
  stripHTML : option bool;
  timeout : option Z;
  enableMetrics : option bool
}.
End Text.

(** The options of [validateObject]. *)
Module Object.
Record t : Type := Make {
  allowNull : option bool;
  allowArray : option bool;
  maxDepth : option Z;
  maxKeys : option Z;
  requiredKeys : option (list string);
  allowedKeys : option (list string);
  forbiddenKeys : option (list string);
  keyPattern : option RegExp;
  schema : option value;
  strict : option bool;
  preventPrototypePollution : option bool;
  maxPropertyNameLength : option Z
}.
End Object.

Section Validators.
Context (E : Env) (T : PatternTables).

Let SC := SECURITY_CONSTANTS E.

(** The stages of [validateTextSync] after the two short-circuit guards. *)
Definition text_stages (value : value) (options : Text.t) (text : string)
    (result : SchemaValidationResult) : State SchemaValidationResult :=
  let minLength := default 0 (Text.minLength options) in
  let allowEmpty := default true (Text.allowEmpty options) in
  let forbiddenPatterns := default [] (Text.forbiddenPatterns options) in
  let encoding := default TextOptions.utf8 (Text.encoding options) in
  let preventXSS := default true (Text.preventXSS options) in
  let preventSQLInjection := default true (Text.preventSQLInjection options) in
  let preventLDAPInjection := default false (Text.preventLDAPInjection options) in
  let preventCommandInjection := default false (Text.preventCommandInjection options) in
  let requireAlphanumeric := default false (Text.requireAlphanumeric options) in
  let allowHTML := default false (Text.allowHTML options) in
  (* Empty string validation *)
  if negb allowEmpty && (len text =? 0) then
    ret (fail (createStringError [] "Text cannot be empty" value STRING_TOO_SHORT) result)
  else
    (* Length validation *)
    let result :=
      when (len text <? minLength)
        (fail (createStringError []
                 ("Text must be at least " +:+ show minLength +:+ " characters long")
                 value STRING_TOO_SHORT)) result in
    (* Line count validation *)
    let result :=
      match Text.maxLines options with
      | None => result
      | Some maxLines =>
          let lineCount := Z.of_nat (length (split LF text)) in
          when (lineCount >? maxLines)
            (fail (createStringError []
                     ("Text cannot exceed " +:+ show maxLines +:+ " lines")
                     value STRING_TOO_LONG)) result
      end in
    (* Character encoding validation *)
    let result :=
      when (match encoding with TextOptions.ascii => negb (matches re_ascii text)
                              | _ => false end)
        (fail (createStringError [] "Text contains non-ASCII characters" value
                 INVALID_STRING_FORMAT)) result in
    (* Alphanumeric requirement *)
    let result :=
      when (requireAlphanumeric && negb (matches re_alnum_space text))
        (fail (createStringError []
                 "Text must contain only alphanumeric characters and spaces" value
                 INVALID_STRING_FORMAT)) result in
    (* Allowed characters validation *)
    let* allowed :=
      match Text.allowedCharacters options with
      | Some allowedCharacters => test allowedCharacters text
      | None => ret true
      end in
    let result :=
      when (negb allowed)
        (fail (createStringError [] "Text contains disallowed characters" value
                 INVALID_STRING_FORMAT)) result in
    (* Forbidden patterns check *)
    let* forbidden := any_test forbiddenPatterns text in
    let result :=
      when forbidden
        (fail (createStringError [] "Text contains forbidden pattern" value
                 PATTERN_MISMATCH)) result in
    (* XSS prevention *)
    let* result :=
      (if preventXSS && negb allowHTML then
         let* malicious := any_test (XSS_PATTERNS T) text in
         let result :=
           when malicious
             (fail (createStringError []
                      "Text contains potentially malicious content (XSS)" value
                      INVALID_STRING_FORMAT)) result in
         ret (when (includes text "javascript:" || includes text "data:text/html")
                 (fail (createStringError [] "Text contains dangerous URI schemes" value
                          INVALID_STRING_FORMAT)) result)
       else ret result) in
    (* SQL injection prevention *)
    let* sql :=
      (if preventSQLInjection then any_test (SQL_PATTERNS T) text else ret false) in
    let result := when sql (warn "Text contains SQL-like patterns") result in
    (* LDAP injection prevention *)
    let* ldap :=
      (if preventLDAPInjection then any_test (LDAP_PATTERNS T) text else ret false) in
    let result :=
      when ldap
        (fail (createStringError [] "Text contains LDAP injection patterns" value
                 INVALID_STRING_FORMAT)) result in
    (* Command injection prevention *)
    let* command :=
      (if preventCommandInjection
       then any_test (COMMAND_INJECTION_PATTERNS T) text else ret false) in
    let result :=
      when command
        (fail (createStringError [] "Text contains command injection patterns" value
                 INVALID_STRING_FORMAT)) result in
    (* Control character detection *)
    let result :=
      when (search re_control text) (warn "Text contains control characters") result in
    (* Null byte detection *)
    ret (when (includes text NUL)
            (fail (createStringError [] "Text contains null bytes" value
                     INVALID_STRING_FORMAT)) result).

Definition validateTextSync (value : value) (options : Text.t)
    : State SchemaValidationResult :=
  let result := fresh_result value in
  let maxLength := default (MAX_TEXT_LENGTH SC) (Text.maxLength options) in
  let trimWhitespace := default false (Text.trimWhitespace options) in
  let normalizeUnicode := default false (Text.normalizeUnicode options) in
  match value with
  | VString text =>
      (* Early size check to prevent DoS *)
      if len text >? maxLength then
        ret (fail (createStringError []
                      ("Text exceeds maximum length of " +:+ show maxLength
                       +:+ " characters")
                      value STRING_TOO_LONG) result)
      else
        (* Trim whitespace if requested *)
        let '(text, result) :=
          if trimWhitespace && negb (String.eqb (trim text) text)
          then (trim text,
                warn "Whitespace trimmed from text" (set_data (VString (trim text)) result))
          else (text, result) in
        (* Unicode normalization *)
        let '(text, result) :=
          if normalizeUnicode then
            match normalizeNFC E text with
            | Return normalized =>
                if negb (String.eqb normalized text)
                then (normalized,
                      warn "Unicode characters normalized"
                        (set_data (VString normalized) result))
                else (text, result)
            | Throw _ => (text, warn "Unicode normalization failed" result)
            end
          else (text, result) in
        text_stages value options text result
  | _ => ret (fail (createTypeError [] "string" value) result)
  end.

(** The body of the loop of [validateObject] over the keys, for one key. *)
Definition check_key (options : Object.t) (key : string)
    (result : SchemaValidationResult) : State SchemaValidationResult :=
  let allowedKeys := default [] (Object.allowedKeys options) in
  let forbiddenKeys := default [] (Object.forbiddenKeys options) in
  let strict := default false (Object.strict options) in
  let maxPropertyNameLength := default 100 (Object.maxPropertyNameLength options) in
  (* Property name length check *)
  if len key >? maxPropertyNameLength then
    ret (fail (sec ("Property name '" +:+ substring0 20 key
                     +:+ "...' exceeds maximum length of "
                     +:+ show maxPropertyNameLength)) result)
  (* Dangerous key detection *)
  else if dangerous E key then
    ret (fail (sec ("Dangerous property name detected: '" +:+ key +:+ "'")) result)
  else
    (* Allowed keys check *)
    let result :=
      if negb (length allowedKeys =? 0)%nat && negb (mem key allowedKeys) then
        if strict
        then fail (sec ("Key '" +:+ key +:+ "' is not in allowed keys list")) result
        else warn ("Key '" +:+ key +:+ "' is not in allowed keys list") result
      else result in
    (* Forbidden keys check *)
    let result :=
      when (mem key forbiddenKeys)
        (fail (sec ("Key '" +:+ key +:+ "' is forbidden"))) result in
    (* Key pattern validation *)
    let* matched :=
      match Object.keyPattern options with
      | Some keyPattern => test keyPattern key
      | None => ret true
      end in
    let result :=
      when (negb matched)
        (fail (sec ("Key '" +:+ key +:+ "' does not match required pattern"))) result in
    (* Check for suspicious patterns in key names *)
    ret (when (re_suspicious key)
            (warn ("Suspicious property name detected: '" +:+ key +:+ "'")) result).

(** [for (const key of keys) { ... }] *)
Fixpoint check_keys (options : Object.t) (keys : list string)
    (result : SchemaValidationResult) : State SchemaValidationResult :=
  match keys with
  | [] => ret result
  | key :: rest =>
      let* result := check_key options key result in
      check_keys options rest result
  end.

(** What [validateObject] does with a value that is a plain object [o]. *)
Definition object_checks (h : heap) (value : value) (o : object)
    (options : Object.t) (result : SchemaValidationResult)
    : State SchemaValidationResult :=
  let maxDepth := default (MAX_OBJECT_DEPTH E) (Object.maxDepth options) in
  let maxKeys := default 1000 (Object.maxKeys options) in
  let requiredKeys := default [] (Object.requiredKeys options) in
  let schema := default VUndefined (Object.schema options) in
  let preventPrototypePollution :=
    default true (Object.preventPrototypePollution options) in
  (* Prototype pollution check *)
  if preventPrototypePollution && hasDangerousProperties_fresh E h value then
    ret (fail (sec "Object contains dangerous properties that could lead to prototype pollution")
            result)
  else
    let keys := keys o in
    (* Key count validation *)
    let result :=
      when (Z.of_nat (length keys) >? maxKeys)
        (fail (sec ("Object has too many keys (" +:+ show (Z.of_nat (length keys))
                    +:+ "), maximum allowed: " +:+ show maxKeys))) result in
    (* Required keys validation *)
    let result :=
      fold_left
        (fun result requiredKey =>
           when (negb (has_property requiredKey o))
             (fail (sec ("Missing required key: " +:+ requiredKey))) result)
        requiredKeys result in
    (* key validation *)
    let* result := check_keys options keys result in
    (* Deep structure validation *)
    let result := merge (validateObjectDeep E h value maxDepth 0) result in
    (* Schema validation if provided *)
    ret (if truthy schema && success result
          then merge (validateObjectSchema E h value schema) result
          else result).

Definition validateObject (h : heap) (value : value) (options : Object.t)
    : State SchemaValidationResult :=
  let result := fresh_result value in
  let allowNull := default false (Object.allowNull options) in
  let allowArray := default false (Object.allowArray options) in
  match value with
  | VNull =>
      (* Null check *)
      ret (when (negb allowNull) (fail (sec "Null values not allowed")) result)
  | VRef l =>
      match h !! l with
      | Some o =>
          if is_array o then
            (* Array check *)
            ret (when (negb allowArray) (fail (sec "Arrays not allowed")) result)
          else object_checks h value o options result
      | None => ret (fail (createTypeError [] "object" value) result)
      end
  | _ =>
      (* Type check *)
      ret (fail (createTypeError [] "object" value) result)
  end.

End Validators.

End Stateful.

(** The answer of the [test] of a pattern that does not remember. *)
Definition test_of (pattern : Stateful.RegExp) : RegExp := fun text =>
  match Stateful.exec pattern 0 text with Some _ => true | None => false end.

(** Options and tables seen through the answers of their patterns. *)
Definition plain_text (options : Stateful.Text.t) : TextOptions.t :=
  TextOptions.Make (Stateful.Text.minLength options) (Stateful.Text.maxLength options)
    (Stateful.Text.allowEmpty options) (Stateful.Text.trimWhitespace options)
    (test_of <$> Stateful.Text.allowedCharacters options)
    (map test_of <$> Stateful.Text.forbiddenPatterns options)
    (Stateful.Text.encoding options) (Stateful.Text.preventXSS options)
    (Stateful.Text.preventSQLInjection options)
    (Stateful.Text.preventLDAPInjection options)
    (Stateful.Text.preventCommandInjection options)
    (Stateful.Text.normalizeUnicode options) (Stateful.Text.maxLines options)
    (Stateful.Text.requireAlphanumeric options) (Stateful.Text.allowHTML options)
    (Stateful.Text.stripHTML options) (Stateful.Text.timeout options)
    (Stateful.Text.enableMetrics options).

Definition plain_object (options : Stateful.Object.t) : ObjectOptions.t :=
  ObjectOptions.Make (Stateful.Object.allowNull options)
    (Stateful.Object.allowArray options) (Stateful.Object.maxDepth options)
    (Stateful.Object.maxKeys options) (Stateful.Object.requiredKeys options)
    (Stateful.Object.allowedKeys options) (Stateful.Object.forbiddenKeys options)
    (test_of <$> Stateful.Object.keyPattern options) (Stateful.Object.schema options)
    (Stateful.Object.strict options)
    (Stateful.Object.preventPrototypePollution options)
    (Stateful.Object.maxPropertyNameLength options).

Definition with_tables (E : Env) (xss sql ldap command : list RegExp) : Env := {|
  SECURITY_CONSTANTS := {|
    DANGEROUS_PROPERTIES := DANGEROUS_PROPERTIES (SECURITY_CONSTANTS E);
    MAX_VALIDATION_TIME := MAX_VALIDATION_TIME (SECURITY_CONSTANTS E);
    MAX_TEXT_LENGTH := MAX_TEXT_LENGTH (SECURITY_CONSTANTS E);
    MAX_JSON_SIZE := MAX_JSON_SIZE (SECURITY_CONSTANTS E);
    XSS_PATTERNS := xss;
    SQL_PATTERNS := sql;
    LDAP_PATTERNS := ldap;
    COMMAND_INJECTION_PATTERNS := command
  |};
  MAX_OBJECT_DEPTH := MAX_OBJECT_DEPTH E;
  validateIPv4 := validateIPv4 E;
  validateIPv6 := validateIPv6 E;
  normalizeIPv6 := normalizeIPv6 E;
  validateObjectDeep := validateObjectDeep E;
  validateObjectSchema := validateObjectSchema E;
  validateJsonDeep := validateJsonDeep E;
  validateJsonSchema := validateJsonSchema E;
  JSON_parse := JSON_parse E;
  normalizeNFC := normalizeNFC E;
  ajv_secure_json := ajv_secure_json E
|}.

Definition plain_env (E : Env) (T : Stateful.PatternTables) : Env :=
  with_tables E (map test_of (Stateful.XSS_PATTERNS T))
    (map test_of (Stateful.SQL_PATTERNS T)) (map test_of (Stateful.LDAP_PATTERNS T))
    (map test_of (Stateful.COMMAND_INJECTION_PATTERNS T)).

(** * The colour theme manager

    [FortifyColorSchemes] and [FortifyColorThemeManager]. The table of the
    schemes, the name of the default scheme and the settings of the editor
    come from outside the file and are parameters here. *)
Module Theme.

(** The colours of a scheme that [applyColorScheme] reads. *)
Record FortifyColors : Type := {
  basicType : string;
  formatType : string;
  numericType : string;
  conditionalKeyword : string;
  conditionalOperator : string;
  logicalOperator : string;
  comparisonOperator : string;
  method : string;
  methodCall : string;
  variable : string;
  constant : string;
  constraint : string;
  array : string;
  optional : string;
  unionSeparator : string;
  numericLiteral : string;
  stringLiteral : string
}.

Record FortifyColorScheme : Type := { name : string; colors : FortifyColors }.

(** The rules of a customization: token selector to colour or style. *)
Abbreviation Rules := (gmap string value).

(** The value of the setting [editor.semanticTokenColorCustomizations]: its
    [rules], when it has any, and its other fields. *)
Record Customization : Type := { rules : option Rules; others : gmap string value }.

Inductive ConfigurationTarget := Global | Workspace | WorkspaceFolder.

(** The settings of the editor as the manager uses them: reading the
    customization and the configured scheme name, and the updates, which may
    be rejected. *)
Record Configuration (Settings : Type) : Type := {
  get_customizations : Settings -> option Customization;
  update_customizations :
    option Customization -> ConfigurationTarget -> Settings -> completion unit * Settings;
  get_colorTheme : Settings -> option string;
  update_colorTheme :
    string -> ConfigurationTarget -> Settings -> completion unit * Settings
}.
Arguments get_customizations {Settings}.
Arguments update_customizations {Settings}.
Arguments get_colorTheme {Settings}.
Arguments update_colorTheme {Settings}.

Section Manager.
Context {Settings : Type} (vscode : Configuration Settings).
Context (SCHEMES : list FortifyColorScheme) (default_scheme : string).

Definition getAllSchemes : list FortifyColorScheme := SCHEMES.

Definition getScheme (schemeName : string) : option FortifyColorScheme :=
  List.find (fun scheme => String.eqb (name scheme) schemeName) getAllSchemes.

(** The rules [applyColorScheme] makes of a scheme. *)
Definition semanticTokenColors (scheme : FortifyColorScheme) : Rules :=
  let c := colors scheme in
  list_to_map
    [ (* Core types *)
      ("type", VString (basicType c));
      ("type.fortify.basicType", VString (basicType c));
      ("type.fortify.formatType", VString (formatType c));
      ("type.fortify.numericType", VString (numericType c));
      (* Keywords and operators *)
      ("keyword", VString (conditionalKeyword c));
      ("keyword.fortify.conditionalKeyword", VString (conditionalKeyword c));
      ("operator", VString (conditionalOperator c));
      ("operator.fortify.conditionalOperator", VString (conditionalOperator c));
      ("operator.fortify.logicalOperator", VString (logicalOperator c));
      ("operator.fortify.comparisonOperator", VString (comparisonOperator c));
      (* Functions and methods *)
      ("function.fortify.method", VString (method c));
      ("function.fortify.methodCall", VString (methodCall c));
      (* Variables and constants *)
      ("variable.fortify.variable", VString (variable c));
      ("variable.fortify.constant", VString (constant c));
      (* Enum members *)
      ("enumMember", VString (constant c));
      ("enumMember.fortify.unionLiteral", VString (constant c));
      ("enumMember.fortify.constant", VString (constant c));
      (* Structural elements *)
      ("punctuation", VString (constraint c));
      ("punctuation.fortify.constraint", VString (constraint c));
      ("punctuation.fortify.array", VString (array c));
      ("punctuation.fortify.optional", VString (optional c));
      ("punctuation.fortify.unionSeparator", VString (unionSeparator c));
      (* Literals *)
      ("number", VString (numericLiteral c));
      ("number.fortify.numericLiteral", VString (numericLiteral c));
      ("string", VString (stringLiteral c));
      ("string.fortify.stringLiteral", VString (stringLiteral c)) ].

(** [(config.get(...) as any) || {}] *)
Definition currentColors (settings : Settings) : Customization :=
  default {| rules := None; others := ∅ |} (get_customizations vscode settings).

(** [{...currentColors, rules: {...(currentColors.rules || {}),
    ...semanticTokenColors.rules}}]: the rules of the scheme win over those
    already there. *)
Definition mergedColors (scheme : FortifyColorScheme) (currentColors : Customization)
    : Customization :=
  {| rules := Some (semanticTokenColors scheme ∪ default ∅ (rules currentColors));
     others := others currentColors |}.

(** [applyColorScheme]: the answer and the settings after the call. A scheme
    that is not found and an update that is rejected end in the [catch]. *)
Definition applyColorScheme (schemeName : string) (target : ConfigurationTarget)
    (settings : Settings) : bool * Settings :=
  match getScheme schemeName with
  | None => (false, settings)
  | Some scheme =>
      match update_customizations vscode
              (Some (mergedColors scheme (currentColors settings))) target settings with
      | (Return _, settings) => (true, settings)
      | (Throw _, settings) => (false, settings)
      end
  end.

(** The test of the [filter] in [removeColorScheme]: the key stays. *)
Definition stays (key : string) : bool :=
  negb (includes (toLowerCase key) "fortify")
  && negb (includes key "type.fortify")
  && negb (includes key "keyword.fortify")
  && negb (includes key "operator.fortify")
  && negb (includes key "function.fortify")
  && negb (includes key "variable.fortify")
  && negb (includes key "enumMember.fortify")
  && negb (includes key "punctuation.fortify")
  && negb (includes key "number.fortify")
  && negb (includes key "string.fortify").

Definition filteredRules (rules : Rules) : Rules :=
  filter (fun rule => stays (fst rule) = true) rules.

(** What [removeColorScheme] writes for the customization it has read:
    nothing when that has no rules, [undefined] when no rule stays, and
    otherwise the customization with the rules that stay. *)
Definition removal (currentColors : Customization) : option (option Customization) :=
  match rules currentColors with
  | None => None
  | Some rules =>
      if (size (filteredRules rules) =? 0)%nat then Some None
      else Some (Some {| rules := Some (filteredRules rules);
                         others := others currentColors |})
  end.

(** One run of the body of [removeColorScheme]; [again] is the call on the
    workspace settings that the run on the global settings ends with. *)
Definition remove_once (again : Settings -> bool * Settings)
    (target : ConfigurationTarget) (settings : Settings) : bool * Settings :=
  let updated :=
    match removal (currentColors settings) with
    | None => (Return tt, settings)
    | Some written => update_customizations vscode written target settings
    end in
  match updated with
  | (Throw _, settings) => (false, settings)
  | (Return _, settings) =>
      match target with
      | Global => (true, snd (again settings))
      | _ => (true, settings)
      end
  end.

(** [removeColorScheme]: the call on the workspace settings calls itself no
    further. *)
Definition removeColorScheme (target : ConfigurationTarget) (settings : Settings)
    : bool * Settings :=
  remove_once (remove_once (fun settings => (true, settings)) Workspace) target settings.

(** [getCurrentScheme] *)
Definition getCurrentScheme (settings : Settings) : string :=
  let schemeName := default default_scheme (get_colorTheme vscode settings) in
  match getScheme schemeName with
  | None => default_scheme
  | Some _ => schemeName
  end.

Definition getAvailableSchemeNames : list string := map name getAllSchemes.

(** [setCurrentScheme] *)
Definition setCurrentScheme (schemeName : string) (settings : Settings)
    : completion unit * Settings :=
  update_colorTheme vscode schemeName Global settings.

End Manager.

(** Settings kept in one customization and one scheme name, whatever the
    target: what is written is what is read next. *)
Record Stored : Type := { customizations : option Customization; colorTheme : option string }.

Definition stored : Configuration Stored := {|
  get_customizations := customizations;
  update_customizations := fun written _ settings =>
    (Return tt, {| customizations := written; colorTheme := colorTheme settings |});
  get_colorTheme := colorTheme;
  update_colorTheme := fun schemeName _ settings =>
    (Return tt, {| customizations := customizations settings;
                   colorTheme := Some schemeName |})
|}.

End Theme.

(** ** An environment to run the validators in

    The theorems below hold for every environment; this one serves to run
    the validators on examples. *)
Module Sample.

(** Modelled from the spec: [SECURITY_CONSTANTS], which is not among the
    sources. Section 4.4 names the denylisted property names; the limits and
    the pattern tables are stand-ins with one pattern each. *)
Definition constants : SecurityConstants := {|
  DANGEROUS_PROPERTIES := ["__proto__"; "constructor"; "prototype"];
  MAX_VALIDATION_TIME := 5000;
  MAX_TEXT_LENGTH := 1000000;
  MAX_JSON_SIZE := 10000000;
  XSS_PATTERNS := [search (lit true "<script")];
  SQL_PATTERNS := [search (lit true "union select")];
  LDAP_PATTERNS := [search (Class (one_of "()*|&"))];
  COMMAND_INJECTION_PATTERNS := [search (Class (one_of ";|&`$"))]
|}.

(** Modelled from the spec: the helper [validateIPv4] of [securityHelpers],
    which is not among the sources, as the dotted-quad syntax: four runs of
    one to three digits, each at most 255. *)
Definition ipv4_syntax (ip : string) (strict : bool) : bool :=
  let pieces := split "." ip in
  (length pieces =? 4)%nat
  && forallb (fun p => matches re_digits p && (len p <=? 3)
                       && (digits_value 0 p <=? 255)) pieces.

(** Modelled from the spec: the helper [validateIPv6], as two to eight
    colon-separated groups of at most four hexadecimal digits. *)
Definition ipv6_syntax (ip : string) (strict : bool) : bool :=
  let groups := split ":" ip in
  (2 <=? length groups)%nat && (length groups <=? 8)%nat
  && forallb (fun g => all_chars (fun c => is_digit c || between 97 102 c
                                           || between 65 70 c) g
                       && (len g <=? 4)) groups.

(** Modelled from the spec: the structural helpers ([validateObjectDeep],
    [validateObjectSchema], [validateJsonDeep], [validateJsonSchema]) in the
    case that no rule of theirs is violated. *)
Definition accept (v : value) : SchemaValidationResult := Result true [] [] v.

(** Modelled from the spec: [JSON.parse] cut down to the three literals; any
    other text is a syntax error. *)
Definition parse_literal (h : heap) (text : string) : completion (value * heap) :=
  if String.eqb text "null" then Return (VNull, h)
  else if String.eqb text "true" then Return (VBool true, h)
  else if String.eqb text "false" then Return (VBool false, h)
  else Throw (JsError "SyntaxError" "Unexpected token").

(** Modelled from the spec: the environment made of the stand-ins above;
    [normalizeIPv6] only lower-cases, NFC normalisation changes no string
    whose code units are below 256, and no AJV schema is registered. *)
Definition env : Env := {|
  SECURITY_CONSTANTS := constants;
  MAX_OBJECT_DEPTH := 10;
  validateIPv4 := ipv4_syntax;
  validateIPv6 := ipv6_syntax;
  normalizeIPv6 := toLowerCase;
  validateObjectDeep := fun _ v _ _ => accept v;
  validateObjectSchema := fun _ v _ => accept v;
  validateJsonDeep := fun _ v _ => accept v;
  validateJsonSchema := fun _ v _ => accept v;
  JSON_parse := parse_literal;
  normalizeNFC := fun s => Return s;
  ajv_secure_json := None
|}.

Definition world : World := {| cache := []; metrics := [] |}.

(** [{"__proto__": {}}] as [JSON.parse] builds it: an object with an own
    property of that name, holding an empty object. *)
Definition polluted_store : heap :=
  {[ 1%positive := Obj false [("__proto__", VRef 2%positive)];
     2%positive := Obj false [] ]}.

(** Two objects that hold each other: [a.self = b; b[0] = a]. *)
Definition cyclic_store : heap :=
  {[ 1%positive := Obj false [("self", VRef 2%positive)];
     2%positive := Obj true [("0", VRef 1%positive); ("1", VString "x")] ]}.

(** An array whose only element is the polluted object. *)
Definition array_store : heap :=
  {[ 1%positive := Obj false [("__proto__", VRef 2%positive)];
     2%positive := Obj false [];
     3%positive := Obj true [("0", VRef 1%positive)] ]}.

(** Option records and inputs of the examples. *)
Definition no_private : IpOptions.t :=
  IpOptions.Make None (Some false) None None None None None None None.

Definition guard_off : ObjectOptions.t :=
  ObjectOptions.Make None None None None None None None None None None (Some false) None.

Definition three_at_a_time : BatchOptions.t :=
  BatchOptions.Make (Some false) (Some 3) None.

(** A validator that fails the number 5 and passes every other value. *)
Definition fails_on_five (v : value) : completion SchemaValidationResult :=
  match v with
  | VNumber 5 => Return (fail (sec "five") (fresh_result v))
  | _ => Return (fresh_result v)
  end.

Definition one_to_seven : list value := map VNumber [1; 2; 3; 4; 5; 6; 7].

Definition with_cache : JsonOptions.t :=
  JsonOptions.Make None None None None None None None None None None None None
    (Some true).

End Sample.

(** ** Vocabulary of the properties *)

(** The objects of the store the scan has not visited yet: the measure the
    recursion goes down on. *)
Definition unvisited (h : heap) (visited : gset loc) : nat := size (dom h ∖ visited).

(** The errors the properties below name. *)
Definition plus_error : ValidationError :=
  sec "Plus addressing (+ symbols) is not allowed".

(** Every error of a result carries the code [SECURITY_VIOLATION]. *)
Definition all_security (r : SchemaValidationResult) : Prop :=
  Forall (fun e => error_code e = Some SECURITY_VIOLATION) (errors r).

Definition invalid_address : ValidationError :=
  sec "Invalid IP address format (must be valid IPv4 or IPv6)".

Definition pollution_error : ValidationError :=
  sec "Object contains dangerous properties that could lead to prototype pollution".

Definition dangerous_name_error : ValidationError :=
  sec "Dangerous property name detected: '__proto__'".

(** What [validateJson] completes with. *)
Definition json_outcome (E : Env) (h : heap) (v : value) (options : JsonOptions.t)
    (w : World) : completion SchemaValidationResult :=
  fst (fst (validateJson E h v options w)).

(** The short-circuit guards of [validateEmail] on the cleaned address: too
    long, not exactly one at sign, or an empty part. *)
Definition email_short_circuit (options : EmailOptions.t) (email : string) : bool :=
  (len email >? default 254 (EmailOptions.maxLength options))
  || negb (count_char "@" email =? 1)%nat
  || String.eqb (fst (email_parts email)) EmptyString
  || String.eqb (snd (email_parts email)) EmptyString.



(** A window holds at least one and at most [maxConcurrency] items. *)
Definition window_sized (maxConcurrency : Z) (batch : list value) : Prop :=
  (0 < length batch <= Z.to_nat maxConcurrency)%nat.

(** The words of a pattern. *)
Inductive accepts : regex -> string -> Prop :=
  | acc_eps : accepts Eps EmptyString
  | acc_class p c : p c = true -> accepts (Class p) (String c EmptyString)
  | acc_seq r s u v : accepts r u -> accepts s v -> accepts (Seq r s) (u +:+ v)
  | acc_alt_l r s u : accepts r u -> accepts (Alt r s) u
  | acc_alt_r r s u : accepts s u -> accepts (Alt r s) u
  | acc_star_none r : accepts (Star r) EmptyString
  | acc_star_more r u v :
      accepts r u -> accepts (Star r) v -> accepts (Star r) (u +:+ v).

(** ** Vocabulary of the further properties *)

(** No white space at the start. *)
Definition starts_clean (s : string) : Prop :=
  match s with
  | EmptyString => True
  | String c _ => is_space c = false
  end.

(** Two results give the same verdict when they agree on everything but the
    data they carry. *)
Definition same_verdict (r1 r2 : SchemaValidationResult) : Prop :=
  success r1 = success r2 /\ errors r1 = errors r2 /\ warnings r1 = warnings r2.

(** A result is coherent when it fails exactly if it lists an error. *)
Definition coherent (r : SchemaValidationResult) : Prop :=
  success r = true <-> errors r = [].

(** The helpers of an environment answer with coherent results. *)
Definition coherent_helpers (E : Env) : Prop :=
  (forall h v d c, coherent (validateObjectDeep E h v d c))
  /\ (forall h v s, coherent (validateObjectSchema E h v s))
  /\ (forall h v c, coherent (validateJsonDeep E h v c))
  /\ (forall h v s, coherent (validateJsonSchema E h v s)).

Definition cidr_off_error : ValidationError := sec "CIDR notation is not allowed".

(** The class of [re_ip_chars]. *)
Definition ip_char (c : ascii) : bool :=
  is_digit c || one_of ".:/" c || between 97 102 c || between 65 70 c.

(** An environment whose helpers take every address for IPv4. *)
Definition lenient : Env := {|
  SECURITY_CONSTANTS := Sample.constants;
  MAX_OBJECT_DEPTH := 10;
  validateIPv4 := fun _ _ => true;
  validateIPv6 := fun _ _ => false;
  normalizeIPv6 := toLowerCase;
  validateObjectDeep := fun _ v _ _ => Sample.accept v;
  validateObjectSchema := fun _ v _ => Sample.accept v;
  validateJsonDeep := fun _ v _ => Sample.accept v;
  validateJsonSchema := fun _ v _ => Sample.accept v;
  JSON_parse := Sample.parse_literal;
  normalizeNFC := fun s => Return s;
  ajv_secure_json := None
|}.

Definition with_cidr : IpOptions.t :=
  IpOptions.Make None None None None None (Some true) None None None.

(** The text the stages run on: the input, trimmed and normalised as the
    options ask. *)
Definition processed (E : Env) (options : TextOptions.t) (text : string) : string :=
  let text :=
    if default false (TextOptions.trimWhitespace options) then trim text else text in
  if default false (TextOptions.normalizeUnicode options) then
    match normalizeNFC E text with
    | Return normalized => normalized
    | Throw _ => text
    end
  else text.




Section Reachability.
Context (E : Env) (h : heap).

(** [reaches v l]: the object at [l] is [v] itself or is reached from [v]
    through property values. *)
Inductive reaches : value -> loc -> Prop :=
  | reaches_here l o : h !! l = Some o -> reaches (VRef l) l
  | reaches_child l o v l' :
      h !! l = Some o -> In v (values o) -> reaches v l' -> reaches (VRef l) l'.

(** Some object reached from [v] has a denylisted name among its own keys. *)
Definition polluted (v : value) : Prop :=
  exists l o, reaches v l /\ h !! l = Some o /\ existsb (dangerous E) (keys o) = true.

(** The object at [l] has no denylisted key, and the objects its values
    refer to are in [seen]. *)
Definition node_clean (seen : gset loc) (l : loc) : Prop :=
  exists o, h !! l = Some o /\ existsb (dangerous E) (keys o) = false
            /\ forall v l', In v (values o) -> v = VRef l' -> is_Some (h !! l') ->
                            l' ∈ seen.

(** What an answer [false] leaves behind: the value itself is visited, and
    every object the call has added to the visited set is clean. *)
Definition swept (v : value) (seen seen' : gset loc) : Prop :=
  seen ⊆ seen'
  /\ (forall l, v = VRef l -> is_Some (h !! l) -> l ∈ seen')
  /\ (forall x, x ∈ seen' -> x ∉ seen -> node_clean seen' x).

End Reachability.

(** [{name: "x", address: {city: "y"}}] *)
Definition record_store : heap :=
  {[ 1%positive := Obj false [("name", VString "x"); ("address", VRef 2%positive)];
     2%positive := Obj false [("city", VString "y")] ]}.

(** [/^[a-z]+$/] *)
Definition letters : Stateful.RegExp := {|
  Stateful.global := false;
  Stateful.sticky := false;
  Stateful.exec := fun start text =>
    if matches (plus (Class (between 97 122))) text && (start =? 0)%nat
    then Some (String.length text) else None;
  Stateful.address := 2%positive
|}.

Definition needs_name : Stateful.Object.t :=
  Stateful.Object.Make None None None (Some 5) (Some ["name"]) None (Some ["password"])
    (Some letters) None None None None.

Section JsonVocabulary.
Context (E : Env) (options : JsonOptions.t).

(** The configuration [validateJsonSync] hands to the deep validation. *)
Definition deep_config : JsonDeepConfig :=
  {| cfg_maxDepth := default (MAX_OBJECT_DEPTH E) (JsonOptions.maxDepth options);
     cfg_maxKeys := default 1000 (JsonOptions.maxKeys options);
     cfg_maxStringLength := default 10000 (JsonOptions.maxStringLength options);
     cfg_maxArrayLength := default 1000 (JsonOptions.maxArrayLength options);
     cfg_allowedTypes :=
       default ["object"; "array"; "string"; "number"; "boolean"; "null"]
         (JsonOptions.allowedTypes options);
     cfg_forbiddenKeys := default [] (JsonOptions.forbiddenKeys options);
     cfg_currentDepth := 0; cfg_keyCount := 0 |}.

(** What the checks from the security mode on have established of the parsed
    data when they succeed. *)
Definition json_accepted (h : heap) (parsedData : value) : Prop :=
  (default JsonOptions.secure (JsonOptions.securityMode options) <> JsonOptions.fast ->
   ~ polluted E h parsedData)
  /\ (default JsonOptions.secure (JsonOptions.securityMode options) = JsonOptions.strict ->
      forall validate, ajv_secure_json E = Some validate ->
      fst (validate h parsedData) = true)
  /\ (default true (JsonOptions.preventCircular options) = true ->
      exists text, JSON_stringify h parsedData = Return text)
  /\ success (validateJsonDeep E h parsedData deep_config) = true
  /\ (truthy (default VUndefined (JsonOptions.schema options)) = true ->
      success (validateJsonSchema E h parsedData
                 (default VUndefined (JsonOptions.schema options))) = true).

End JsonVocabulary.

(** A note of a hundred letters, and two objects that begin with it; the
    second one also has an own property named [__proto__]. *)
Definition long_note : string := string_of_list_ascii (replicate 100 "a"%char).

Definition notes_store : heap :=
  {[ 1%positive := Obj false [("note", VString long_note)];
     2%positive := Obj false [("note", VString long_note);
                              ("__proto__", VRef 3%positive)];
     3%positive := Obj false [] ]}.

Section ThemeVocabulary.
Import Theme.

(** The rules [applyColorScheme] writes under selectors that do not name the
    extension. *)
Definition generic_rules (scheme : FortifyColorScheme) : list (string * value) :=
  let c := colors scheme in
  [("type", VString (basicType c)); ("keyword", VString (conditionalKeyword c));
   ("operator", VString (conditionalOperator c)); ("enumMember", VString (constant c));
   ("punctuation", VString (constraint c)); ("number", VString (numericLiteral c));
   ("string", VString (stringLiteral c))].

(** What is left of the customization after [removeColorScheme] has read
    what [applyColorScheme] has written. *)
Definition left_over (scheme : FortifyColorScheme) (current : Customization) : Rules :=
  filteredRules (semanticTokenColors scheme ∪ default ∅ (rules current)).

End ThemeVocabulary.

(** A scheme and settings to run the manager on. *)
Definition plain : Theme.FortifyColorScheme :=
  {| Theme.name := "plain";
     Theme.colors :=
       {| Theme.basicType := "#4ec9b0"; Theme.formatType := "#4ec9b0";
          Theme.numericType := "#b5cea8"; Theme.conditionalKeyword := "#c586c0";
          Theme.conditionalOperator := "#d4d4d4"; Theme.logicalOperator := "#d4d4d4";
          Theme.comparisonOperator := "#d4d4d4"; Theme.method := "#dcdcaa";
          Theme.methodCall := "#dcdcaa"; Theme.variable := "#9cdcfe";
          Theme.constant := "#4fc1ff"; Theme.constraint := "#d4d4d4";
          Theme.array := "#d4d4d4"; Theme.optional := "#d4d4d4";
          Theme.unionSeparator := "#d4d4d4"; Theme.numericLiteral := "#b5cea8";
          Theme.stringLiteral := "#ce9178" |} |}.

(** The user has coloured types and comments. *)
Definition user_settings : Theme.Stored :=
  {| Theme.customizations :=
       Some {| Theme.rules := Some {[ "type" := VString "#000000";
                                      "comment" := VString "#111111" ]};
               Theme.others := ∅ |};
     Theme.colorTheme := Some "solarized" |}.

(** ** Vocabulary of the patterns that remember *)

(** No pattern of the list has the [g] or the [y] flag. *)
Definition forgetful (patterns : list Stateful.RegExp) : Prop :=
  Forall (fun pattern => Stateful.remembers pattern = false) patterns.

(** No pattern of the tables and of the options has the [g] or the [y] flag. *)
Definition forgetful_text (T : Stateful.PatternTables) (options : Stateful.Text.t) : Prop :=
  forgetful (Stateful.XSS_PATTERNS T) /\ forgetful (Stateful.SQL_PATTERNS T)
  /\ forgetful (Stateful.LDAP_PATTERNS T)
  /\ forgetful (Stateful.COMMAND_INJECTION_PATTERNS T)
  /\ forgetful (default [] (Stateful.Text.forbiddenPatterns options))
  /\ forgetful (option_list (Stateful.Text.allowedCharacters options)).

(** Every pattern of the list without the [g] and the [y] flag finds no match
    in the text. *)
Definition unmatched (patterns : list Stateful.RegExp) (text : string) : Prop :=
  Forall (fun pattern => Stateful.remembers pattern = false ->
                         Stateful.exec pattern 0 text = None) patterns.

(** The options and the tables seen through the answers the patterns have
    given in one call. *)
Definition answers_text (options : Stateful.Text.t) (allowed forbidden : bool)
    : TextOptions.t :=
  TextOptions.Make (Stateful.Text.minLength options) (Stateful.Text.maxLength options)
    (Stateful.Text.allowEmpty options) (Stateful.Text.trimWhitespace options)
    ((fun _ _ => allowed) <$> Stateful.Text.allowedCharacters options)
    (Some [fun _ => forbidden])
    (Stateful.Text.encoding options) (Stateful.Text.preventXSS options)
    (Stateful.Text.preventSQLInjection options)
    (Stateful.Text.preventLDAPInjection options)
    (Stateful.Text.preventCommandInjection options)
    (Stateful.Text.normalizeUnicode options) (Stateful.Text.maxLines options)
    (Stateful.Text.requireAlphanumeric options) (Stateful.Text.allowHTML options)
    (Stateful.Text.stripHTML options) (Stateful.Text.timeout options)
    (Stateful.Text.enableMetrics options).

Definition answers_env (E : Env) (xss sql ldap command : bool) : Env :=
  with_tables E [fun _ => xss] [fun _ => sql] [fun _ => ldap] [fun _ => command].

(** What the loop of [validateObject] over the keys has checked of a key it
    lets through, the pattern being an object. *)
Definition key_checked (E : Env) (options : Stateful.Object.t) (key : string) : Prop :=
  len key <= default 100 (Stateful.Object.maxPropertyNameLength options)
  /\ dangerous E key = false
  /\ mem key (default [] (Stateful.Object.forbiddenKeys options)) = false
  /\ (default false (Stateful.Object.strict options) = true ->
      default [] (Stateful.Object.allowedKeys options) <> [] ->
      mem key (default [] (Stateful.Object.allowedKeys options)) = true)
  /\ (forall keyPattern, Stateful.Object.keyPattern options = Some keyPattern ->
      Stateful.remembers keyPattern = false ->
      Stateful.exec keyPattern 0 key <> None).

(** Patterns to run the validators on: [/<script/i], with the [g] flag or
    without it. The match found from an index on is the first occurrence of
    the word at or after it, in any letter case. *)
Fixpoint find_from (word text : string) (index start : nat) : option nat :=
  if (start <=? index)%nat && startsWith (toLowerCase text) word
  then Some (index + String.length word)%nat
  else match text with
       | EmptyString => None
       | String _ rest => find_from word rest (S index) start
       end.

Definition script_tag (g : bool) : Stateful.RegExp := {|
  Stateful.global := g;
  Stateful.sticky := false;
  Stateful.exec := fun start text => find_from "<script" text 0 start;
  Stateful.address := 1%positive
|}.

Definition script_table (g : bool) : Stateful.PatternTables := {|
  Stateful.XSS_PATTERNS := [script_tag g];
  Stateful.SQL_PATTERNS := [];
  Stateful.LDAP_PATTERNS := [];
  Stateful.COMMAND_INJECTION_PATTERNS := []
|}.

Definition trimming : Stateful.Text.t :=
  Stateful.Text.Make (Some 3) (Some 40) (Some false) (Some true) None None None None
    None None None None None None None None None None.

(** The tables seen through the answers of their patterns, the XSS table
    through one given answer. *)
Definition xss_answers (E : Env) (T : Stateful.PatternTables) (answer : bool) : Env :=
  with_tables E [fun _ => answer]
    (map test_of (Stateful.SQL_PATTERNS T)) (map test_of (Stateful.LDAP_PATTERNS T))
    (map test_of (Stateful.COMMAND_INJECTION_PATTERNS T)).

(** The XSS table is one pattern that remembers, and no other pattern of the
    tables and of the options does. *)
Definition one_remembers (T : Stateful.PatternTables) (options : Stateful.Text.t)
    (pattern : Stateful.RegExp) : Prop :=
  Stateful.XSS_PATTERNS T = [pattern] /\ Stateful.remembers pattern = true
  /\ forgetful (Stateful.SQL_PATTERNS T)
  /\ forgetful (Stateful.LDAP_PATTERNS T)
  /\ forgetful (Stateful.COMMAND_INJECTION_PATTERNS T)
  /\ forgetful (default [] (Stateful.Text.forbiddenPatterns options))
  /\ forgetful (option_list (Stateful.Text.allowedCharacters options)).

(** The call gets as far as the XSS stage, and the stage is switched on. *)
Definition xss_asked (E : Env) (options : Stateful.Text.t) (text : string) : bool :=
  negb (len text >? default (MAX_TEXT_LENGTH (SECURITY_CONSTANTS E))
                      (Stateful.Text.maxLength options))
  && negb (negb (default true (Stateful.Text.allowEmpty options))
           && (len (processed E (plain_text options) text) =? 0))
  && default true (Stateful.Text.preventXSS options)
  && negb (default false (Stateful.Text.allowHTML options)).

Definition xss_error (value : value) : ValidationError :=
  createStringError [] "Text contains potentially malicious content (XSS)" value
    INVALID_STRING_FORMAT.

Definition no_text_options : Stateful.Text.t :=
  Stateful.Text.Make None None None None None None None None None None None None None
    None None None None None.

(** * Properties *)

(** ** How a result evolves

    A failed result stays failed through every later stage, and no stage but
    an explicit assignment touches [data]. *)
Section ResultLemmas.
Implicit Types (r other : SchemaValidationResult) (e : ValidationError) (b : bool).

Lemma success_fail e r : success (fail e r) = false.
Proof. reflexivity. Qed.

Lemma success_when_fail b e r : success r = false -> success (when b (fail e) r) = false.
Proof. by destruct b. Qed.

Lemma success_when_warn b w r : success (when b (warn w) r) = success r.
Proof. by destruct b. Qed.

Lemma success_set_data v r : success (set_data v r) = success r.
Proof. reflexivity. Qed.

Lemma success_merge other r : success r = false -> success (merge other r) = false.
Proof. by intros H; unfold merge; simpl; rewrite H. Qed.

Lemma data_fail e r : data (fail e r) = data r.
Proof. reflexivity. Qed.

Lemma data_warn w r : data (warn w r) = data r.
Proof. reflexivity. Qed.

Lemma data_when b (f : SchemaValidationResult -> SchemaValidationResult) r :
  (forall r', data (f r') = data r') -> data (when b f r) = data r.
Proof. by intros H; destruct b; simpl; rewrite ?H. Qed.

Lemma data_merge other r : data (merge other r) = data r.
Proof. reflexivity. Qed.


Lemma success_fold_left {A} (f : SchemaValidationResult -> A -> SchemaValidationResult)
    (l : list A) r :
  (forall r' a, success r' = false -> success (f r' a) = false) ->
  success r = false -> success (fold_left f l r) = false.
Proof.
  intros H; revert r; induction l as [|a l IH]; intros r Hr; simpl; [done|].
  by apply IH, H.
Qed.

End ResultLemmas.

Create HintDb result discriminated.
#[local] Hint Resolve success_fail success_when_fail success_merge : result.

(** A chain of stages that starts from a failed result ends in one. *)
Ltac stays_failed :=
  repeat first
    [ assumption
    | reflexivity
    | rewrite success_when_warn
    | rewrite success_set_data
    | apply success_when_fail
    | apply success_merge
    | progress cbv zeta ].

(** A chain of stages without an assignment leaves [data] alone. *)
Ltac data_kept :=
  repeat first
    [ reflexivity
    | rewrite data_merge
    | rewrite data_fail
    | rewrite data_warn
    | rewrite data_when; [| intros; reflexivity ]
    | progress cbv zeta ].

(** ** Patterns made of one character class *)
Section ClassPatterns.
Variable p : ascii -> bool.

Lemma matches_Void s : matches Void s = false.
Proof. by induction s. Qed.

Lemma matches_star_class s : matches (Star (Class p)) s = all_chars p s.
Proof.
  induction s as [|c s IH]; [done|].
  simpl. destruct (p c); simpl; [exact IH | apply matches_Void].
Qed.

Lemma matches_plus_class s :
  matches (plus (Class p)) s = negb (String.eqb s EmptyString) && all_chars p s.
Proof.
  destruct s as [|c s]; [done|].
  simpl. destruct (p c); simpl; [apply matches_star_class | apply matches_Void].
Qed.

End ClassPatterns.

(** ** The matcher decides the language of the pattern *)
Section Matcher.

Lemma append_nil_l (v : string) : (EmptyString +:+ v) = v.
Proof. reflexivity. Qed.

Lemma append_cons (c : ascii) (u v : string) :
  (String c u +:+ v) = String c (u +:+ v).
Proof. reflexivity. Qed.

Lemma append_empty (u v : string) :
  (u +:+ v) = EmptyString -> u = EmptyString /\ v = EmptyString.
Proof. destruct u; [done|]. rewrite append_cons. discriminate. Qed.

Lemma append_nil_r (u : string) : (u +:+ EmptyString) = u.
Proof. induction u as [|c u IH]; [done|]. by rewrite append_cons, IH. Qed.

Lemma accepts_Void (w : string) : ~ accepts Void w.
Proof. by inversion 1. Qed.

Lemma accepts_Eps (w : string) : accepts Eps w <-> w = EmptyString.
Proof. split; [by inversion 1 | intros ->; constructor]. Qed.

Lemma accepts_Seq (r s : regex) (w : string) :
  accepts (Seq r s) w <-> exists u v, w = (u +:+ v) /\ accepts r u /\ accepts s v.
Proof.
  split.
  - inversion 1; subst. by eauto.
  - intros (u & v & -> & Hu & Hv). by constructor.
Qed.

Lemma accepts_Alt (r s : regex) (w : string) :
  accepts (Alt r s) w <-> accepts r w \/ accepts s w.
Proof.
  split.
  - inversion 1; subst; auto.
  - intros [H|H]; [by apply acc_alt_l | by apply acc_alt_r].
Qed.

Lemma accepts_seq (r s : regex) (w : string) :
  accepts (seq r s) w <-> accepts (Seq r s) w.
Proof.
  rewrite accepts_Seq.
  assert (accepts s w <-> exists u v, w = (u +:+ v) /\ accepts Eps u /\ accepts s v)
    as Hleft.
  { split.
    - intros H. exists EmptyString, w. repeat split; [constructor | done].
    - intros (u & v & -> & Hu & Hv). apply accepts_Eps in Hu. by subst. }
  assert (accepts r w <-> exists u v, w = (u +:+ v) /\ accepts r u /\ accepts Eps v)
    as Hright.
  { split.
    - intros H. exists w, EmptyString. rewrite append_nil_r.
      repeat split; [done | constructor].
    - intros (u & v & -> & Hu & Hv). apply accepts_Eps in Hv. subst.
      by rewrite append_nil_r. }
  assert (forall t, accepts Void w <->
                    exists u v, w = (u +:+ v) /\ accepts Void u /\ accepts t v)
    as Hvoid_l.
  { intros t. split; [by intros H%accepts_Void|].
    by intros (u & v & _ & H%accepts_Void & _). }
  assert (forall t, accepts Void w <->
                    exists u v, w = (u +:+ v) /\ accepts t u /\ accepts Void v)
    as Hvoid_r.
  { intros t. split; [by intros H%accepts_Void|].
    by intros (u & v & _ & _ & H%accepts_Void). }
  destruct r, s; simpl; try apply Hvoid_l; try apply Hvoid_r; try apply Hleft;
    try apply Hright; by rewrite accepts_Seq.
Qed.

Lemma accepts_alt (r s : regex) (w : string) :
  accepts (alt r s) w <-> accepts (Alt r s) w.
Proof.
  rewrite accepts_Alt.
  destruct r, s; simpl; rewrite ?accepts_Alt; try tauto;
    split; auto; intros [H|H]; auto; by apply accepts_Void in H.
Qed.

Lemma nullable_accepts (r : regex) : nullable r = true <-> accepts r EmptyString.
Proof.
  induction r as [| |p|r IHr s IHs|r IHr s IHs|r IHr]; simpl.
  - split; [done | by intros H%accepts_Void].
  - split; [constructor | done].
  - split; [done | by inversion 1].
  - rewrite andb_true_iff, IHr, IHs, accepts_Seq. split.
    + intros [Hr Hs]. by exists EmptyString, EmptyString.
    + intros (u & v & Huv & Hu & Hv).
      symmetry in Huv. apply append_empty in Huv as [-> ->]. done.
  - by rewrite orb_true_iff, IHr, IHs, accepts_Alt.
  - split; [constructor | done].
Qed.

(** A non-empty word of a starred pattern starts with a non-empty word of
    the pattern. *)
Lemma accepts_Star_cons (r : regex) (c : ascii) (w : string) :
  accepts (Star r) (String c w) ->
  exists u v, w = (u +:+ v) /\ accepts r (String c u) /\ accepts (Star r) v.
Proof.
  intros H. remember (Star r) as t eqn:Ht. remember (String c w) as cw eqn:Hcw.
  revert w Hcw.
  induction H as [| | | | | |t' u v Hu _ Hv IH]; intros w Hcw; try discriminate.
  injection Ht as ->.
  destruct u as [|d u]; rewrite ?append_cons, ?append_nil_l in Hcw.
  - by apply IH.
  - injection Hcw as -> <-. by eauto.
Qed.

Lemma deriv_accepts (c : ascii) (r : regex) :
  forall w, accepts (deriv c r) w <-> accepts r (String c w).
Proof.
  induction r as [| |p|r IHr s IHs|r IHr s IHs|r IHr]; intros w; simpl.
  - split; by intros H%accepts_Void.
  - split; [by intros H%accepts_Void | by inversion 1].
  - destruct (p c) eqn:Hp.
    + rewrite accepts_Eps. split.
      * intros ->. by constructor.
      * by inversion 1.
    + split; [by intros H%accepts_Void|]. inversion 1; congruence.
  - assert (accepts (Seq (deriv c r) s) w <->
            exists u v, String c w = (String c u +:+ v)
                        /\ accepts r (String c u) /\ accepts s v) as Hhead.
    { rewrite accepts_Seq. split.
      - intros (u & v & -> & Hu & Hv). exists u, v. by rewrite <- IHr.
      - intros (u & v & Huv & Hu & Hv). exists u, v.
        rewrite append_cons in Huv. injection Huv as ->. by rewrite IHr. }
    destruct (nullable r) eqn:Hnull.
    + rewrite accepts_alt, accepts_Alt, accepts_seq, Hhead, IHs, accepts_Seq.
      split.
      * intros [(u & v & Huv & Hu & Hv) | Hs]; [by eauto|].
        exists EmptyString, (String c w). repeat split; [|done].
        by apply nullable_accepts.
      * intros (u & v & Huv & Hu & Hv). destruct u as [|d u]; rewrite ?append_cons, ?append_nil_l in Huv.
        -- right. by subst.
        -- left. injection Huv as -> ->. by exists u, v.
    + rewrite accepts_seq, Hhead, accepts_Seq. split.
      * intros (u & v & Huv & Hu & Hv). by eauto.
      * intros (u & v & Huv & Hu & Hv). destruct u as [|d u]; rewrite ?append_cons, ?append_nil_l in Huv.
        -- apply nullable_accepts in Hu. congruence.
        -- injection Huv as -> ->. by exists u, v.
  - by rewrite accepts_alt, !accepts_Alt, IHr, IHs.
  - rewrite accepts_seq, accepts_Seq. split.
    + intros (u & v & -> & Hu & Hv). apply IHr in Hu.
      by apply (acc_star_more r (String c u) v).
    + intros (u & v & -> & Hu & Hv)%accepts_Star_cons.
      exists u, v. by rewrite IHr.
Qed.

(** [matches] holds exactly of the words of the pattern. *)
Theorem matches_accepts (r : regex) (w : string) :
  matches r w = true <-> accepts r w.
Proof.
  revert r. induction w as [|c w IH]; intros r; simpl.
  - apply nullable_accepts.
  - by rewrite IH, deriv_accepts.
Qed.

End Matcher.

(** ** C1: which validators always return *)

(** [validateText] returns a result on every input. *)
Lemma validateText_returns (E : Env) (v : value) (options : TextOptions.t) (w : World) :
  fst (validateText E v options w) = Return (validateTextSync E v options).
Proof. reflexivity. Qed.


(** C1 at [validateJson(undefined, {useCache: true})]: the call throws a
    [TypeError] instead of returning a result, in every environment, store
    and state of the cache; and so does the call on an object that holds
    itself, where [JSON.stringify] throws. With the cache off the same two
    inputs get a failed result each, as [validateText] returns a result on
    every input. *)
Theorem C1_validateJson_throws (E : Env) (h : heap) (w : World) :
  json_outcome E h VUndefined Sample.with_cache w
  = Throw (JsError "TypeError"
             "Cannot read properties of undefined (reading 'substring')")
  /\ json_outcome E Sample.cyclic_store (VRef 1%positive) Sample.with_cache w
     = Throw circular
  /\ json_outcome E h VUndefined JsonOptions.empty w
     = Return (Result false [createTypeError [] "string or object" VUndefined] []
                 VUndefined)
  /\ json_outcome Sample.env Sample.cyclic_store (VRef 1%positive) JsonOptions.empty w
     = Return (Result false
                 [createValidationError [] "JSON contains circular references"
                    INVALID_JSON] [] (VRef 1%positive))
  /\ (forall v options,
        fst (validateText E v options w) = Return (validateTextSync E v options)).
Proof. repeat split. Qed.

(** ** C2: the size guard comes first *)

(** C2. For every string longer than the configured [maxLength] (the default
    is [MAX_TEXT_LENGTH]), the text validator answers with exactly one error,
    the length violation, no warning, and the input as data: no trimming,
    normalisation or pattern stage has run. [validateText] hands the same
    result on. *)
Theorem C2_size_guard_first (E : Env) (text : string) (options : TextOptions.t)
    (w : World) :
  len text > default (MAX_TEXT_LENGTH (SECURITY_CONSTANTS E))
               (TextOptions.maxLength options) ->
  validateTextSync E (VString text) options
  = Result false
      [createStringError []
         ("Text exceeds maximum length of "
          +:+ show (default (MAX_TEXT_LENGTH (SECURITY_CONSTANTS E))
                      (TextOptions.maxLength options))
          +:+ " characters")
         (VString text) STRING_TOO_LONG]
      [] (VString text)
  /\ fst (validateText E (VString text) options w)
     = Return (validateTextSync E (VString text) options).
Proof.
  intros Hlong. split; [|reflexivity].
  unfold validateTextSync.
  apply Z.gt_lt, Z.gtb_lt in Hlong. by rewrite Hlong.
Qed.

Lemma C2_size_guard_first_witness :
  validateTextSync Sample.env (VString "  <script>alert(1)</script>  ")
    (TextOptions.Make None (Some 10) None (Some true) None None None None None None
       None (Some true) None None None None None None)
  = Result false
      [createStringError [] "Text exceeds maximum length of 10 characters"
         (VString "  <script>alert(1)</script>  ") STRING_TOO_LONG]
      [] (VString "  <script>alert(1)</script>  ").
Proof.
  refine (proj1 (C2_size_guard_first Sample.env _ _ Sample.world _)).
  reflexivity.
Defined.

(** ** C3: what a call returns as data *)

Lemma validateIp_data (E : Env) (v : value) (options : IpOptions.t) :
  data (validateIp E v options) = v.
Proof.
  unfold validateIp, ip_checks, ipv4_checks, ipv6_checks.
  repeat case_match; data_kept.
Qed.




Lemma text_stages_data (E : Env) (v : value) (options : TextOptions.t) (text : string)
    (r : SchemaValidationResult) :
  data (text_stages E v options text r) = data r.
Proof. unfold text_stages. repeat case_match; data_kept. Qed.


Lemma email_checks_data (options : EmailOptions.t) (email localPart domain : string)
    (r : SchemaValidationResult) :
  data (email_checks options email localPart domain r) = VString email.
Proof. reflexivity. Qed.





(** ** C4: plus addressing *)

Section ErrorsKept.
Implicit Types (r : SchemaValidationResult) (e x : ValidationError) (b : bool).

Lemma errors_fail_new e r : In e (errors (fail e r)).
Proof. simpl. apply in_or_app. right. by left. Qed.

Lemma errors_when_fail x b e r : In x (errors r) -> In x (errors (when b (fail e) r)).
Proof. intros Hin. destruct b; simpl; [|done]. apply in_or_app. by left. Qed.

Lemma errors_when_warn b w r : errors (when b (warn w) r) = errors r.
Proof. by destruct b. Qed.

Lemma errors_set_data v r : errors (set_data v r) = errors r.
Proof. reflexivity. Qed.

End ErrorsKept.

(** An error pushed at one stage is still there after the later ones. *)
Ltac error_kept :=
  repeat first
    [ assumption
    | apply errors_fail_new
    | rewrite errors_when_warn
    | rewrite errors_set_data
    | apply errors_when_fail
    | progress cbv zeta ].

Lemma includes_empty (p : string) : includes EmptyString p = true -> p = EmptyString.
Proof. destruct p; [done|]. simpl. discriminate. Qed.

(** The accumulating checks reject a local part with a plus sign, in strict
    mode and out of it, with the error of the plus rule. *)
Lemma email_checks_plus (options : EmailOptions.t) (email localPart domain : string)
    (r : SchemaValidationResult) :
  includes localPart "+" = true ->
  success (email_checks options email localPart domain r) = false
  /\ In plus_error (errors (email_checks options email localPart domain r)).
Proof.
  intros Hplus. unfold email_checks. cbv zeta. rewrite Hplus.
  split.
  - destruct (default true (EmailOptions.strict options)); stays_failed.
  - destruct (default true (EmailOptions.strict options)); error_kept.
Qed.

(** C4. An address whose local part holds a plus sign is rejected whatever
    the options are, the [strict] flag included; when the address gets past
    the three short-circuit guards (length, one at sign, two non-empty parts)
    the error of the plus rule is among the errors. The character class of
    the strict local-part pattern does admit the plus sign: every non-empty
    local part made of letters, digits and the four signs . _ + - passes that
    pattern, so it is the separate rule that rejects. *)
Theorem C4_plus_addressing_rejected (text : string) (options : EmailOptions.t) :
  includes (fst (email_parts (toLowerCase (trim text)))) "+" = true ->
  success (validateEmail (VString text) options) = false
  /\ (len (toLowerCase (trim text)) <= default 254 (EmailOptions.maxLength options) ->
      count_char "@" (toLowerCase (trim text)) = 1%nat ->
      snd (email_parts (toLowerCase (trim text))) <> EmptyString ->
      In plus_error (errors (validateEmail (VString text) options)))
  /\ one_of "._+-" "+" = true
  /\ (forall localPart,
        localPart <> EmptyString ->
        all_chars (fun c => alnum c || one_of "._+-" c) localPart = true ->
        matches re_local_strict localPart = true).
Proof.
  intros Hplus.
  destruct (email_parts (toLowerCase (trim text))) as [localPart domain] eqn:Hparts.
  simpl in Hplus.
  assert (localPart <> EmptyString) as Hlocal.
  { intros ->. by apply includes_empty in Hplus. }
  repeat split.
  - unfold validateEmail. cbv zeta. rewrite Hparts.
    destruct (_ >? _); [done|]. destruct (negb _); [done|].
    destruct (_ || _); [done|].
    by apply email_checks_plus.
  - intros Hlen Hat Hdomain. unfold validateEmail. cbv zeta. rewrite Hparts.
    apply Z.le_ngt in Hlen.
    destruct (Z.gtb_spec (len (toLowerCase (trim text)))
                (default 254 (EmailOptions.maxLength options))) as [Hgt|_]; [lia|].
    rewrite Hat. simpl in Hdomain |- *.
    apply String.eqb_neq in Hlocal, Hdomain. rewrite Hlocal, Hdomain. simpl.
    by apply email_checks_plus.
  - intros name Hne Hclass. unfold re_local_strict.
    rewrite matches_plus_class, Hclass.
    apply String.eqb_neq in Hne. by rewrite Hne.
Qed.

Lemma C4_plus_addressing_rejected_witness :
  success (validateEmail (VString "User+Tag@Example.com")
             (EmailOptions.Make None None None None None (Some false))) = false
  /\ errors (validateEmail (VString "User+Tag@Example.com")
               (EmailOptions.Make None None None None None (Some true)))
     = [plus_error].
Proof.
  split.
  - refine (proj1 (C4_plus_addressing_rejected "User+Tag@Example.com" _ _)).
    reflexivity.
  - reflexivity.
Defined.

(** ** C5: the address policy *)

Lemma all_security_fresh (v : value) : all_security (fresh_result v).
Proof. constructor. Qed.

Lemma all_security_fail (m : string) (r : SchemaValidationResult) :
  all_security r -> all_security (fail (sec m) r).
Proof. intros Hr. apply Forall_app. split; [done|]. by constructor. Qed.

Lemma all_security_when (b : bool) (m : string) (r : SchemaValidationResult) :
  all_security r -> all_security (when b (fail (sec m)) r).
Proof. intros Hr. destruct b; [by apply all_security_fail | done]. Qed.

Ltac security_only :=
  repeat first
    [ assumption
    | apply all_security_fresh
    | apply all_security_when
    | apply all_security_fail
    | progress cbv zeta ].

Lemma ip_checks_security (E : Env) (options : IpOptions.t) (ipAddress : string)
    (cidrPrefix : option Z) (r : SchemaValidationResult) :
  all_security r -> all_security (ip_checks E options ipAddress cidrPrefix r).
Proof.
  intros Hr. unfold ip_checks, ipv4_checks, ipv6_checks. cbv zeta.
  destruct (default IpOptions.both (IpOptions.version options));
    repeat case_match; simplify_eq; security_only.
Qed.

Lemma validateIp_security (E : Env) (text : string) (options : IpOptions.t) :
  all_security (validateIp E (VString text) options).
Proof.
  unfold validateIp.
  repeat case_match; try apply ip_checks_security; security_only.
Qed.

(** An address without white space around it and without a prefix goes
    straight to the format validation. *)
Lemma validateIp_plain (E : Env) (text : string) (options : IpOptions.t) :
  trim text = text -> matches re_ip_chars text = true -> includes text "/" = false ->
  validateIp E (VString text) options
  = ip_checks E options text None (fresh_result (VString text)).
Proof. intros Htrim Hchars Hslash. unfold validateIp. by rewrite Htrim, Hchars, Hslash. Qed.

(** C5, as the code has it. Where the syntax helpers read "10.0.0.1" and
    "8.8.8.8" as IPv4 addresses and reject "300.1.1.1": the first fails under
    [allowPrivate = false] with the one error "Private IPv4 addresses not
    allowed", a [SECURITY_VIOLATION]; the second succeeds under the default
    options; the third fails with the one error "Invalid IP address format
    (must be valid IPv4 or IPv6)", whose code is [SECURITY_VIOLATION] too. No
    error that [validateIp] reports on a string carries another code. *)
Theorem C5_ip_policy (E : Env) :
  (validateIPv4 E "10.0.0.1" true = true -> validateIPv6 E "10.0.0.1" true = false ->
   validateIp E (VString "10.0.0.1") Sample.no_private
   = Result false [sec "Private IPv4 addresses not allowed"] [] (VString "10.0.0.1"))
  /\ (validateIPv4 E "8.8.8.8" true = true -> validateIPv6 E "8.8.8.8" true = false ->
      validateIp E (VString "8.8.8.8") IpOptions.empty
      = Result true [] [] (VString "8.8.8.8"))
  /\ (validateIPv4 E "300.1.1.1" true = false ->
      validateIPv6 E "300.1.1.1" true = false ->
      validateIp E (VString "300.1.1.1") IpOptions.empty
      = Result false [invalid_address] [] (VString "300.1.1.1"))
  /\ (forall text options e,
        In e (errors (validateIp E (VString text) options)) ->
        error_code e = Some SECURITY_VIOLATION
        /\ kind_of_code SECURITY_VIOLATION = SecurityViolation).
Proof.
  repeat split.
  - intros H4 H6. rewrite validateIp_plain by reflexivity.
    unfold ip_checks. cbv zeta. simpl default. by rewrite H4, H6.
  - intros H4 H6. rewrite validateIp_plain by reflexivity.
    unfold ip_checks. cbv zeta. simpl default. by rewrite H4, H6.
  - intros H4 H6. rewrite validateIp_plain by reflexivity.
    unfold ip_checks. cbv zeta. simpl default. by rewrite H4, H6.
  - pose proof (validateIp_security E text options) as Hall.
    unfold all_security in Hall. rewrite Forall_forall in Hall.
    apply Hall. by apply list_elem_of_In.
Qed.

Lemma C5_ip_policy_witness :
  validateIp Sample.env (VString "10.0.0.1") Sample.no_private
  = Result false [sec "Private IPv4 addresses not allowed"] [] (VString "10.0.0.1")
  /\ validateIp Sample.env (VString "8.8.8.8") IpOptions.empty
     = Result true [] [] (VString "8.8.8.8")
  /\ validateIp Sample.env (VString "300.1.1.1") IpOptions.empty
     = Result false [invalid_address] [] (VString "300.1.1.1").
Proof.
  destruct (C5_ip_policy Sample.env) as (Hprivate & Hpublic & Hinvalid & _).
  split; [by apply Hprivate | split; [by apply Hpublic | by apply Hinvalid]].
Defined.

(** The third address of C5 under the default options: the error it fails
    with is a [SECURITY_VIOLATION], which is not the kind [InvalidFormat]. *)
Lemma C5_counterexample :
  map (fun e => kind_of_code <$> error_code e)
    (errors (validateIp Sample.env (VString "300.1.1.1") IpOptions.empty))
  = [Some SecurityViolation]
  /\ SecurityViolation <> InvalidFormat.
Proof. split; [reflexivity | discriminate]. Qed.

(** ** C6: prototype pollution *)

Lemma errors_merge (x : ValidationError) (other r : SchemaValidationResult) :
  In x (errors r) -> In x (errors (merge other r)).
Proof. intros Hin. simpl. apply in_or_app. by left. Qed.

Lemma errors_fold_left {A} (f : SchemaValidationResult -> A -> SchemaValidationResult)
    (l : list A) (x : ValidationError) (r : SchemaValidationResult) :
  (forall r' a, In x (errors r') -> In x (errors (f r' a))) ->
  In x (errors r) -> In x (errors (fold_left f l r)).
Proof.
  intros H; revert r; induction l as [|a l IH]; intros r Hr; simpl; [done|].
  by apply IH, H.
Qed.

Section CheckKey.
Context (E : Env) (options : ObjectOptions.t).

Lemma check_key_failed (key : string) (r : SchemaValidationResult) :
  success r = false -> success (check_key E options key r) = false.
Proof.
  intros Hr. unfold check_key. cbv zeta.
  repeat case_match; stays_failed.
Qed.

Lemma check_key_errors (key : string) (x : ValidationError) (r : SchemaValidationResult) :
  In x (errors r) -> In x (errors (check_key E options key r)).
Proof.
  intros Hr. unfold check_key. cbv zeta.
  repeat case_match; simpl; error_kept; apply in_or_app; by left.
Qed.

(** A denylisted name never gets through the loop over the keys. *)
Lemma check_key_dangerous (key : string) (r : SchemaValidationResult) :
  dangerous E key = true -> success (check_key E options key r) = false.
Proof. intros Hd. unfold check_key. cbv zeta. rewrite Hd. by case_match. Qed.

Lemma check_key_dangerous_error (key : string) (r : SchemaValidationResult) :
  len key <= default 100 (ObjectOptions.maxPropertyNameLength options) ->
  dangerous E key = true ->
  In (sec ("Dangerous property name detected: '" +:+ key +:+ "'"))
     (errors (check_key E options key r)).
Proof.
  intros Hlen Hd. unfold check_key. cbv zeta. rewrite Hd.
  destruct (Z.gtb_spec (len key)
              (default 100 (ObjectOptions.maxPropertyNameLength options))); [lia|].
  apply errors_fail_new.
Qed.

End CheckKey.

(** The scan finds a denylisted name among the own keys of the object it is
    started on. *)
Lemma scan_own_key (E : Env) (h : heap) (l : loc) (o : object) :
  h !! l = Some o -> existsb (dangerous E) (keys o) = true ->
  hasDangerousProperties_fresh E h (VRef l) = true.
Proof.
  intros Hl Hkeys. unfold hasDangerousProperties_fresh, scan_fuel. simpl.
  rewrite Hl. destruct (decide (l ∈ (∅ : gset loc))) as [Hin|_]; [set_solver|].
  by rewrite Hkeys.
Qed.

(** C6, as the code has it. Let the denylist hold "__proto__" and the input
    be an object whose one own property has that name. With
    [preventPrototypePollution] set (or left to its default) the call fails
    with the one error of the pollution guard, a [SECURITY_VIOLATION]. With
    the guard switched off the call still fails, whatever the other options
    and the helpers are: the loop over the keys rejects every denylisted
    name, with the error "Dangerous property name detected: '__proto__'"
    (a [SECURITY_VIOLATION]) when the name is within
    [maxPropertyNameLength]. *)
Theorem C6_prototype_pollution (E : Env) (h : heap) (l : loc) (child : value)
    (options : ObjectOptions.t) :
  dangerous E "__proto__" = true ->
  h !! l = Some (Obj false [("__proto__", child)]) ->
  (default true (ObjectOptions.preventPrototypePollution options) = true ->
   validateObject E h (VRef l) options = Result false [pollution_error] [] (VRef l))
  /\ (ObjectOptions.preventPrototypePollution options = Some false ->
      success (validateObject E h (VRef l) options) = false
      /\ (9 <= default 100 (ObjectOptions.maxPropertyNameLength options) ->
          In dangerous_name_error (errors (validateObject E h (VRef l) options)))).
Proof.
  intros Hdeny Hl. split.
  - intros Hguard. unfold validateObject, object_checks. rewrite Hl. simpl is_array.
    cbv iota zeta. rewrite Hguard.
    rewrite (scan_own_key E h l _ Hl); [done|]. simpl. by rewrite Hdeny.
  - intros Hguard. unfold validateObject, object_checks. rewrite Hl. simpl is_array.
    cbv iota zeta. rewrite Hguard. simpl default at 1. simpl andb. cbv iota.
    simpl keys. simpl (fold_left _ [_] _).
    split.
    + case_match; stays_failed; by apply check_key_dangerous.
    + intros Hlen.
      assert (forall r, In dangerous_name_error
                          (errors (check_key E options "__proto__" r))) as Hkey.
      { intros r. by apply (check_key_dangerous_error E options "__proto__"). }
      case_match; repeat apply errors_merge; apply Hkey.
Qed.

Lemma C6_prototype_pollution_witness :
  validateObject Sample.env Sample.polluted_store (VRef 1%positive) ObjectOptions.empty
  = Result false [pollution_error] [] (VRef 1%positive)
  /\ success (validateObject Sample.env Sample.polluted_store (VRef 1%positive) Sample.guard_off)
     = false.
Proof.
  destruct (C6_prototype_pollution Sample.env Sample.polluted_store 1%positive
              (VRef 2%positive) ObjectOptions.empty eq_refl eq_refl) as [Hon _].
  destruct (C6_prototype_pollution Sample.env Sample.polluted_store 1%positive
              (VRef 2%positive) Sample.guard_off eq_refl eq_refl) as [_ Hoff].
  split; [by apply Hon | by apply Hoff].
Defined.

(** The input of C6 with the guard switched off, every other option at its
    default, and helpers that accept every value: the call fails. *)
Lemma C6_counterexample :
  validateObject Sample.env Sample.polluted_store (VRef 1%positive) Sample.guard_off
  = Result false [dangerous_name_error] [] (VRef 1%positive).
Proof. reflexivity. Qed.

(** ** C7: the windows of a batch *)

(** C7. Seven items with [maxConcurrency = 3] make exactly three windows, of
    3, 3 and 1 items, in input order. With [continueOnError = false], when
    the second window is the triggering one (no item of the first window
    fails and some item of the second does) and the timer does not fire, the
    results returned are the six results of the first two windows, in order,
    and nothing for the third. *)
Theorem C7_batch_windows (validator : value -> completion SchemaValidationResult)
    (values : list value) (options : BatchOptions.t) :
  length values = 7%nat ->
  BatchOptions.maxConcurrency options = Some 3 ->
  exists w1 w2 w3,
    createBatches (S (length values)) values 0 3 = Some [w1; w2; w3]
    /\ values = (w1 ++ w2 ++ w3)%list
    /\ length w1 = 3%nat /\ length w2 = 3%nat /\ length w3 = 1%nat
    /\ (BatchOptions.continueOnError options = Some false ->
        forallb success (map (run_item validator) w1) = true ->
        existsb (fun r => negb (success r)) (map (run_item validator) w2) = true ->
        results <$> validateBatch validator values options None
        = Some (map (run_item validator) (w1 ++ w2)%list)).
Proof.
  intros Hlen Hmax.
  destruct values as [|v1 [|v2 [|v3 [|v4 [|v5 [|v6 [|v7 [|]]]]]]]]; try discriminate.
  exists [v1; v2; v3], [v4; v5; v6], [v7].
  repeat split.
  intros Hstop Hfirst Hsecond.
  unfold validateBatch. rewrite Hmax, Hstop. simpl in *.
  destruct (success (run_item validator v1)); [|discriminate].
  destruct (success (run_item validator v2)); [|discriminate].
  destruct (success (run_item validator v3)); [|discriminate].
  simpl. by rewrite Hsecond.
Qed.

Lemma C7_batch_windows_witness :
  results <$> validateBatch Sample.fails_on_five Sample.one_to_seven Sample.three_at_a_time None
  = Some (map (run_item Sample.fails_on_five) (map VNumber [1; 2; 3; 4; 5; 6])).
Proof.
  destruct (C7_batch_windows Sample.fails_on_five Sample.one_to_seven Sample.three_at_a_time
              eq_refl eq_refl)
    as (w1 & w2 & w3 & Hwindows & _ & _ & _ & _ & Hstop).
  injection Hwindows as <- <- <-.
  by apply Hstop.
Defined.

(** ** C8: the results made up on a timeout *)

Section TimeoutFill.
Context (values : list value) (error : exn).

Lemma timeout_fill_length (turns i : nat) (results : list SchemaValidationResult) :
  length (timeout_fill values error turns i results) = (length results + turns)%nat.
Proof.
  revert i results. induction turns as [|turns IH]; intros i results; simpl; [lia|].
  rewrite IH, length_app. simpl. lia.
Qed.

Lemma timeout_fill_prefix (turns i k : nat) (results : list SchemaValidationResult) :
  (k < length results)%nat ->
  timeout_fill values error turns i results !! k = results !! k.
Proof.
  revert i results. induction turns as [|turns IH]; intros i results Hk; simpl; [done|].
  rewrite IH by (rewrite length_app; simpl; lia).
  by apply lookup_app_l.
Qed.

(** The [k]-th result the loop makes up stands at position
    [results.length + k] and carries the value at
    [results.length + i + 2 * k]: the index moves two places per turn. *)
Lemma timeout_fill_lookup (turns i k : nat) (results : list SchemaValidationResult) :
  (k < turns)%nat ->
  timeout_fill values error turns i results !! (length results + k)%nat
  = Some (timeout_result error
            (default VUndefined (values !! (length results + i + 2 * k)%nat))).
Proof.
  revert i k results. induction turns as [|turns IH]; intros i k results Hk; [lia|].
  simpl. destruct k as [|k].
  - rewrite timeout_fill_prefix by (rewrite length_app; simpl; lia).
    rewrite Nat.add_0_r, lookup_app_r by lia.
    rewrite Nat.sub_diag. simpl. by rewrite Nat.add_0_r.
  - match goal with
    | |- timeout_fill _ _ _ _ ?r !! _ = _ =>
        replace (length results + S k)%nat with (length r + k)%nat
          by (rewrite length_app; simpl; lia)
    end.
    rewrite IH by lia. rewrite length_app. simpl.
    do 4 f_equal. lia.
Qed.

End TimeoutFill.

(** C8 on three items whose validator has not settled when the timer fires:
    the catch block makes up three failed results, each with the one error
    "Batch validation timeout: Validation timeout after 30000ms" under the
    code [UNKNOWN_ERROR]; the data they carry are the first input, the third
    input and [undefined], where the inputs in order are expected. *)
Theorem C8_timeout_results_misaligned
    (validator : value -> completion SchemaValidationResult) :
  results <$> validateBatch validator [VString "a"; VString "b"; VString "c"]
                BatchOptions.empty (Some O)
  = Some (map (timeout_result (JsError "Error" "Validation timeout after 30000ms"))
            [VString "a"; VString "c"; VUndefined]).
Proof. reflexivity. Qed.

(** ** The scanner terminates *)
Section ScannerTermination.
Context (E : Env) (h : heap).

Lemma unvisited_mono (v1 v2 : gset loc) : v1 ⊆ v2 -> (unvisited h v2 <= unvisited h v1)%nat.
Proof. intros Hsub. unfold unvisited. by apply subseteq_size, difference_mono_l. Qed.

Lemma unvisited_visit (l : loc) (visited : gset loc) (o : object) :
  h !! l = Some o -> l ∉ visited ->
  (unvisited h ({[l]} ∪ visited) < unvisited h visited)%nat.
Proof.
  intros Hl Hnew. unfold unvisited. apply subset_size.
  assert (l ∈ dom h) as Hdom by (apply elem_of_dom; eauto).
  split.
  - apply difference_mono_l, union_subseteq_r.
  - intros Hsub.
    assert (l ∈ dom h ∖ visited) as Hin by (by apply elem_of_difference).
    apply Hsub, elem_of_difference in Hin as [_ Hout].
    by apply Hout, elem_of_union_l, elem_of_singleton.
Qed.

(** The loop over the values answers when the call it makes answers on every
    visited set at least as large as the one the loop starts from. *)
Lemma scan_values_answers (scan : value -> gset loc -> option (bool * gset loc))
    (start : gset loc) :
  (forall v seen, start ⊆ seen ->
     exists b seen', scan v seen = Some (b, seen') /\ seen ⊆ seen') ->
  forall vs seen, start ⊆ seen ->
    exists b seen', scan_values scan vs seen = Some (b, seen') /\ seen ⊆ seen'.
Proof.
  intros Hscan vs. induction vs as [|v vs IH]; intros seen Hsub; simpl.
  - by eauto.
  - destruct (Hscan v seen Hsub) as ([|] & seen' & -> & Hgrow); [by eauto|].
    destruct (IH seen') as (b & seen'' & -> & Hgrow'); [set_solver|].
    eexists _, _; split; [done | set_solver].
Qed.

(** With more fuel than unvisited objects the scan answers, and the visited
    set it leaves only grows. *)
Lemma scan_answers (fuel : nat) :
  forall (obj : value) (visited : gset loc),
    (unvisited h visited < fuel)%nat ->
    exists b visited',
      hasDangerousProperties E fuel h obj visited = Some (b, visited')
      /\ visited ⊆ visited'.
Proof.
  induction fuel as [|fuel IH]; intros obj visited Hfuel; [lia|].
  destruct obj as [| | | | | | |l]; simpl; try (by eauto).
  destruct (h !! l) as [o|] eqn:Hl; [|by eauto].
  destruct (decide (l ∈ visited)) as [|Hnew]; [by eauto|].
  destruct (existsb (dangerous E) (keys o)).
  { eexists _, _; split; [done | set_solver]. }
  pose proof (unvisited_visit l visited o Hl Hnew) as Hless.
  destruct (scan_values_answers (hasDangerousProperties E fuel h) ({[l]} ∪ visited))
    with (vs := values o) (seen := {[l]} ∪ visited) as (b & seen' & -> & Hgrow).
  - intros v seen Hsub. apply IH.
    pose proof (unvisited_mono _ _ Hsub). lia.
  - done.
  - eexists _, _; split; [done | set_solver].
Qed.

Lemma unvisited_le_store (visited : gset loc) : (unvisited h visited < scan_fuel h)%nat.
Proof.
  unfold unvisited, scan_fuel.
  by apply Nat.lt_succ_r, subseteq_size, subseteq_difference_l.
Qed.

(** The scan that the validators start, with a fresh visited set, never runs
    out of fuel. *)
Lemma scan_fresh_answers (obj : value) :
  exists visited',
    hasDangerousProperties E (scan_fuel h) h obj ∅
    = Some (hasDangerousProperties_fresh E h obj, visited').
Proof.
  unfold hasDangerousProperties_fresh.
  destruct (scan_answers (scan_fuel h) obj ∅ (unvisited_le_store ∅))
    as (b & visited' & -> & _).
  by eauto.
Qed.

End ScannerTermination.

(** ** C9: termination of the scanner *)

(** C9. [hasDangerousProperties] terminates on every object graph, cyclic
    graphs included: with more fuel than the store has objects outside the
    visited set the scan returns an answer (and only adds to the visited set);
    the scan started with a fresh set and the fuel the validators give it
    always answers; a node that is already in the visited set is answered
    [false] at once, without a recursive call; and entering a new node
    strictly shrinks the set of not-yet-visited nodes, which is the measure
    the recursion is well-founded on. *)
Theorem C9_scanner_terminates (E : Env) (h : heap) :
  (forall fuel obj visited,
     (unvisited h visited < fuel)%nat ->
     exists b visited',
       hasDangerousProperties E fuel h obj visited = Some (b, visited')
       /\ visited ⊆ visited')
  /\ (forall obj, exists b visited',
        hasDangerousProperties E (scan_fuel h) h obj ∅ = Some (b, visited'))
  /\ (forall fuel l visited,
        l ∈ visited ->
        hasDangerousProperties E (S fuel) h (VRef l) visited = Some (false, visited))
  /\ (forall l o visited,
        h !! l = Some o -> l ∉ visited ->
        (unvisited h ({[l]} ∪ visited) < unvisited h visited)%nat).
Proof.
  repeat split.
  - intros fuel obj visited Hfuel. by apply scan_answers.
  - intros obj. destruct (scan_fresh_answers E h obj) as [visited' Hscan]. by eauto.
  - intros fuel l visited Hin. simpl.
    destruct (h !! l); [|done]. by destruct (decide (l ∈ visited)).
  - intros l o visited Hl Hnew. by eapply unvisited_visit.
Qed.

Lemma C9_scanner_terminates_witness :
  exists b visited',
    hasDangerousProperties Sample.env 3 Sample.cyclic_store (VRef 1%positive) ∅
    = Some (b, visited')
    /\ (∅ : gset loc) ⊆ visited'.
Proof.
  apply (proj1 (C9_scanner_terminates Sample.env Sample.cyclic_store)).
  vm_compute. lia.
Defined.

(** ** C10: allowed arrays and allowed null *)

(** C10. When [allowArray] is set, [validateObject] answers every array with
    a successful result that has no error and no warning and carries the
    input as data, whatever the array holds and whatever the other options
    and the helpers are; when [allowNull] is set it answers [null] in the
    same way. *)
Theorem C10_allowed_array_and_null (E : Env) (h : heap) (options : ObjectOptions.t) :
  (forall l o,
     h !! l = Some o -> is_array o = true ->
     ObjectOptions.allowArray options = Some true ->
     validateObject E h (VRef l) options = Result true [] [] (VRef l))
  /\ (ObjectOptions.allowNull options = Some true ->
      validateObject E h VNull options = Result true [] [] VNull).
Proof.
  split.
  - intros l o Hl Harr Hallow. unfold validateObject. by rewrite Hl, Harr, Hallow.
  - intros Hallow. unfold validateObject. by rewrite Hallow.
Qed.

Lemma C10_allowed_array_and_null_witness :
  validateObject Sample.env Sample.array_store (VRef 3%positive)
    (ObjectOptions.Make (Some true) (Some true) None None None None None None None None
       None None)
  = Result true [] [] (VRef 3%positive)
  /\ validateObject Sample.env Sample.array_store VNull
       (ObjectOptions.Make (Some true) (Some true) None None None None None None None
          None None None)
     = Result true [] [] VNull.
Proof.
  split.
  - by eapply (proj1 (C10_allowed_array_and_null Sample.env Sample.array_store _)).
  - by apply (proj2 (C10_allowed_array_and_null Sample.env Sample.array_store _)).
Defined.

(** ** Further properties of the batch orchestrator *)

Section Windows.
Context (values : list value) (maxConcurrency : Z).

Lemma createBatches_from (fuel i : nat) :
  0 < maxConcurrency ->
  (length values - i < fuel)%nat ->
  exists batches,
    createBatches fuel values i maxConcurrency = Some batches
    /\ concat batches = drop i values
    /\ Forall (window_sized maxConcurrency) batches.
Proof.
  intros Hpos. revert i. induction fuel as [|fuel IH]; intros i Hfuel; [lia|].
  simpl. destruct (Nat.ltb_spec i (length values)) as [Hin|Hout].
  - destruct (IH (i + Z.to_nat maxConcurrency)%nat) as (batches & -> & Hcat & Hall);
      [lia|].
    eexists; split; [reflexivity|]. split.
    + simpl. by rewrite Hcat, <- drop_drop, take_drop.
    + constructor; [|done]. unfold window_sized.
      rewrite length_take, length_drop. lia.
  - exists []. repeat split; [|constructor].
    by rewrite drop_ge.
Qed.

(** With a [maxConcurrency] that is a positive integer the loop that makes
    the windows ends; the windows, put end to end, are the input, and each
    holds at least one and at most [maxConcurrency] items. *)
Theorem createBatches_partition :
  0 < maxConcurrency ->
  exists batches,
    createBatches (S (length values)) values 0 maxConcurrency = Some batches
    /\ concat batches = values
    /\ Forall (window_sized maxConcurrency) batches.
Proof. intros Hpos. apply (createBatches_from (S (length values)) 0 Hpos). lia. Qed.

(** With a [maxConcurrency] that is not positive the loop never leaves a
    non-empty input: no amount of fuel gets an answer. *)
Theorem createBatches_diverges (fuel : nat) :
  maxConcurrency <= 0 -> (0 < length values)%nat ->
  createBatches fuel values 0 maxConcurrency = None.
Proof.
  intros Hneg Hsome. induction fuel as [|fuel IH]; [done|].
  simpl. destruct (Nat.ltb_spec 0 (length values)); [|lia].
  replace (Z.to_nat maxConcurrency) with 0%nat by lia.
  simpl. by rewrite IH.
Qed.

End Windows.

Lemma createBatches_partition_witness :
  exists batches,
    createBatches 8 Sample.one_to_seven 0 3 = Some batches
    /\ concat batches = Sample.one_to_seven
    /\ Forall (window_sized 3) batches.
Proof. apply (createBatches_partition Sample.one_to_seven 3). lia. Defined.

Lemma createBatches_diverges_witness :
  createBatches 1000 Sample.one_to_seven 0 0 = None.
Proof. apply (createBatches_diverges Sample.one_to_seven 0 1000); simpl; lia. Defined.

(** When the timer does not fire and [continueOnError] is left to its
    default, every window runs: the results are the items' results in input
    order, one per input. *)
Lemma run_windows_all (validator : value -> completion SchemaValidationResult)
    (batches : list (list value)) (results : list SchemaValidationResult) :
  run_windows validator true None batches results
  = (false, (results ++ map (run_item validator) (concat batches))%list).
Proof.
  revert results. induction batches as [|batch rest IH]; intros results; simpl.
  - by rewrite app_nil_r.
  - by rewrite IH, map_app, app_assoc.
Qed.

Theorem validateBatch_all (validator : value -> completion SchemaValidationResult)
    (values : list value) (options : BatchOptions.t) :
  0 < default 10 (BatchOptions.maxConcurrency options) ->
  default true (BatchOptions.continueOnError options) = true ->
  results <$> validateBatch validator values options None
  = Some (map (run_item validator) values).
Proof.
  intros Hpos Hgo. unfold validateBatch. rewrite Hgo.
  destruct (createBatches_from values _ (S (length values)) 0 Hpos)
    as (batches & -> & Hcat & _); [lia|].
  simpl. by rewrite run_windows_all, Hcat.
Qed.

Lemma validateBatch_all_witness :
  results <$> validateBatch Sample.fails_on_five Sample.one_to_seven BatchOptions.empty None
  = Some (map (run_item Sample.fails_on_five) Sample.one_to_seven).
Proof. by apply validateBatch_all. Defined.

(** The windows that have run have produced the results of a prefix of the
    input. *)
Lemma run_windows_produced (validator : value -> completion SchemaValidationResult)
    (continueOnError : bool) (batches : list (list value)) :
  forall (expiry : option nat) (results : list SchemaValidationResult),
  exists finished rest,
    concat batches = (finished ++ rest)%list
    /\ snd (run_windows validator continueOnError expiry batches results)
       = (results ++ map (run_item validator) finished)%list.
Proof.
  induction batches as [|batch more IH]; intros expiry results; simpl.
  - exists [], []. simpl. by rewrite app_nil_r.
  - assert (exists finished rest,
              (batch ++ concat more = finished ++ rest)%list
              /\ results = (results ++ map (run_item validator) finished)%list)
      as Hnone.
    { exists [], (batch ++ concat more)%list. simpl. by rewrite app_nil_r. }
    assert (forall e,
              exists finished rest,
                (batch ++ concat more = finished ++ rest)%list
                /\ snd (if negb continueOnError
                           && existsb (fun r => negb (success r))
                                (map (run_item validator) batch)
                        then (false, (results ++ map (run_item validator) batch)%list)
                        else run_windows validator continueOnError e more
                               (results ++ map (run_item validator) batch)%list)
                   = (results ++ map (run_item validator) finished)%list)
      as Hrun.
    { intros e. destruct (_ && _); simpl.
      - by exists batch, (concat more).
      - destruct (IH e (results ++ map (run_item validator) batch)%list)
          as (finished & rest & Hcat & ->).
        exists (batch ++ finished)%list, rest. split.
        + by rewrite Hcat, app_assoc.
        + by rewrite map_app, app_assoc. }
    destruct expiry as [[|k]|]; simpl; [exact Hnone | apply Hrun | apply Hrun].
Qed.

Lemma timeout_fill_made (values : list value) (error : exn) (turns : nat) :
  forall (i : nat) (results : list SchemaValidationResult),
  exists made,
    timeout_fill values error turns i results = (results ++ made)%list
    /\ length made = turns
    /\ Forall (fun r => exists v, r = timeout_result error v) made.
Proof.
  induction turns as [|turns IH]; intros i results; simpl.
  - exists []. simpl. by rewrite app_nil_r.
  - destruct (IH (S i) (results ++ [timeout_result error
        (default VUndefined (values !! (length results + i)%nat))])%list)
      as (made & -> & Hlen & Hall).
    eexists (_ :: made). split; [by rewrite <- app_assoc|].
    split; [simpl; lia|]. constructor; [by eauto | done].
Qed.

(** The loop that makes the windows, whenever it ends, has cut the input
    from its index on. *)
Lemma createBatches_concat (values : list value) (maxConcurrency : Z) (fuel : nat) :
  forall (i : nat) (batches : list (list value)),
  createBatches fuel values i maxConcurrency = Some batches ->
  concat batches = drop i values.
Proof.
  induction fuel as [|fuel IH]; intros i batches; [done|]. simpl.
  destruct (Nat.ltb_spec i (length values)) as [Hin|Hout].
  - destruct (createBatches fuel values _ maxConcurrency) as [more|] eqn:Hmore;
      [|done].
    intros [= <-]. simpl. by rewrite (IH _ _ Hmore), <- drop_drop, take_drop.
  - intros [= <-]. by rewrite drop_ge.
Qed.

(** The windows that have run are the first few windows, each run in full. *)
Lemma run_windows_completed (validator : value -> completion SchemaValidationResult)
    (continueOnError : bool) (batches : list (list value)) :
  forall (expiry : option nat) (results : list SchemaValidationResult),
  exists k,
    snd (run_windows validator continueOnError expiry batches results)
    = (results ++ map (run_item validator) (concat (take k batches)))%list.
Proof.
  induction batches as [|batch more IH]; intros expiry results.
  - exists 0%nat. simpl. by rewrite app_nil_r.
  - assert (forall e,
              exists k,
                snd (if negb continueOnError
                        && existsb (fun r => negb (success r))
                             (map (run_item validator) batch)
                     then (false, (results ++ map (run_item validator) batch)%list)
                     else run_windows validator continueOnError e more
                            (results ++ map (run_item validator) batch)%list)
                = (results
                   ++ map (run_item validator) (concat (take k (batch :: more))))%list)
      as Hrun.
    { intros e. destruct (_ && _).
      - exists 1%nat. simpl. rewrite ?take_0. simpl. by rewrite app_nil_r.
      - destruct (IH e (results ++ map (run_item validator) batch)%list) as [k ->].
        exists (S k). simpl. by rewrite map_app, app_assoc. }
    destruct expiry as [[|n]|]; simpl; [|apply Hrun..].
    exists 0%nat. simpl. by rewrite app_nil_r.
Qed.

(** When the timer fires, the results returned are one per input: the
    results of the windows that have run, which are the first windows of the
    input and so a prefix of it, in input order, followed by one made-up
    result for each input after them; the made-up results are all failed and
    carry the one error "Batch validation timeout: Validation timeout after
    ...ms" under the code [UNKNOWN_ERROR]. *)
Theorem validateBatch_timeout_count
    (validator : value -> completion SchemaValidationResult)
    (values : list value) (options : BatchOptions.t) (expiry : option nat)
    (batches : list (list value)) :
  createBatches (S (length values)) values 0
    (default 10 (BatchOptions.maxConcurrency options)) = Some batches ->
  fst (run_windows validator (default true (BatchOptions.continueOnError options))
         expiry batches []) = true ->
  exists k finished rest made,
    finished = concat (take k batches)
    /\ values = (finished ++ rest)%list
    /\ results <$> validateBatch validator values options expiry
       = Some (map (run_item validator) finished ++ made)%list
    /\ length made = length rest
    /\ Forall (fun r => exists v,
                 r = timeout_result
                       (JsError "Error"
                          ("Validation timeout after "
                           +:+ show (default 30000 (BatchOptions.timeout options))
                           +:+ "ms")) v) made.
Proof.
  intros Hbatches Hfired. unfold validateBatch. rewrite Hbatches. simpl.
  apply createBatches_concat in Hbatches. rewrite drop_0 in Hbatches.
  destruct (run_windows_completed validator
              (default true (BatchOptions.continueOnError options)) batches expiry [])
    as [k Hresults].
  destruct (run_windows _ _ _ _ _) as [timer_first produced].
  simpl in Hfired, Hresults. subst timer_first produced. simpl.
  destruct (timeout_fill_made values
              (JsError "Error"
                 ("Validation timeout after "
                  +:+ show (default 30000 (BatchOptions.timeout options)) +:+ "ms"))
              (length values
               - length (map (run_item validator) (concat (take k batches)))) 0
              (map (run_item validator) (concat (take k batches))))
    as (made & Hfill & Hlen & Hall).
  exists k, (concat (take k batches)), (concat (drop k batches)), made.
  assert (values = (concat (take k batches) ++ concat (drop k batches))%list) as Hsplit.
  { by rewrite <- concat_app, take_drop. }
  rewrite Hfill. repeat split; [done | | done].
  rewrite Hlen, length_map. rewrite Hsplit at 1. rewrite length_app. lia.
Qed.

Lemma validateBatch_timeout_count_witness :
  exists k finished rest made,
    finished = concat (take k [map VNumber [1; 2; 3]; map VNumber [4; 5; 6]; [VNumber 7]])
    /\ Sample.one_to_seven = (finished ++ rest)%list
    /\ results <$> validateBatch Sample.fails_on_five Sample.one_to_seven
                     Sample.three_at_a_time (Some 1%nat)
       = Some (map (run_item Sample.fails_on_five) finished ++ made)%list
    /\ length made = length rest
    /\ Forall (fun r => exists v,
                 r = timeout_result
                       (JsError "Error" "Validation timeout after 30000ms") v) made.
Proof.
  apply (validateBatch_timeout_count Sample.fails_on_five Sample.one_to_seven
           Sample.three_at_a_time (Some 1%nat)
           [map VNumber [1; 2; 3]; map VNumber [4; 5; 6]; [VNumber 7]]);
    reflexivity.
Defined.

(** With [continueOnError = false] the windows before the first one that
    holds a failure run in full, that window runs in full, and no later
    window is started. *)
Lemma run_windows_stop (validator : value -> completion SchemaValidationResult)
    (clean : list (list value)) (bad : list value) (rest : list (list value)) :
  Forall (Forall (fun v => success (run_item validator v) = true)) clean ->
  Exists (fun v => success (run_item validator v) = false) bad ->
  forall results,
  run_windows validator false None (clean ++ bad :: rest)%list results
  = (false, (results ++ map (run_item validator) (concat clean ++ bad))%list).
Proof.
  intros Hclean Hbad. induction Hclean as [|batch clean Hbatch _ IH]; intros results.
  - cbn [app concat run_windows negb andb].
    assert (existsb (fun r => negb (success r)) (map (run_item validator) bad) = true)
      as ->; [|done].
    induction Hbad as [v bad Hv|v bad _ IH]; simpl; [by rewrite Hv|].
    by rewrite IH, orb_true_r.
  - cbn [app concat run_windows negb andb fmap option_fmap option_map].
    assert (existsb (fun r => negb (success r)) (map (run_item validator) batch) = false)
      as ->.
    { induction Hbatch as [|v batch Hv _ IHb]; [done|]. simpl. by rewrite Hv. }
    by rewrite IH, !map_app, !app_assoc.
Qed.

(** With [continueOnError = false] and no timer expiry, [validateBatch]
    returns the results of the windows up to and including the first one that
    holds a failed item, in input order, and nothing of the windows after
    it. *)
Theorem validateBatch_stops_at_first_failure
    (validator : value -> completion SchemaValidationResult)
    (values : list value) (options : BatchOptions.t)
    (clean : list (list value)) (bad : list value) (rest : list (list value)) :
  createBatches (S (length values)) values 0
    (default 10 (BatchOptions.maxConcurrency options))
  = Some (clean ++ bad :: rest)%list ->
  default true (BatchOptions.continueOnError options) = false ->
  Forall (Forall (fun v => success (run_item validator v) = true)) clean ->
  Exists (fun v => success (run_item validator v) = false) bad ->
  results <$> validateBatch validator values options None
  = Some (map (run_item validator) (concat clean ++ bad)%list).
Proof.
  intros Hbatches Hstop Hclean Hbad. unfold validateBatch.
  rewrite Hbatches, Hstop. cbn [mbind option_bind].
  by rewrite (run_windows_stop validator clean bad rest Hclean Hbad).
Qed.

Lemma validateBatch_stops_at_first_failure_witness :
  results <$> validateBatch Sample.fails_on_five Sample.one_to_seven
                Sample.three_at_a_time None
  = Some (map (run_item Sample.fails_on_five) (map VNumber [1; 2; 3; 4; 5; 6])).
Proof.
  apply (validateBatch_stops_at_first_failure Sample.fails_on_five Sample.one_to_seven
           Sample.three_at_a_time [map VNumber [1; 2; 3]] (map VNumber [4; 5; 6])
           [[VNumber 7]]).
  - reflexivity.
  - reflexivity.
  - repeat constructor.
  - apply Exists_cons_tl, Exists_cons_hd. reflexivity.
Defined.

Lemma length_filter_success (results : list SchemaValidationResult) :
  (length (filter (fun r => success r = true) results)
   + length (filter (fun r => success r = false) results) = length results)%nat.
Proof.
  induction results as [|r results IH]; [done|].
  rewrite !filter_cons. destruct (success r); repeat case_decide; try done; simpl; lia.
Qed.

(** Whatever the validator, the options and the moment the timer fires, the
    summary of an answer of [validateBatch] counts the results returned:
    [total] is their number, never more than the number of inputs, and
    [passed] and [failed] add up to it. *)
Theorem validateBatch_summary (validator : value -> completion SchemaValidationResult)
    (values : list value) (options : BatchOptions.t) (expiry : option nat)
    (answer : BatchResult) :
  validateBatch validator values options expiry = Some answer ->
  total (summary answer) = length (results answer)
  /\ (passed (summary answer) + failed (summary answer) = total (summary answer))%nat
  /\ (total (summary answer) <= length values)%nat.
Proof.
  unfold validateBatch. cbv zeta.
  destruct (createBatches _ values 0 _) as [batches|] eqn:Hbatches; [|done].
  apply createBatches_concat in Hbatches. rewrite drop_0 in Hbatches.
  cbn [mbind option_bind].
  destruct (run_windows_produced validator
              (default true (BatchOptions.continueOnError options)) batches expiry [])
    as (finished & rest & Hsplit & Hresults).
  destruct (run_windows _ _ _ _ _) as [timer_first produced].
  simpl in Hresults. subst produced.
  assert (length (map (run_item validator) finished) <= length values)%nat as Hle.
  { rewrite length_map, <- Hbatches, Hsplit, length_app. lia. }
  intros [= <-]. cbn [summary results summarize total passed failed].
  split; [done|]. split; [apply length_filter_success|].
  destruct timer_first; cbn [withTimeout]; [|done].
  destruct (timeout_fill_made values
              (JsError "Error"
                 ("Validation timeout after "
                  +:+ show (default 30000 (BatchOptions.timeout options)) +:+ "ms"))
              (length values - length (map (run_item validator) finished)) 0
              (map (run_item validator) finished))
    as (made & -> & Hlen & _).
  rewrite length_app, Hlen. lia.
Qed.

Lemma validateBatch_summary_witness :
  exists answer,
    validateBatch Sample.fails_on_five Sample.one_to_seven Sample.three_at_a_time None
    = Some answer
    /\ total (summary answer) = 6%nat
    /\ (passed (summary answer) + failed (summary answer) = total (summary answer))%nat.
Proof.
  eexists. split; [reflexivity|]. split; [reflexivity|].
  apply (validateBatch_summary Sample.fails_on_five Sample.one_to_seven
           Sample.three_at_a_time None).
  reflexivity.
Defined.

(** ** The addresses of the specification's examples *)

(** ["a..b@example.com"] fails on its consecutive dots, ["a@b"] fails on the
    shape of its domain, and ["User@Example.com"] passes under the default
    options with the lower-cased address as data and no warning. *)
Theorem validateEmail_examples :
  validateEmail (VString "a..b@example.com") EmailOptions.empty
  = Result false [sec "Email local part cannot contain consecutive dots"] []
      (VString "a..b@example.com")
  /\ validateEmail (VString "a@b") EmailOptions.empty
     = Result false
         [sec "Invalid domain format - must contain at least one dot and valid TLD"]
         [] (VString "a@b")
  /\ validateEmail (VString "User@Example.com") EmailOptions.empty
     = Result true [] [] (VString "user@example.com").
Proof. repeat split. Qed.

(** * Further properties *)

(** ** Trimming and lower-casing *)
Section Cleaning.

Lemma append_assoc (u v w : string) : ((u +:+ v) +:+ w) = (u +:+ (v +:+ w)).
Proof. induction u as [|c u IH]; [done|]. by rewrite !append_cons, IH. Qed.

Lemma rev_string_append (s : string) :
  forall acc, rev_string acc s = (reverse s +:+ acc).
Proof.
  unfold reverse. induction s as [|c s IH]; intros acc; [done|].
  change (rev_string (String c acc) s
          = (rev_string (String c EmptyString) s +:+ acc)).
  by rewrite (IH (String c acc)), (IH (String c EmptyString)), append_assoc.
Qed.

Lemma reverse_cons (c : ascii) (s : string) :
  reverse (String c s) = (reverse s +:+ String c EmptyString).
Proof. unfold reverse at 1. simpl. apply rev_string_append. Qed.

Lemma reverse_append (u v : string) : reverse (u +:+ v) = (reverse v +:+ reverse u).
Proof.
  induction u as [|c u IH].
  - by rewrite append_nil_l, append_nil_r.
  - by rewrite append_cons, !reverse_cons, IH, append_assoc.
Qed.

Lemma reverse_involutive (s : string) : reverse (reverse s) = s.
Proof.
  induction s as [|c s IH]; [done|].
  by rewrite reverse_cons, reverse_append, IH.
Qed.

Lemma trimStart_clean (s : string) : starts_clean (trimStart s).
Proof.
  induction s as [|c s IH]; simpl; [done|].
  by destruct (is_space c) eqn:Hc.
Qed.

Lemma trimStart_id (s : string) : starts_clean s -> trimStart s = s.
Proof. destruct s as [|c s]; simpl; [done|]. by intros ->. Qed.

Lemma trimStart_suffix (s : string) : exists p, s = (p +:+ trimStart s).
Proof.
  induction s as [|c s [p IH]]; simpl.
  - by exists EmptyString.
  - destruct (is_space c).
    + exists (String c p). by rewrite append_cons, <- IH.
    + by exists EmptyString.
Qed.

Lemma starts_clean_prefix (u v : string) :
  starts_clean (u +:+ v) -> u <> EmptyString -> starts_clean u.
Proof. destruct u; [done|]. by rewrite append_cons. Qed.

(** A trimmed string has no white space at either end, and trimming leaves
    such a string alone. *)
Lemma trim_clean (s : string) :
  starts_clean (trim s) /\ starts_clean (reverse (trim s)).
Proof.
  unfold trim. rewrite reverse_involutive. split; [|apply trimStart_clean].
  destruct (trimStart_suffix (reverse (trimStart s))) as [p Hp].
  destruct (trimStart (reverse (trimStart s))) as [|c u] eqn:Hu; [done|].
  apply (starts_clean_prefix _ (reverse p)).
  - rewrite <- reverse_append, <- Hp, reverse_involutive. apply trimStart_clean.
  - rewrite reverse_cons.
    destruct (reverse u); [rewrite append_nil_l | rewrite append_cons]; discriminate.
Qed.

Lemma trim_id (s : string) :
  starts_clean s -> starts_clean (reverse s) -> trim s = s.
Proof.
  intros Hs Hr. unfold trim.
  by rewrite (trimStart_id s Hs), (trimStart_id _ Hr), reverse_involutive.
Qed.

Lemma trim_idempotent (s : string) : trim (trim s) = trim s.
Proof. destruct (trim_clean s). by apply trim_id. Qed.

Lemma is_space_lower (c : ascii) : is_space (lower_char c) = is_space c.
Proof. by destruct c as [[] [] [] [] [] [] [] []]. Qed.

Lemma lower_char_idempotent (c : ascii) : lower_char (lower_char c) = lower_char c.
Proof. by destruct c as [[] [] [] [] [] [] [] []]. Qed.

Lemma toLowerCase_idempotent (s : string) : toLowerCase (toLowerCase s) = toLowerCase s.
Proof.
  induction s as [|c s IH]; simpl; [done|]. by rewrite lower_char_idempotent, IH.
Qed.

Lemma toLowerCase_append (u v : string) :
  toLowerCase (u +:+ v) = (toLowerCase u +:+ toLowerCase v).
Proof. induction u as [|c u IH]; [done|]. rewrite !append_cons. simpl. by rewrite IH, append_cons. Qed.

Lemma toLowerCase_reverse (s : string) : toLowerCase (reverse s) = reverse (toLowerCase s).
Proof.
  induction s as [|c s IH]; [done|]. simpl toLowerCase at 2.
  by rewrite !reverse_cons, toLowerCase_append, IH.
Qed.

Lemma toLowerCase_trimStart (s : string) :
  toLowerCase (trimStart s) = trimStart (toLowerCase s).
Proof.
  induction s as [|c s IH]; simpl; [done|].
  rewrite is_space_lower. by destruct (is_space c).
Qed.

Lemma toLowerCase_trim (s : string) : toLowerCase (trim s) = trim (toLowerCase s).
Proof.
  unfold trim.
  by rewrite toLowerCase_reverse, toLowerCase_trimStart, toLowerCase_reverse,
    toLowerCase_trimStart.
Qed.

(** The cleaned form of an address is its own cleaned form. *)
Lemma clean_email_fixed (s : string) :
  toLowerCase (trim (toLowerCase (trim s))) = toLowerCase (trim s).
Proof.
  by rewrite (toLowerCase_trim (toLowerCase (trim s))), toLowerCase_idempotent,
    <- toLowerCase_trim, trim_idempotent.
Qed.

End Cleaning.

(** ** Results that differ in their data only *)
Section Verdicts.
Implicit Types (r other : SchemaValidationResult) (e : ValidationError) (b : bool).

Lemma same_verdict_refl r : same_verdict r r.
Proof. by repeat split. Qed.

Lemma same_verdict_fresh (v1 v2 : value) : same_verdict (fresh_result v1) (fresh_result v2).
Proof. by repeat split. Qed.

Lemma same_verdict_fail e r1 r2 : same_verdict r1 r2 -> same_verdict (fail e r1) (fail e r2).
Proof. intros (Hs & He & Hw). repeat split; simpl; congruence. Qed.

Lemma same_verdict_warn w r1 r2 : same_verdict r1 r2 -> same_verdict (warn w r1) (warn w r2).
Proof. intros (Hs & He & Hw). repeat split; simpl; congruence. Qed.

Lemma same_verdict_when b (f : SchemaValidationResult -> SchemaValidationResult) r1 r2 :
  (forall x y, same_verdict x y -> same_verdict (f x) (f y)) ->
  same_verdict r1 r2 -> same_verdict (when b f r1) (when b f r2).
Proof. intros Hf Hr. destruct b; simpl; auto. Qed.

Lemma same_verdict_set_data (v1 v2 : value) r1 r2 :
  same_verdict r1 r2 -> same_verdict (set_data v1 r1) (set_data v2 r2).
Proof. intros (Hs & He & Hw). by repeat split. Qed.

Lemma same_verdict_eq r1 r2 : same_verdict r1 r2 -> data r1 = data r2 -> r1 = r2.
Proof.
  destruct r1, r2. intros (Hs & He & Hw) Hd. simpl in *. congruence.
Qed.

(** What a successful end says about the stages before it. *)
Lemma success_when_fail_inv b e r :
  success (when b (fail e) r) = true -> b = false /\ success r = true.
Proof. by destruct b. Qed.

Lemma success_when_warn_inv b w r :
  success (when b (warn w) r) = true -> success r = true.
Proof. by destruct b. Qed.

Lemma success_merge_inv other r :
  success (merge other r) = true -> success r = true /\ success other = true.
Proof. simpl. by intros [??]%andb_true_iff. Qed.

Lemma coherent_fresh (v : value) : coherent (fresh_result v).
Proof. by split. Qed.

Lemma coherent_fail e r : coherent (fail e r).
Proof. split; simpl; [done|]. by intros [_ ?]%app_eq_nil. Qed.

Lemma coherent_warn w r : coherent r -> coherent (warn w r).
Proof. done. Qed.

Lemma coherent_set_data (v : value) r : coherent r -> coherent (set_data v r).
Proof. done. Qed.

Lemma coherent_when_fail b e r : coherent r -> coherent (when b (fail e) r).
Proof. destruct b; [intros _; apply coherent_fail | done]. Qed.

Lemma coherent_when_warn b w r : coherent r -> coherent (when b (warn w) r).
Proof. by destruct b. Qed.

Lemma coherent_merge other r : coherent other -> coherent r -> coherent (merge other r).
Proof.
  unfold coherent. intros Ho Hr. simpl. rewrite andb_true_iff, Hr, Ho. split.
  - by intros [-> ->].
  - by intros [??]%app_eq_nil.
Qed.

Lemma coherent_fold_left {A} (f : SchemaValidationResult -> A -> SchemaValidationResult)
    (l : list A) r :
  (forall r' a, coherent r' -> coherent (f r' a)) ->
  coherent r -> coherent (fold_left f l r).
Proof.
  intros H; revert r; induction l as [|a l IH]; intros r Hr; simpl; [done|].
  by apply IH, H.
Qed.

End Verdicts.

Ltac same_verdicts :=
  repeat first
    [ assumption
    | apply same_verdict_fresh
    | apply same_verdict_refl
    | apply same_verdict_set_data
    | apply same_verdict_fail
    | apply same_verdict_warn
    | apply same_verdict_when;
        [ intros; first [ by apply same_verdict_fail | by apply same_verdict_warn ] | ]
    | progress cbv zeta ].

Ltac coherence :=
  repeat first
    [ assumption
    | apply coherent_fresh
    | apply coherent_fail
    | apply coherent_when_fail
    | apply coherent_when_warn
    | apply coherent_warn
    | apply coherent_set_data
    | progress cbv zeta ].

(** ** validateEmail: what success means, and validating again *)

Lemma email_checks_verdict (options : EmailOptions.t) (email localPart domain : string)
    (r1 r2 : SchemaValidationResult) :
  same_verdict r1 r2 ->
  email_checks options email localPart domain r1
  = email_checks options email localPart domain r2.
Proof.
  intros Hr. apply same_verdict_eq; [|reflexivity].
  unfold email_checks.
  destruct (default true (EmailOptions.strict options)); same_verdicts.
Qed.

(** Past the short-circuit guards the result is a function of the cleaned
    address alone: validating the cleaned address (the data of the first
    result) gives the very same result again, errors, warnings and data. *)
Theorem validateEmail_again (text : string) (options : EmailOptions.t) :
  email_short_circuit options (toLowerCase (trim text)) = false ->
  validateEmail (VString (toLowerCase (trim text))) options
  = validateEmail (VString text) options
  /\ data (validateEmail (VString text) options) = VString (toLowerCase (trim text)).
Proof.
  intros Hguard. unfold validateEmail, email_short_circuit in *. cbv zeta.
  rewrite clean_email_fixed.
  destruct (email_parts (toLowerCase (trim text))) as [localPart domain].
  simpl in Hguard.
  destruct (_ >? _); [done|]. destruct (negb _); [done|].
  simpl in Hguard. rewrite Hguard. split; [|reflexivity].
  apply email_checks_verdict, same_verdict_fresh.
Qed.

Lemma validateEmail_again_witness :
  validateEmail (VString "user.name@example.com") EmailOptions.empty
  = validateEmail (VString "  User.Name@Example.COM ") EmailOptions.empty
  /\ data (validateEmail (VString "  User.Name@Example.COM ") EmailOptions.empty)
     = VString "user.name@example.com".
Proof. by apply (validateEmail_again "  User.Name@Example.COM "). Defined.

(** A string with exactly one separator splits in two pieces that hold no
    separator and give the string back around it. *)
Lemma split_once (sep : ascii) (s : string) :
  count_char sep s = 1%nat ->
  exists l d,
    split sep s = [l; d] /\ s = (l +:+ String sep d)
    /\ count_char sep l = 0%nat /\ count_char sep d = 0%nat.
Proof.
  assert (forall t, count_char sep t = 0%nat -> split sep t = [t]) as Hnone.
  { induction t as [|c t IH]; simpl; [done|].
    destruct (Ascii.eqb c sep); [done|]. simpl. intros H. by rewrite (IH H). }
  induction s as [|c s IH]; simpl; [done|].
  destruct (Ascii.eqb_spec c sep) as [->|Hc]; simpl.
  - intros H. injection H as H. exists EmptyString, s.
    by rewrite (Hnone s H).
  - intros H. destruct (IH H) as (l & d & -> & -> & Hl & Hd).
    exists (String c l), d. repeat split; [|done].
    simpl. destruct (Ascii.eqb_spec c sep); [done|]. by simpl.
Qed.

(** What a successful [validateEmail] has checked: the data is the cleaned
    address, which is a local part, one at sign and a domain; no error is
    listed; and the parts are within the limits and free of the rejected
    shapes. *)
Theorem validateEmail_success (text : string) (options : EmailOptions.t) :
  success (validateEmail (VString text) options) = true ->
  exists localPart domain,
    data (validateEmail (VString text) options)
    = VString (localPart +:+ String "@" domain)
    /\ toLowerCase (trim text) = (localPart +:+ String "@" domain)
    /\ errors (validateEmail (VString text) options) = []
    /\ len (toLowerCase (trim text)) <= default 254 (EmailOptions.maxLength options)
    /\ count_char "@" localPart = 0%nat /\ count_char "@" domain = 0%nat
    /\ localPart <> EmptyString /\ domain <> EmptyString
    /\ len localPart <= 64 /\ len domain <= 255
    /\ includes localPart "+" = false
    /\ includes localPart ".." = false /\ includes domain ".." = false
    /\ startsWith localPart "." = false /\ endsWith localPart "." = false
    /\ startsWith domain "." = false /\ endsWith domain "." = false
    /\ mem domain (default [] (EmailOptions.blockedDomains options)) = false
    /\ (default [] (EmailOptions.allowedDomains options) <> [] ->
        mem domain (default [] (EmailOptions.allowedDomains options)) = true)
    /\ (default true (EmailOptions.strict options) = true ->
        matches re_local_strict localPart = true
        /\ matches re_domain_strict domain = true)
    /\ (default true (EmailOptions.strict options) = false ->
        matches re_local_rfc localPart = true
        /\ matches re_domain_labels domain = true).
Proof.
  unfold validateEmail. cbv zeta.
  destruct (Z.gtb_spec (len (toLowerCase (trim text)))
              (default 254 (EmailOptions.maxLength options))) as [|Hlen]; [done|].
  destruct (Nat.eqb_spec (count_char "@" (toLowerCase (trim text))) 1) as [Hat|];
    [|done].
  simpl negb. cbv iota.
  destruct (split_once "@" _ Hat) as (localPart & domain & Hsplit & Hemail & Hl & Hd).
  unfold email_parts. rewrite Hsplit. simpl fst. simpl snd.
  change (default EmptyString ([localPart; domain] !! 0%nat)) with localPart.
  change (default EmptyString ([localPart; domain] !! 1%nat)) with domain.
  destruct (String.eqb_spec localPart EmptyString) as [|Hlocal]; [done|].
  destruct (String.eqb_spec domain EmptyString) as [|Hdomain]; [done|].
  simpl orb. cbv iota.
  intros Hok. exists localPart, domain.
  split; [by rewrite <- Hemail|]. split; [done|].
  unfold email_checks in *. cbv zeta in *.
  rewrite success_set_data in Hok. rewrite errors_set_data.
  apply success_when_warn_inv in Hok. rewrite errors_when_warn.
  assert (forall b e r, b = false -> when b (fail e) r = r) as Hskip
    by (by intros b e r ->).
  destruct (default true (EmailOptions.strict options)) eqn:Hstrict;
    repeat match type of Hok with
      | success (when _ (fail _) _) = true =>
          let Hb := fresh "Hb" in
          apply success_when_fail_inv in Hok as [Hb Hok];
          rewrite (Hskip _ _ _ Hb)
      end.
  all: repeat match goal with
    | H : negb _ = false |- _ => apply negb_false_iff in H
    | H : _ || _ = false |- _ => apply orb_false_iff in H as [??]
    | H : (_ >? _) = false |- _ => rewrite Z.gtb_ltb, Z.ltb_ge in H
    end.
  all: repeat split; try done.
  all: intros Hlist.
  all: match goal with
    | H : negb (length _ =? 0)%nat && _ = false |- _ =>
        apply andb_false_iff in H as [H|H];
          [ by destruct (default [] (EmailOptions.allowedDomains options))
          | by apply negb_false_iff in H ]
    end.
Qed.

Lemma validateEmail_success_witness :
  exists localPart domain,
    toLowerCase (trim " User@Example.com") = (localPart +:+ String "@" domain)
    /\ errors (validateEmail (VString " User@Example.com") EmailOptions.empty) = [].
Proof.
  destruct (validateEmail_success " User@Example.com" EmailOptions.empty eq_refl)
    as (localPart & domain & _ & Hemail & Herrors & _).
  by exists localPart, domain.
Defined.

(** ** A failed result lists an error *)

Lemma check_key_coherent (E : Env) (options : ObjectOptions.t) (key : string)
    (r : SchemaValidationResult) :
  coherent r -> coherent (check_key E options key r).
Proof. intros Hr. unfold check_key. repeat case_match; coherence. Qed.

Lemma ip_checks_coherent (E : Env) (options : IpOptions.t) (ipAddress : string)
    (cidrPrefix : option Z) (r : SchemaValidationResult) :
  coherent r -> coherent (ip_checks E options ipAddress cidrPrefix r).
Proof.
  intros Hr. unfold ip_checks, ipv4_checks, ipv6_checks. cbv zeta.
  destruct (default IpOptions.both (IpOptions.version options));
    repeat case_match; simplify_eq; coherence.
Qed.

Lemma text_stages_coherent (E : Env) (v : value) (options : TextOptions.t)
    (text : string) (r : SchemaValidationResult) :
  coherent r -> coherent (text_stages E v options text r).
Proof. intros Hr. unfold text_stages. repeat case_match; coherence. Qed.

(** Every validator fails exactly when it lists an error: [validateTextSync],
    [validateIp] and [validateEmail] on every input, [validateObject] and
    [validateJsonSync] as soon as the helpers they merge the results of do
    the same. Warnings never make a call fail. *)
Theorem validators_coherent (E : Env) :
  (forall v options, coherent (validateTextSync E v options))
  /\ (forall v options, coherent (validateIp E v options))
  /\ (forall v options, coherent (validateEmail v options))
  /\ (coherent_helpers E ->
      (forall h v options, coherent (validateObject E h v options))
      /\ (forall h v options, coherent (fst (validateJsonSync E h v options)))).
Proof.
  split; [|split; [|split]].
  - intros v options. unfold validateTextSync.
    repeat case_match; simplify_eq; try apply text_stages_coherent; coherence.
  - intros v options. unfold validateIp.
    repeat case_match; try apply ip_checks_coherent; coherence.
  - intros v options. unfold validateEmail, email_checks.
    repeat case_match; coherence.
  - intros (Hdeep & Hschema & Hjdeep & Hjschema). split.
    + intros h v options. unfold validateObject, object_checks.
      repeat case_match; coherence.
      all: repeat apply coherent_merge; try done.
      all: apply coherent_fold_left; [intros; by apply check_key_coherent|].
      all: apply coherent_fold_left; [intros; coherence|]; coherence.
    + intros h v options. unfold validateJsonSync, json_checks.
      repeat case_match; simpl; coherence.
      all: repeat first [ apply coherent_merge | apply coherent_set_data ]; try done.
      all: coherence.
Qed.

Lemma validators_coherent_witness :
  coherent (validateObject Sample.env Sample.polluted_store (VRef 1%positive)
              Sample.guard_off).
Proof.
  apply (proj2 (proj2 (proj2 (validators_coherent Sample.env)))).
  by repeat split.
Defined.

(** ** validateIp: white space, prefixes and the default policy *)

Lemma ip_checks_verdict (E : Env) (options : IpOptions.t) (ipAddress : string)
    (cidrPrefix : option Z) (r1 r2 : SchemaValidationResult) :
  same_verdict r1 r2 ->
  same_verdict (ip_checks E options ipAddress cidrPrefix r1)
               (ip_checks E options ipAddress cidrPrefix r2).
Proof.
  intros Hr. unfold ip_checks, ipv4_checks, ipv6_checks. cbv zeta.
  destruct (default IpOptions.both (IpOptions.version options));
    repeat case_match; simplify_eq; same_verdicts.
Qed.

(** White space around an address changes nothing but the data handed back:
    the address and the address trimmed get the same success flag, errors and
    warnings. *)
Theorem validateIp_trimmed (E : Env) (text : string) (options : IpOptions.t) :
  same_verdict (validateIp E (VString (trim text)) options)
               (validateIp E (VString text) options)
  /\ data (validateIp E (VString text) options) = VString text.
Proof.
  split; [|apply validateIp_data].
  unfold validateIp. rewrite trim_idempotent.
  repeat case_match; try apply ip_checks_verdict; same_verdicts.
Qed.

Section Prefixes.
Context (E : Env) (options : IpOptions.t).

(** With [allowCIDR] off (the default) an input that holds a slash is
    rejected before any helper is consulted, with one error. *)
Theorem validateIp_cidr_off (text : string) :
  default false (IpOptions.allowCIDR options) = false ->
  includes (trim text) "/" = true ->
  validateIp E (VString text) options
  = fail (if matches re_ip_chars (trim text) then cidr_off_error
          else sec "IP address contains invalid characters")
      (fresh_result (VString text)).
Proof.
  intros Hoff Hslash. unfold validateIp. rewrite Hoff, Hslash.
  by destruct (matches re_ip_chars (trim text)).
Qed.

End Prefixes.

Lemma validateIp_cidr_off_witness :
  validateIp Sample.env (VString "10.0.0.0/8") IpOptions.empty
  = fail cidr_off_error (fresh_result (VString "10.0.0.0/8")).
Proof. by apply (validateIp_cidr_off Sample.env IpOptions.empty "10.0.0.0/8"). Defined.

Section StringFacts.

Lemma all_chars_append (p : ascii -> bool) (u v : string) :
  all_chars p (u +:+ v) = all_chars p u && all_chars p v.
Proof.
  induction u as [|c u IH]; [done|].
  rewrite append_cons. simpl. by rewrite IH, andb_assoc.
Qed.

Lemma all_chars_reverse (p : ascii -> bool) (s : string) :
  all_chars p (reverse s) = all_chars p s.
Proof.
  induction s as [|c s IH]; [done|].
  rewrite reverse_cons, all_chars_append, IH. simpl.
  by rewrite andb_true_r, andb_comm.
Qed.

Lemma all_chars_weaken (p q : ascii -> bool) (s : string) :
  (forall c, p c = true -> q c = true) -> all_chars p s = true -> all_chars q s = true.
Proof.
  intros Hpq. induction s as [|c s IH]; simpl; [done|].
  intros [Hc Hs]%andb_true_iff. by rewrite (Hpq c Hc), IH.
Qed.

(** A string without white space is its own trimmed form. *)
Lemma trim_no_space (s : string) :
  all_chars (fun c => negb (is_space c)) s = true -> trim s = s.
Proof.
  intros Hs. apply trim_id.
  - destruct s as [|c s]; simpl in *; [done|].
    apply andb_true_iff in Hs as [Hc _]. by apply negb_true_iff.
  - rewrite <- all_chars_reverse in Hs.
    destruct (reverse s) as [|c t]; simpl in *; [done|].
    apply andb_true_iff in Hs as [Hc _]. by apply negb_true_iff.
Qed.

Lemma startsWith_empty (s : string) : startsWith s EmptyString = true.
Proof. by destruct s. Qed.

Lemma includes_char_count (c : ascii) (s : string) :
  includes s (String c EmptyString) = false <-> count_char c s = 0%nat.
Proof.
  induction s as [|d s IH]; simpl; [done|].
  rewrite startsWith_empty, andb_true_r, orb_false_iff, IH, (Ascii.eqb_sym c d).
  destruct (Ascii.eqb d c); simpl; [|tauto].
  split; [by intros [? _] | done].
Qed.

Lemma includes_middle (c : ascii) (u v : string) :
  includes (u +:+ String c v) (String c EmptyString) = true.
Proof.
  induction u as [|d u IH].
  - rewrite append_nil_l. simpl. by rewrite Ascii.eqb_refl, startsWith_empty.
  - rewrite append_cons. simpl. rewrite IH. by rewrite orb_true_r.
Qed.

Lemma split_none (sep : ascii) (s : string) :
  count_char sep s = 0%nat -> split sep s = [s].
Proof.
  induction s as [|c s IH]; simpl; [done|].
  destruct (Ascii.eqb c sep); [done|]. simpl. intros H. by rewrite (IH H).
Qed.

Lemma split_join (sep : ascii) (l d : string) :
  count_char sep l = 0%nat -> count_char sep d = 0%nat ->
  split sep (l +:+ String sep d) = [l; d].
Proof.
  intros Hl Hd. induction l as [|c l IH].
  - rewrite append_nil_l. simpl. by rewrite Ascii.eqb_refl, (split_none sep d Hd).
  - rewrite append_cons. simpl in *.
    destruct (Ascii.eqb c sep); [done|]. by rewrite (IH Hl).
Qed.

Lemma digits_value_nonneg (s : string) :
  forall acc, 0 <= acc -> all_chars is_digit s = true -> 0 <= digits_value acc s.
Proof.
  induction s as [|c s IH]; intros acc Hacc; simpl; [done|].
  intros [Hc Hs]%andb_true_iff. apply IH; [|done].
  unfold is_digit, between in Hc. apply andb_true_iff in Hc as [Hlo _].
  apply N.leb_le in Hlo. lia.
Qed.

End StringFacts.

Section AddressWithPrefix.
Context (E : Env) (options : IpOptions.t).

Lemma ip_char_no_space (c : ascii) : ip_char c = true -> negb (is_space c) = true.
Proof. by destruct c as [[] [] [] [] [] [] [] []]. Qed.

Lemma digit_ip_char (c : ascii) : is_digit c = true -> ip_char c = true.
Proof. unfold ip_char. by intros ->. Qed.

Lemma digit_no_slash (c : ascii) : is_digit c = true -> Ascii.eqb c "/" = false.
Proof. by destruct c as [[] [] [] [] [] [] [] []]. Qed.

Lemma digits_no_slash (s : string) :
  all_chars is_digit s = true -> count_char "/" s = 0%nat.
Proof.
  induction s as [|c s IH]; simpl; [done|].
  intros [Hc Hs]%andb_true_iff. by rewrite (digit_no_slash c Hc), (IH Hs).
Qed.

Lemma matches_ip_chars (s : string) :
  matches re_ip_chars s = negb (String.eqb s EmptyString) && all_chars ip_char s.
Proof. unfold re_ip_chars. by rewrite matches_plus_class. Qed.

Lemma ip_chars_trimmed (s : string) : matches re_ip_chars s = true -> trim s = s.
Proof.
  rewrite matches_ip_chars. intros [_ Hs]%andb_true_iff.
  apply trim_no_space. by apply (all_chars_weaken ip_char), Hs; apply ip_char_no_space.
Qed.

(** An address and a prefix, put together with a slash, are read back as
    that address and that prefix. *)
Lemma validateIp_with_prefix (addr prefix : string) :
  IpOptions.allowCIDR options = Some true ->
  matches re_ip_chars addr = true -> includes addr "/" = false ->
  matches re_digits prefix = true ->
  validateIp E (VString (addr +:+ String "/" prefix)) options
  = ip_checks E options addr (Some (digits_value 0 prefix))
      (fresh_result (VString (addr +:+ String "/" prefix))).
Proof.
  intros Hallow Haddr Hslash Hprefix.
  pose proof Hprefix as Hdigits. unfold re_digits in Hdigits.
  rewrite matches_plus_class in Hdigits. apply andb_true_iff in Hdigits as [_ Hdigits].
  assert (matches re_ip_chars (addr +:+ String "/" prefix) = true) as Hall.
  { rewrite matches_ip_chars in *. apply andb_true_iff in Haddr as [Hne Hchars].
    apply andb_true_iff. split.
    - destruct addr; [done|]. by rewrite append_cons.
    - rewrite all_chars_append, Hchars. simpl.
      by apply (all_chars_weaken is_digit), Hdigits; apply digit_ip_char. }
  unfold validateIp.
  rewrite (ip_chars_trimmed _ Hall), Hall, includes_middle, Hallow. simpl.
  rewrite split_join; [by rewrite Hprefix | | by apply digits_no_slash].
  by apply includes_char_count.
Qed.

Lemma ipv4_checks_failed (ipAddress : string) (r : SchemaValidationResult) :
  success r = false -> success (ipv4_checks options ipAddress r) = false.
Proof. intros Hr. unfold ipv4_checks. stays_failed. Qed.

Lemma ipv6_checks_failed (ipAddress : string) (r : SchemaValidationResult) :
  success r = false -> success (ipv6_checks E options ipAddress r) = false.
Proof. intros Hr. unfold ipv6_checks. stays_failed. Qed.

(** A numeric prefix within the bounds of the address family adds nothing to
    the verdict of the bare address; a prefix above 32 on an IPv4 address
    makes the call fail. *)
Theorem validateIp_prefix (addr prefix : string) :
  IpOptions.allowCIDR options = Some true ->
  matches re_ip_chars addr = true -> includes addr "/" = false ->
  matches re_digits prefix = true ->
  ((validateIPv4 E addr (default true (IpOptions.strict options)) = true ->
    digits_value 0 prefix <= 32) ->
   (validateIPv6 E addr (default true (IpOptions.strict options)) = true ->
    digits_value 0 prefix <= 128) ->
   same_verdict (validateIp E (VString (addr +:+ String "/" prefix)) options)
                (validateIp E (VString addr) options))
  /\ (validateIPv4 E addr (default true (IpOptions.strict options)) = true ->
      32 < digits_value 0 prefix ->
      success (validateIp E (VString (addr +:+ String "/" prefix)) options) = false).
Proof.
  intros Hallow Haddr Hslash Hprefix.
  rewrite (validateIp_with_prefix addr prefix Hallow Haddr Hslash Hprefix).
  assert (0 <= digits_value 0 prefix) as Hpos.
  { unfold re_digits in Hprefix. rewrite matches_plus_class in Hprefix.
    apply andb_true_iff in Hprefix as [_ Hdigits].
    by apply digits_value_nonneg. }
  split.
  - intros H4 H6.
    rewrite (validateIp_plain E addr options (ip_chars_trimmed _ Haddr) Haddr Hslash).
    unfold ip_checks. cbv zeta.
    destruct (validateIPv4 E addr _) eqn:Hv4, (validateIPv6 E addr _) eqn:Hv6;
      destruct (default IpOptions.both (IpOptions.version options)); simpl;
      try (by same_verdicts).
    all: repeat match goal with
      | |- context [?a >? ?b] =>
          destruct (Z.gtb_spec a b); [specialize (H4 eq_refl) + specialize (H6 eq_refl); lia|]
      | |- context [?a <? 0] => destruct (Z.ltb_spec a 0); [lia|]
      end; simpl.
    all: repeat first [ apply ip_checks_verdict | same_verdicts ].
    all: unfold ipv4_checks, ipv6_checks; same_verdicts.
  - intros H4 Hbig. unfold ip_checks. cbv zeta. rewrite H4.
    destruct (Z.gtb_spec (digits_value 0 prefix) 32) as [_|]; [|lia].
    rewrite orb_true_r.
    destruct (default IpOptions.both (IpOptions.version options)); simpl.
    all: repeat case_match; try done.
    all: repeat first [ apply ipv6_checks_failed | apply ipv4_checks_failed ].
    all: stays_failed.
Qed.

End AddressWithPrefix.

Lemma validateIp_prefix_witness :
  same_verdict (validateIp Sample.env (VString "10.1.2.0/24") with_cidr)
               (validateIp Sample.env (VString "10.1.2.0") with_cidr)
  /\ success (validateIp Sample.env (VString "10.1.2.0/33") with_cidr) = false.
Proof.
  split.
  - apply (proj1 (validateIp_prefix Sample.env with_cidr "10.1.2.0" "24"
                    eq_refl eq_refl eq_refl eq_refl)); intros _; simpl; lia.
  - apply (proj2 (validateIp_prefix Sample.env with_cidr "10.1.2.0" "33"
                    eq_refl eq_refl eq_refl eq_refl)); [reflexivity | simpl; lia].
Defined.

(** Under the default options, an address that the helpers read as IPv4 and
    not as IPv6 is rejected only when its first octet is in 224..239, the
    multicast range: private, loopback, documentation, bogon and reserved
    addresses all pass. *)
Theorem validateIp_default_ipv4 (E : Env) (text : string) :
  matches re_ip_chars text = true -> includes text "/" = false ->
  validateIPv4 E text true = true -> validateIPv6 E text true = false ->
  validateIp E (VString text) IpOptions.empty
  = when (within (octet (map Number (split "." text)) 0) 224 239)
      (fail (sec "Multicast addresses not allowed")) (fresh_result (VString text)).
Proof.
  intros Hchars Hslash H4 H6.
  rewrite (validateIp_plain E text _ (ip_chars_trimmed _ Hchars) Hchars Hslash).
  unfold ip_checks, ipv4_checks. cbv zeta. simpl default. by rewrite H4, H6.
Qed.

Lemma validateIp_default_ipv4_witness :
  validateIp Sample.env (VString "127.0.0.1") IpOptions.empty
  = fresh_result (VString "127.0.0.1")
  /\ success (validateIp Sample.env (VString "224.0.0.1") IpOptions.empty) = false
  /\ success (validateIp lenient (VString "0b11100000.0.0.1") IpOptions.empty) = false
  /\ success (validateIp lenient (VString "23e1.0.0.1") IpOptions.empty) = false
  /\ success (validateIp lenient (VString "1e1.0.0.1") IpOptions.empty) = true.
Proof.
  split; [|split; [|split; [|split]]].
  - by rewrite (validateIp_default_ipv4 Sample.env "127.0.0.1").
  - by rewrite (validateIp_default_ipv4 Sample.env "224.0.0.1").
  - by rewrite (validateIp_default_ipv4 lenient "0b11100000.0.0.1").
  - by rewrite (validateIp_default_ipv4 lenient "23e1.0.0.1").
  - by rewrite (validateIp_default_ipv4 lenient "1e1.0.0.1").
Defined.

(** ** validateTextSync seen through the answers of its patterns *)

Lemma success_text_stages (E : Env) (v1 v2 : value) (options : TextOptions.t)
    (text : string) (r1 r2 : SchemaValidationResult) :
  success r1 = success r2 ->
  success (text_stages E v1 options text r1) = success (text_stages E v2 options text r2).
Proof.
  intros Hr. unfold text_stages. cbv zeta.
  assert (forall b e1 e2 x y, success x = success y ->
            success (when b (fail e1) x) = success (when b (fail e2) y)) as Hfail
    by (by intros [] ?????).
  assert (forall b w x y, success x = success y ->
            success (when b (warn w) x) = success (when b (warn w) y)) as Hwarn
    by (by intros [] ????).
  repeat case_match; try done;
    repeat first [ assumption | apply Hfail | apply Hwarn ].
Qed.

(** Past the size guard the stages run on the processed text, from a result
    that is still successful and carries that text. *)
Lemma validateTextSync_stages (E : Env) (text : string) (options : TextOptions.t) :
  (len text >? default (MAX_TEXT_LENGTH (SECURITY_CONSTANTS E))
                 (TextOptions.maxLength options)) = false ->
  exists r0,
    validateTextSync E (VString text) options
    = text_stages E (VString text) options (processed E options text) r0
    /\ success r0 = true /\ errors r0 = []
    /\ data r0 = VString (processed E options text).
Proof.
  intros Hlen. unfold validateTextSync, processed. cbv zeta. rewrite Hlen.
  destruct (default false (TextOptions.trimWhitespace options)); simpl andb.
  - destruct (String.eqb_spec (trim text) text) as [Heq|Hne]; simpl negb; cbv iota.
    + rewrite Heq.
      destruct (default false (TextOptions.normalizeUnicode options)).
      * destruct (normalizeNFC E text) as [n|]; [|by eexists].
        destruct (String.eqb_spec n text) as [->|]; by eexists.
      * by eexists.
    + destruct (default false (TextOptions.normalizeUnicode options)).
      * destruct (normalizeNFC E (trim text)) as [n|]; [|by eexists].
        destruct (String.eqb_spec n (trim text)) as [->|]; by eexists.
      * by eexists.
  - destruct (default false (TextOptions.normalizeUnicode options)).
    + destruct (normalizeNFC E text) as [n|]; [|by eexists].
      destruct (String.eqb_spec n text) as [->|]; by eexists.
    + by eexists.
Qed.

Lemma validateTextSync_coherent (E : Env) (v : value) (options : TextOptions.t) :
  coherent (validateTextSync E v options).
Proof.
  unfold validateTextSync.
  repeat case_match; simplify_eq; try apply text_stages_coherent; coherence.
Qed.

Lemma validateTextSync_fits (E : Env) (text : string) (options : TextOptions.t) :
  success (validateTextSync E (VString text) options) = true ->
  data (validateTextSync E (VString text) options) = VString (processed E options text)
  /\ len text <= default (MAX_TEXT_LENGTH (SECURITY_CONSTANTS E))
                   (TextOptions.maxLength options).
Proof.
  intros Hok.
  destruct (len text >? default (MAX_TEXT_LENGTH (SECURITY_CONSTANTS E))
                          (TextOptions.maxLength options)) eqn:Hguard.
  { exfalso. revert Hok. unfold validateTextSync. cbv zeta. by rewrite Hguard. }
  split; [|by rewrite Z.gtb_ltb, Z.ltb_ge in Hguard].
  destruct (validateTextSync_stages E text options Hguard) as (r0 & -> & _ & _ & <-).
  apply text_stages_data.
Qed.

(** What a successful call has checked, for the validator that sees the
    patterns through their answers. *)
Lemma validateTextSync_checked (E : Env) (text : string) (options : TextOptions.t) :
  success (validateTextSync E (VString text) options) = true ->
  data (validateTextSync E (VString text) options)
  = VString (processed E options text)
  /\ errors (validateTextSync E (VString text) options) = []
  /\ len text <= default (MAX_TEXT_LENGTH (SECURITY_CONSTANTS E))
                   (TextOptions.maxLength options)
  /\ default 0 (TextOptions.minLength options) <= len (processed E options text)
  /\ (default true (TextOptions.allowEmpty options) = false ->
      processed E options text <> EmptyString)
  /\ (forall maxLines, TextOptions.maxLines options = Some maxLines ->
      Z.of_nat (length (split LF (processed E options text))) <= maxLines)
  /\ (TextOptions.encoding options = Some TextOptions.ascii ->
      all_chars (between 0 127) (processed E options text) = true)
  /\ (default false (TextOptions.requireAlphanumeric options) = true ->
      all_chars (fun c => alnum c || is_space c) (processed E options text) = true)
  /\ (forall allowed, TextOptions.allowedCharacters options = Some allowed ->
      allowed (processed E options text) = true)
  /\ any_test (default [] (TextOptions.forbiddenPatterns options))
       (processed E options text) = false
  /\ (default true (TextOptions.preventXSS options) = true ->
      default false (TextOptions.allowHTML options) = false ->
      any_test (XSS_PATTERNS (SECURITY_CONSTANTS E)) (processed E options text) = false
      /\ includes (processed E options text) "javascript:" = false
      /\ includes (processed E options text) "data:text/html" = false)
  /\ (default false (TextOptions.preventLDAPInjection options) = true ->
      any_test (LDAP_PATTERNS (SECURITY_CONSTANTS E)) (processed E options text) = false)
  /\ (default false (TextOptions.preventCommandInjection options) = true ->
      any_test (COMMAND_INJECTION_PATTERNS (SECURITY_CONSTANTS E))
        (processed E options text) = false)
  /\ includes (processed E options text) NUL = false.
Proof.
  intros Hok.
  destruct (len text >? default (MAX_TEXT_LENGTH (SECURITY_CONSTANTS E))
                          (TextOptions.maxLength options)) eqn:Hguard.
  { exfalso. revert Hok. unfold validateTextSync. cbv zeta. by rewrite Hguard. }
  pose proof Hguard as Hfit. rewrite Z.gtb_ltb, Z.ltb_ge in Hfit.
  split.
  { destruct (validateTextSync_stages E text options Hguard) as (r0 & -> & _ & _ & <-).
    apply text_stages_data. }
  split; [by apply validateTextSync_coherent|].
  revert Hok.
  destruct (validateTextSync_stages E text options Hguard) as (r0 & -> & Hr0 & _ & _).
  set (d := processed E options text).
  unfold text_stages. cbv zeta. intros Hok.
  destruct (negb (default true (TextOptions.allowEmpty options)) && (len d =? 0))
    eqn:Hempty; [done|].
  repeat match type of Hok with
    | success (when _ (fail _) _) = true =>
        let Hb := fresh "Hb" in apply success_when_fail_inv in Hok as [Hb Hok]
    | success (when _ (warn _) _) = true => apply success_when_warn_inv in Hok
    | success (if ?c then _ else _) = true => destruct c eqn:?
    | success (match ?m with _ => _ end) = true => destruct m eqn:?
    end.
  all: repeat match goal with
    | H : negb _ = false |- _ => apply negb_false_iff in H
    | H : negb _ = true |- _ => apply negb_true_iff in H
    | H : _ || _ = false |- _ => apply orb_false_iff in H as [??]
    | H : _ && _ = true |- _ => apply andb_true_iff in H as [??]
    | H : (_ >? _) = false |- _ => rewrite Z.gtb_ltb, Z.ltb_ge in H
    | H : (_ <? _) = false |- _ => rewrite Z.ltb_ge in H
    end.
  all: repeat split; try done; try lia.
  all: try (intros Hallow ->; revert Hempty; rewrite Hallow; by simpl).
  all: try (intros; simplify_eq; done).
  all: try (intros; simplify_eq; rewrite <- ?matches_star_class;
            repeat match goal with
              | H : _ && _ = false |- _ => apply andb_false_iff in H as [H|H]
              | H : negb _ = false |- _ => apply negb_false_iff in H
              end; by (congruence || done)).
  all: try (intros Henc;
            match goal with
            | H : match default TextOptions.utf8 _ with _ => _ end = false |- _ =>
                rewrite Henc in H; simpl in H; apply negb_false_iff in H;
                unfold re_ascii in H; by rewrite matches_star_class in H
            end).
  all: intros allowed Hallowed;
    match goal with
    | H : match TextOptions.allowedCharacters _ with _ => _ end = false |- _ =>
        rewrite Hallowed in H; by apply negb_false_iff in H
    end.
Qed.

Section Lengths.

Lemma length_append (u v : string) :
  String.length (u +:+ v) = (String.length u + String.length v)%nat.
Proof. induction u as [|c u IH]; [done|]. rewrite append_cons. simpl. by rewrite IH. Qed.

Lemma length_reverse (s : string) : String.length (reverse s) = String.length s.
Proof.
  induction s as [|c s IH]; [done|].
  rewrite reverse_cons, length_append, IH. simpl. lia.
Qed.

Lemma length_trimStart (s : string) :
  (String.length (trimStart s) <= String.length s)%nat.
Proof. induction s as [|c s IH]; simpl; [done|]. destruct (is_space c); simpl; lia. Qed.

(** Trimming never makes a string longer. *)
Lemma len_trim (s : string) : len (trim s) <= len s.
Proof.
  unfold len, trim. apply inj_le. rewrite length_reverse.
  etrans; [apply length_trimStart|]. rewrite length_reverse. apply length_trimStart.
Qed.

End Lengths.

(** Validating again, for the validator that sees the patterns through their
    answers. *)
Lemma validateTextSync_stable (E : Env) (text : string) (options : TextOptions.t) :
  default false (TextOptions.normalizeUnicode options) = false ->
  success (validateTextSync E (VString text) options) = true ->
  success (validateTextSync E (data (validateTextSync E (VString text) options))
             options) = true
  /\ errors (validateTextSync E (data (validateTextSync E (VString text) options))
               options) = []
  /\ data (validateTextSync E (data (validateTextSync E (VString text) options))
             options)
     = data (validateTextSync E (VString text) options).
Proof.
  intros Hnorm Hok.
  destruct (validateTextSync_fits E text options Hok) as (Hdata & Hfit).
  rewrite Hdata. set (d := processed E options text).
  assert (processed E options d = d) as Hfixed.
  { unfold d, processed. cbv zeta. rewrite Hnorm.
    destruct (default false (TextOptions.trimWhitespace options)); [|done].
    apply trim_idempotent. }
  assert (len d <= len text) as Hshorter.
  { unfold d, processed. cbv zeta. rewrite Hnorm.
    destruct (default false (TextOptions.trimWhitespace options)); [apply len_trim | lia]. }
  assert ((len text >? default (MAX_TEXT_LENGTH (SECURITY_CONSTANTS E))
                         (TextOptions.maxLength options)) = false) as Hguard
    by (rewrite Z.gtb_ltb, Z.ltb_ge; lia).
  assert ((len d >? default (MAX_TEXT_LENGTH (SECURITY_CONSTANTS E))
                      (TextOptions.maxLength options)) = false) as Hguard'
    by (rewrite Z.gtb_ltb, Z.ltb_ge; lia).
  destruct (validateTextSync_stages E text options Hguard) as (r0 & Hfirst & Hr0 & _ & _).
  destruct (validateTextSync_stages E d options Hguard')
    as (r1 & Hsecond & Hr1 & _ & Hd1).
  rewrite Hfixed in Hsecond, Hd1. fold d in Hfirst.
  assert (success (validateTextSync E (VString d) options) = true) as Hagain.
  { rewrite Hsecond, <- Hok, Hfirst. apply success_text_stages. congruence. }
  split; [done|]. split.
  - by apply validateTextSync_coherent.
  - by rewrite Hsecond, text_stages_data.
Qed.

(** ** validateTextSync: the SQL check is advisory *)












(** ** The scanner finds exactly the denylisted names that can be reached *)
Section ScannerExact.
Context (E : Env) (h : heap).

Lemma polluted_child (l : loc) (o : object) (v : value) :
  h !! l = Some o -> In v (values o) -> polluted E h v -> polluted E h (VRef l).
Proof.
  intros Hl Hv (l' & o' & Hreach & Hl' & Hkeys).
  exists l', o'. split; [by eapply reaches_child | done].
Qed.

Lemma scan_values_found (scan : value -> gset loc -> option (bool * gset loc))
    (vs : list value) :
  forall seen seen',
    scan_values scan vs seen = Some (true, seen') ->
    exists v s s', In v vs /\ scan v s = Some (true, s').
Proof.
  induction vs as [|v vs IH]; intros seen seen'; simpl; [done|].
  destruct (scan v seen) as [[[|] s']|] eqn:Hscan; [| |done].
  - intros _. exists v, seen, s'. by split; [left|].
  - intros (v' & s & s'' & Hin & Hfound)%IH. exists v', s, s''. by split; [right|].
Qed.

(** An answer [true] comes from a denylisted name that can be reached. *)
Lemma scan_sound (fuel : nat) :
  forall v visited visited',
    hasDangerousProperties E fuel h v visited = Some (true, visited') -> polluted E h v.
Proof.
  induction fuel as [|fuel IH]; intros v visited visited'; [done|].
  destruct v as [| | | | | | |l]; simpl; try done.
  destruct (h !! l) as [o|] eqn:Hl; [|done].
  destruct (decide (l ∈ visited)); [done|].
  destruct (existsb (dangerous E) (keys o)) eqn:Hkeys.
  - intros _. exists l, o. split; [by eapply reaches_here | done].
  - intros (v & s & s' & Hin & Hfound)%scan_values_found.
    eapply polluted_child; [done | done | by eapply IH].
Qed.

Lemma node_clean_mono (s1 s2 : gset loc) (l : loc) :
  s1 ⊆ s2 -> node_clean E h s1 l -> node_clean E h s2 l.
Proof.
  intros Hsub (o & Hl & Hkeys & Hchildren). exists o. repeat split; [done..|].
  intros v l' Hin Hv Hsome. by apply Hsub, (Hchildren v).
Qed.

Lemma scan_values_swept (scan : value -> gset loc -> option (bool * gset loc))
    (vs : list value) :
  (forall v s s', scan v s = Some (false, s') -> swept E h v s s') ->
  forall seen seen',
    scan_values scan vs seen = Some (false, seen') ->
    seen ⊆ seen'
    /\ (forall v l, In v vs -> v = VRef l -> is_Some (h !! l) -> l ∈ seen')
    /\ (forall x, x ∈ seen' -> x ∉ seen -> node_clean E h seen' x).
Proof.
  intros Hscan. induction vs as [|v vs IH]; intros seen seen'; simpl.
  - intros [= <-]. repeat split; [done | by intros ?? [] | done].
  - destruct (scan v seen) as [[[|] s]|] eqn:Hv; [done| |done].
    intros Hrest. destruct (Hscan v seen s Hv) as (Hsub1 & Hroot1 & Hclean1).
    destruct (IH s seen' Hrest) as (Hsub2 & Hroot2 & Hclean2).
    repeat split.
    + by etrans.
    + intros v' l [<-|Hin] Hv' Hsome; [|by eapply Hroot2].
      by apply Hsub2, Hroot1.
    + intros x Hx Hnew. destruct (decide (x ∈ s)) as [Hs|Hs].
      * by apply (node_clean_mono s), Hclean1.
      * by apply Hclean2.
Qed.

Lemma scan_swept (fuel : nat) :
  forall v visited visited',
    hasDangerousProperties E fuel h v visited = Some (false, visited') ->
    swept E h v visited visited'.
Proof.
  induction fuel as [|fuel IH]; intros v visited visited'; [done|].
  assert (forall w, (forall l, w <> VRef l) -> swept E h w visited visited) as Hleaf.
  { intros w Hw. repeat split; [done | intros l Heq; by destruct (Hw l) | done]. }
  destruct v as [| | | | | | |l]; simpl; try (intros [= <-]; by apply Hleaf).
  destruct (h !! l) as [o|] eqn:Hl.
  - destruct (decide (l ∈ visited)) as [Hold|Hnew].
    + intros [= <-]. repeat split; [done | by intros ? [= <-] | done].
    + destruct (existsb (dangerous E) (keys o)) eqn:Hkeys; [done|].
      intros Hloop.
      destruct (scan_values_swept _ (values o) (IH) _ _ Hloop)
        as (Hsub & Hchildren & Hclean).
      repeat split.
      * set_solver.
      * intros ? [= <-] _. set_solver.
      * intros x Hx Hfresh. destruct (decide (x = l)) as [->|Hne].
        -- exists o. repeat split; [done..|]. intros v l' Hin -> Hsome.
           by eapply Hchildren.
        -- apply Hclean; [done|].
           by intros [?%elem_of_singleton|?]%elem_of_union.
  - intros [= <-]. repeat split; [done | | done].
    intros ? [= <-] [? Hsome]. congruence.
Qed.

(** A set that holds the value, and in which every object is clean, holds
    everything the value reaches. *)
Lemma reaches_in_swept (seen : gset loc) (v : value) (l : loc) :
  (forall x, x ∈ seen -> node_clean E h seen x) ->
  reaches h v l ->
  (forall l0, v = VRef l0 -> is_Some (h !! l0) -> l0 ∈ seen) ->
  l ∈ seen.
Proof.
  intros Hclean Hreach. induction Hreach as [l o Hl | l o v l' Hl Hin Hreach IH];
    intros Hroot.
  - by apply Hroot.
  - apply IH. intros l0 -> Hsome.
    destruct (Hclean l) as (o' & Hl' & _ & Hchildren); [by apply Hroot|].
    simplify_eq. by eapply Hchildren.
Qed.

Lemma scan_complete (v : value) :
  polluted E h v -> hasDangerousProperties_fresh E h v = true.
Proof.
  intros (l & o & Hreach & Hl & Hkeys).
  destruct (scan_fresh_answers E h v) as [visited' Hscan].
  destruct (hasDangerousProperties_fresh E h v); [done|]. exfalso.
  destruct (scan_swept _ _ _ _ Hscan) as (_ & Hroot & Hclean).
  assert (l ∈ visited') as Hin.
  { apply (reaches_in_swept visited' v l); [|done|done].
    intros x Hx. apply Hclean; [done | set_solver]. }
  destruct (Hclean l Hin) as (o' & Hl' & Hkeys' & _); [set_solver|].
  simplify_eq. congruence.
Qed.

Lemma scan_fresh_sound (v : value) :
  hasDangerousProperties_fresh E h v = true -> polluted E h v.
Proof.
  intros Htrue. destruct (scan_fresh_answers E h v) as [visited' Hscan].
  rewrite Htrue in Hscan. by eapply scan_sound.
Qed.

(** The scan started by the validators answers [true] exactly when an object
    that can be reached from the value, through property values of objects
    and arrays, shared or cyclic, has a denylisted name among its own keys. *)
Theorem scan_exact (v : value) :
  hasDangerousProperties_fresh E h v = true <-> polluted E h v.
Proof. split; [apply scan_fresh_sound | apply scan_complete]. Qed.

End ScannerExact.

(** ** What a successful loop says about its turns *)

Lemma success_fold_left_inv {A} (f : SchemaValidationResult -> A -> SchemaValidationResult)
    (P : A -> Prop) (l : list A) :
  (forall r a, success (f r a) = true -> success r = true /\ P a) ->
  forall r, success (fold_left f l r) = true -> success r = true /\ Forall P l.
Proof.
  intros Hf. induction l as [|a l IH]; intros r; simpl; [by auto|].
  intros (Hfa & Hl)%IH. destruct (Hf r a Hfa). split; [done|]. by constructor.
Qed.

(** ** validateJsonSync: what success means *)
Section JsonSuccess.
Context (E : Env) (options : JsonOptions.t).

Lemma json_checks_success (h : heap) (parsedData input : value) :
  success (json_checks E h parsedData options (fresh_result input)) = true ->
  data (json_checks E h parsedData options (fresh_result input)) = parsedData
  /\ json_accepted E options h parsedData.
Proof.
  unfold json_checks, json_accepted. cbv zeta. fold (deep_config E options).
  set (mode := default JsonOptions.secure (JsonOptions.securityMode options)).
  set (guarded := match mode with JsonOptions.fast => false | _ => true end).
  destruct (guarded && hasDangerousProperties_fresh E h parsedData) eqn:Hscan; [done|].
  assert (mode <> JsonOptions.fast -> ~ polluted E h parsedData) as Hclean.
  { intros Hmode Hpolluted. apply scan_complete in Hpolluted.
    rewrite Hpolluted, andb_true_r in Hscan. unfold guarded in Hscan.
    by destruct mode. }
  destruct (match mode, ajv_secure_json E with
            | JsonOptions.strict, Some validate =>
                let '(valid, validate_errors) := validate h parsedData in
                if valid then None else Some validate_errors
            | _, _ => None
            end) as [validate_errors|] eqn:Hajv.
  { by destruct validate_errors. }
  assert (mode = JsonOptions.strict -> forall validate,
          ajv_secure_json E = Some validate -> fst (validate h parsedData) = true)
    as Hstrict.
  { intros Hmode validate Hsome. rewrite Hmode, Hsome in Hajv.
    by destruct (validate h parsedData) as [[] ?]. }
  destruct (default true (JsonOptions.preventCircular options)
            && match JSON_stringify h parsedData with
               | Throw _ => true | Return _ => false end) eqn:Hcircular; [done|].
  assert (default true (JsonOptions.preventCircular options) = true ->
          exists text, JSON_stringify h parsedData = Return text) as Hflat.
  { intros Hon. rewrite Hon in Hcircular.
    destruct (JSON_stringify h parsedData) as [text|]; [by exists text | done]. }
  destruct (truthy (default VUndefined (JsonOptions.schema options))) eqn:Hschema;
    cbn [andb].
  - destruct (success (set_data parsedData (merge _ (fresh_result input))))
      eqn:Hdeep.
    + intros [_ Hs]%success_merge_inv. split; [done|].
      apply success_merge_inv in Hdeep as [_ Hdeep]. by repeat split.
    + intros Hok. by rewrite Hok in Hdeep.
  - intros Hok. split; [done|].
    apply success_merge_inv in Hok as [_ Hdeep]. by repeat split.
Qed.

(** What a successful [validateJsonSync] has established: the input is a
    string within [maxSize] that parses, or an object; the data returned is
    the parsed value; outside the fast mode it holds no denylisted property
    name at any depth; in the strict mode the registered AJV validator accepts
    it; with [preventCircular] it can be serialised; and the helpers accept
    it. *)
Theorem validateJsonSync_success (h : heap) (v : value) :
  success (fst (validateJsonSync E h v options)) = true ->
  let '(result, h') := validateJsonSync E h v options in
  json_accepted E options h' (data result)
  /\ match v with
     | VString text =>
         len text <= default (MAX_JSON_SIZE (SECURITY_CONSTANTS E))
                       (JsonOptions.maxSize options)
         /\ JSON_parse E h text = Return (data result, h')
     | VRef _ => data result = v /\ h' = h
     | _ => False
     end.
Proof.
  unfold validateJsonSync. cbv zeta. destruct v as [| | | | |text| |l]; try done.
  - destruct (Z.gtb_spec (len text)
                (default (MAX_JSON_SIZE (SECURITY_CONSTANTS E))
                   (JsonOptions.maxSize options))); [done|].
    destruct (JSON_parse E h text) as [[parsedData h']|]; [|done].
    cbn [fst]. intros [Hdata Hok]%json_checks_success. by rewrite Hdata.
  - cbn [fst]. intros [Hdata Hok]%json_checks_success. by rewrite Hdata.
Qed.

End JsonSuccess.

Lemma validateJsonSync_success_witness :
  json_accepted Sample.env JsonOptions.empty record_store (VRef 1%positive)
  /\ VRef 1%positive = VRef 1%positive /\ record_store = record_store.
Proof.
  exact (validateJsonSync_success Sample.env JsonOptions.empty record_store
           (VRef 1%positive) eq_refl).
Defined.

(** ** validateJson: the cache and the metrics *)
Section JsonCache.
Context (E : Env).

Lemma stringify_options_flat (h h' : heap) (options : JsonOptions.t) :
  JsonOptions.schema options = None ->
  stringify_options h options = stringify_options h' options
  /\ exists text, stringify_options h options = Return text.
Proof. unfold stringify_options. intros ->. split; [done | by eexists]. Qed.

Lemma cache_get_set (key : string) (r : SchemaValidationResult) (w : World) :
  ValidationCache_get key (ValidationCache_set key r w) = Some r.
Proof. unfold ValidationCache_get. simpl. by rewrite String.eqb_refl. Qed.

(** What a call of [validateJson] does to the cache and to the metrics: it
    adds at most one entry to the cache, and only the successful result it
    returns; it records at most one measurement, the failure flag of the
    result it returns; without [useCache] the cache is as before, and without
    [enableMetrics] the metrics are. *)
Theorem validateJson_cache_discipline (h : heap) (v : value) (options : JsonOptions.t)
    (w : World) :
  let '(outcome, _, w') := validateJson E h v options w in
  (default false (JsonOptions.useCache options) = false -> cache w' = cache w)
  /\ (default false (JsonOptions.enableMetrics options) = false ->
      metrics w' = metrics w)
  /\ (cache w' = cache w
      \/ exists key r, outcome = Return r /\ success r = true
                       /\ cache w' = (key, r) :: cache w)
  /\ (metrics w' = metrics w
      \/ exists r, outcome = Return r
                   /\ metrics w' = (metrics w ++ [("validateJson", negb (success r))])%list).
Proof.
  unfold validateJson, withTimeout. cbv zeta.
  destruct (default false (JsonOptions.useCache options)) eqn:Hcache.
  - destruct (JSON_stringify h v) as [[text|]|]; [|by auto..].
    destruct (stringify_options h options) as [opts|]; [|by auto].
    cbn [mbind option_bind].
    destruct (ValidationCache_get _ w) as [cached|]; [by auto|].
    destruct (validateJsonSync E h v options) as [r h'].
    destruct (default false (JsonOptions.enableMetrics options)),
      (success r) eqn:Hr; cbn; repeat split; try done; eauto 7.
    all: right; exists r; by rewrite Hr.
  - cbn [mbind option_bind].
    destruct (validateJsonSync E h v options) as [r h'].
    destruct (default false (JsonOptions.enableMetrics options)); cbn;
      repeat split; try done; eauto.
Qed.

(** The cache key holds the first hundred characters of the value's JSON text
    only. Once a call with [useCache] has returned a successful result, a call
    with the same options on any value whose JSON text begins with the same
    hundred characters returns that result, data included, and validates
    nothing: the store and the world are as they were. *)
Theorem validateJson_cache_collision (h h1 : heap) (v1 v2 : value) (text1 text2 : string)
    (options : JsonOptions.t) (w w1 : World) (r : SchemaValidationResult) :
  default false (JsonOptions.useCache options) = true ->
  JsonOptions.schema options = None ->
  JSON_stringify h v1 = Return (Some text1) ->
  JSON_stringify h1 v2 = Return (Some text2) ->
  substring0 100 text1 = substring0 100 text2 ->
  validateJson E h v1 options w = (Return r, h1, w1) ->
  success r = true ->
  validateJson E h1 v2 options w1 = (Return r, h1, w1).
Proof.
  intros Hcache Hschema Htext1 Htext2 Hhead.
  destruct (stringify_options_flat h h1 options Hschema) as [Hsame [opts Hopts]].
  unfold validateJson, withTimeout. cbv zeta.
  rewrite Hcache, Htext1, Htext2, <- Hsame, Hopts, <- Hhead.
  cbn [mbind option_bind].
  destruct (ValidationCache_get _ w) as [cached|] eqn:Hget.
  - intros [= -> -> ->] _. by rewrite Hget.
  - destruct (validateJsonSync E h v1 options) as [r' h'].
    intros [= -> -> <-] ->.
    destruct (default false (JsonOptions.enableMetrics options));
      by rewrite cache_get_set.
Qed.

End JsonCache.

Lemma validateJson_cache_collision_witness :
  success (fst (validateJsonSync Sample.env notes_store (VRef 2%positive)
                  Sample.with_cache)) = false
  /\ exists r w1,
       success r = true /\ data r = VRef 1%positive
       /\ validateJson Sample.env notes_store (VRef 2%positive) Sample.with_cache w1
          = (Return r, notes_store, w1).
Proof.
  split; [reflexivity|].
  destruct (validateJson Sample.env notes_store (VRef 1%positive) Sample.with_cache
              Sample.world) as [[outcome h1] w1] eqn:Hfirst.
  vm_compute in Hfirst.
  injection Hfirst as <- <- <-.
  eexists _, _. split; [|split]; [| |
    eapply (validateJson_cache_collision Sample.env notes_store notes_store
              (VRef 1%positive) (VRef 2%positive) _ _ Sample.with_cache Sample.world);
    [reflexivity | reflexivity | vm_compute; reflexivity | vm_compute; reflexivity
    | vm_compute; reflexivity | vm_compute; reflexivity | reflexivity ]].
  all: reflexivity.
Defined.

(** ** The colour theme manager *)
Section ThemeFacts.
Import Theme.

Lemma includes_unfold (s p : string) :
  includes s p
  = startsWith s p || match s with EmptyString => false | String _ s' => includes s' p end.
Proof. by destruct s. Qed.

Lemma startsWith_includes_suffix (a b : string) :
  forall s, startsWith s (a +:+ b) = true -> includes s b = true.
Proof.
  induction a as [|c a IH]; intros s.
  - rewrite append_nil_l, includes_unfold. by intros ->.
  - rewrite append_cons. destruct s as [|d s]; [done|]. simpl.
    intros [_ Hrest]%andb_true_iff. by rewrite (IH s Hrest), orb_true_r.
Qed.

Lemma includes_suffix (a b s : string) :
  includes s (a +:+ b) = true -> includes s b = true.
Proof.
  induction s as [|c s IH]; rewrite (includes_unfold _ (a +:+ b)).
  - rewrite orb_false_r. apply startsWith_includes_suffix.
  - intros [Hhere|Hlater]%orb_true_iff.
    + by apply (startsWith_includes_suffix a).
    + rewrite includes_unfold, (IH Hlater). apply orb_true_r.
Qed.

Lemma startsWith_toLowerCase (p : string) :
  forall s, startsWith s p = true -> startsWith (toLowerCase s) (toLowerCase p) = true.
Proof.
  induction p as [|a p IH]; intros s; [intros _; apply startsWith_empty|].
  destruct s as [|b s]; [done|]. simpl.
  intros [->%Ascii.eqb_eq Hrest]%andb_true_iff.
  by rewrite Ascii.eqb_refl, (IH s Hrest).
Qed.

Lemma includes_toLowerCase (s p : string) :
  includes s p = true -> includes (toLowerCase s) (toLowerCase p) = true.
Proof.
  induction s as [|c s IH]; rewrite includes_unfold.
  - rewrite orb_false_r. intros H%startsWith_toLowerCase.
    by rewrite includes_unfold, H.
  - intros [Hhere%startsWith_toLowerCase|Hlater%IH]%orb_true_iff;
      rewrite includes_unfold.
    + by rewrite Hhere.
    + simpl. rewrite Hlater. apply orb_true_r.
Qed.

Lemma no_fortify_inside (key prefix whole : string) :
  whole = (prefix +:+ "fortify") ->
  includes (toLowerCase key) "fortify" = false ->
  includes key whole = false.
Proof.
  intros -> Hnone. destruct (includes key (prefix +:+ "fortify")) eqn:Hsome; [|done].
  apply includes_suffix, includes_toLowerCase in Hsome.
  change (toLowerCase "fortify") with "fortify" in Hsome. congruence.
Qed.

Lemma stays_lower_case_eq (key : string) :
  stays key = negb (includes (toLowerCase key) "fortify").
Proof.
  unfold stays. destruct (includes (toLowerCase key) "fortify") eqn:Hnone; [done|].
  rewrite (no_fortify_inside key "type." "type.fortify" eq_refl Hnone),
    (no_fortify_inside key "keyword." "keyword.fortify" eq_refl Hnone),
    (no_fortify_inside key "operator." "operator.fortify" eq_refl Hnone),
    (no_fortify_inside key "function." "function.fortify" eq_refl Hnone),
    (no_fortify_inside key "variable." "variable.fortify" eq_refl Hnone),
    (no_fortify_inside key "enumMember." "enumMember.fortify" eq_refl Hnone),
    (no_fortify_inside key "punctuation." "punctuation.fortify" eq_refl Hnone),
    (no_fortify_inside key "number." "number.fortify" eq_refl Hnone),
    (no_fortify_inside key "string." "string.fortify" eq_refl Hnone).
  done.
Qed.

Lemma filteredRules_lookup (rules : Rules) (key : string) :
  filteredRules rules !! key = if stays key then rules !! key else None.
Proof.
  unfold filteredRules. destruct (stays key) eqn:Hstays.
  - destruct (rules !! key) as [rule|] eqn:Hrule.
    + by apply map_lookup_filter_Some.
    + apply map_lookup_filter_None. by left.
  - apply map_lookup_filter_None. right. intros rule _. simpl. congruence.
Qed.

Lemma filteredRules_again (rules : Rules) :
  filteredRules (filteredRules rules) = filteredRules rules.
Proof.
  apply map_eq. intros key. rewrite !filteredRules_lookup. by destruct (stays key).
Qed.

(** The filter of [removeColorScheme] keeps exactly the keys that do not hold
    "fortify" in any letter case: the nine tests after the first one never
    decide, and a second pass of the filter removes nothing more. *)
Theorem stays_lower_case (rules : Rules) :
  (forall key, stays key = negb (includes (toLowerCase key) "fortify"))
  /\ (forall key,
        filteredRules rules !! key
        = if includes (toLowerCase key) "fortify" then None else rules !! key)
  /\ filteredRules (filteredRules rules) = filteredRules rules.
Proof.
  split; [apply stays_lower_case_eq|]. split.
  - intros key. rewrite filteredRules_lookup, stays_lower_case_eq.
    by destruct (includes (toLowerCase key) "fortify").
  - apply filteredRules_again.
Qed.

Lemma semantic_generic (scheme : FortifyColorScheme) :
  Forall (fun rule => semanticTokenColors scheme !! fst rule = Some (snd rule)
                      /\ stays (fst rule) = true)
    (generic_rules scheme).
Proof. repeat constructor. Qed.

Lemma semantic_others (scheme : FortifyColorScheme) (key : string) :
  stays key = true -> key ∉ (generic_rules scheme).*1 ->
  semanticTokenColors scheme !! key = None.
Proof.
  intros Hstays Hother. apply not_elem_of_list_to_map_1. cbn [fmap list_fmap fst].
  intros Hin. apply Hother. cbn [generic_rules fmap list_fmap fst].
  repeat (apply elem_of_cons in Hin as [->|Hin];
          [first [by vm_compute in Hstays | set_solver]|]).
  by apply elem_of_nil in Hin.
Qed.

Lemma removal_some (current : Customization) (rules0 : Rules) (key : string)
    (rule : value) :
  rules current = Some rules0 ->
  filteredRules rules0 !! key = Some rule ->
  removal current
  = Some (Some {| rules := Some (filteredRules rules0); others := others current |}).
Proof.
  intros Hrules Hkey. unfold removal. rewrite Hrules.
  destruct (Nat.eqb_spec (size (filteredRules rules0)) 0) as [Hempty|]; [|done].
  apply map_size_empty_iff in Hempty. by rewrite Hempty in Hkey.
Qed.

Lemma left_over_generic (scheme : FortifyColorScheme) (current : Customization) :
  Forall (fun rule => left_over scheme current !! fst rule = Some (snd rule))
    (generic_rules scheme).
Proof.
  eapply Forall_impl; [apply semantic_generic|]. intros [key rule] [Hrule Hstays].
  unfold left_over. rewrite filteredRules_lookup, Hstays.
  by apply lookup_union_Some_l.
Qed.

Lemma currentColors_stored (written : Customization) (schemeName : option string) :
  currentColors stored {| customizations := Some written; colorTheme := schemeName |}
  = written.
Proof. done. Qed.

(** Settings that read what was written last: applying a scheme and then
    removing it does not give back the settings from before. Both calls
    answer [true]; no rule is left whose selector holds "fortify" in any
    letter case, and the user's other rules and fields are as before; but the
    seven rules written under the selectors type, keyword, operator,
    enumMember, punctuation, number and string stay, with the colours of the
    scheme in the place of what the user had there. *)
Theorem remove_after_apply (SCHEMES : list FortifyColorScheme) (schemeName : string)
    (scheme : FortifyColorScheme) (target target' : ConfigurationTarget)
    (settings : Stored) :
  getScheme SCHEMES schemeName = Some scheme ->
  let current := currentColors stored settings in
  let '(applied, settings1) := applyColorScheme stored SCHEMES schemeName target settings in
  let '(removed, settings2) := removeColorScheme stored target' settings1 in
  applied = true /\ removed = true
  /\ exists kept,
       customizations settings2 = Some {| rules := Some kept; others := others current |}
       /\ Forall (fun rule => kept !! fst rule = Some (snd rule)) (generic_rules scheme)
       /\ (forall key, includes (toLowerCase key) "fortify" = true -> kept !! key = None)
       /\ (forall key, includes (toLowerCase key) "fortify" = false ->
           key ∉ (generic_rules scheme).*1 ->
           kept !! key = default ∅ (rules current) !! key).
Proof.
  intros Hscheme current. unfold applyColorScheme. rewrite Hscheme. cbn.
  pose proof (left_over_generic scheme current) as Hgeneric.
  assert (left_over scheme current !! "type"
          = Some (VString (basicType (colors scheme)))) as Htype.
  { by apply Forall_cons_1 in Hgeneric as [? _]. }
  assert (forall colorTheme0,
            removal (currentColors stored
                       {| customizations := Some (mergedColors scheme current);
                          colorTheme := colorTheme0 |})
            = Some (Some {| rules := Some (left_over scheme current);
                            others := others current |})) as Hfirst.
  { intros. rewrite currentColors_stored.
    exact (removal_some (mergedColors scheme current) _ "type" _ eq_refl Htype). }
  assert (forall colorTheme0,
            removal (currentColors stored
                       {| customizations :=
                            Some {| rules := Some (left_over scheme current);
                                    others := others current |};
                          colorTheme := colorTheme0 |})
            = Some (Some {| rules := Some (left_over scheme current);
                            others := others current |})) as Hsecond.
  { intros. rewrite currentColors_stored.
    erewrite removal_some; [| reflexivity |].
    - cbn [others]. unfold left_over. by rewrite filteredRules_again.
    - cbn [rules]. unfold left_over. rewrite filteredRules_again. exact Htype. }
  assert (forall key, includes (toLowerCase key) "fortify" = true ->
          left_over scheme current !! key = None) as Hgone.
  { intros key Hkey. unfold left_over.
    by rewrite filteredRules_lookup, stays_lower_case_eq, Hkey. }
  assert (forall key, includes (toLowerCase key) "fortify" = false ->
          key ∉ (generic_rules scheme).*1 ->
          left_over scheme current !! key = default ∅ (rules current) !! key) as Hkept.
  { intros key Hkey Hother. unfold left_over.
    rewrite filteredRules_lookup, stays_lower_case_eq, Hkey. cbn [negb].
    apply lookup_union_r, semantic_others; [|done].
    by rewrite stays_lower_case_eq, Hkey. }
  unfold removeColorScheme, remove_once.
  rewrite Hfirst. cbn [update_customizations stored colorTheme].
  destruct target'; cbn [snd]; rewrite ?Hsecond; cbn;
    (split; [done|]; split; [done|]; by exists (left_over scheme current)).
Qed.

Lemma getScheme_found (SCHEMES : list FortifyColorScheme) (schemeName : string) :
  schemeName ∈ getAvailableSchemeNames SCHEMES ->
  exists scheme, getScheme SCHEMES schemeName = Some scheme /\ name scheme = schemeName.
Proof.
  unfold getAvailableSchemeNames, getScheme, getAllSchemes.
  intros (scheme & Hname & Hin)%list_elem_of_In%in_map_iff.
  destruct (find _ SCHEMES) as [found|] eqn:Hfind.
  - exists found. split; [done|].
    by apply find_some in Hfind as [_ ?%String.eqb_eq].
  - apply (find_none _ _ Hfind) in Hin. simpl in Hin.
    rewrite Hname, String.eqb_refl in Hin. discriminate.
Qed.

Lemma getScheme_named (SCHEMES : list FortifyColorScheme) (schemeName : string)
    (scheme : FortifyColorScheme) :
  getScheme SCHEMES schemeName = Some scheme ->
  schemeName ∈ getAvailableSchemeNames SCHEMES.
Proof.
  unfold getScheme. intros [Hin Hname%String.eqb_eq]%find_some.
  rewrite <- Hname. by apply list_elem_of_In, in_map.
Qed.

(** When the default scheme is in the table, the name [getCurrentScheme]
    answers is always the name of a scheme of the table, whatever the
    settings hold: [applyColorScheme] finds the scheme of that name. The name
    is the configured one exactly when that is the name of a scheme. *)
Theorem getCurrentScheme_available {Settings : Type} (vscode : Configuration Settings)
    (SCHEMES : list FortifyColorScheme) (default_scheme : string) (settings : Settings) :
  default_scheme ∈ getAvailableSchemeNames SCHEMES ->
  let current := getCurrentScheme vscode SCHEMES default_scheme settings in
  current ∈ getAvailableSchemeNames SCHEMES
  /\ (exists scheme, getScheme SCHEMES current = Some scheme /\ name scheme = current)
  /\ (forall configured, get_colorTheme vscode settings = Some configured ->
      current = if bool_decide (configured ∈ getAvailableSchemeNames SCHEMES)
                then configured else default_scheme).
Proof.
  intros Hdefault current.
  assert (current ∈ getAvailableSchemeNames SCHEMES) as Hin.
  { unfold current, getCurrentScheme. cbv zeta.
    destruct (getScheme SCHEMES _) as [scheme|] eqn:Hscheme; [|done].
    by eapply getScheme_named. }
  split; [done|]. split; [by apply getScheme_found|].
  intros configured Hconfigured. unfold current, getCurrentScheme. cbv zeta.
  rewrite Hconfigured. cbn [from_option id].
  case_bool_decide as Hknown.
  - by destruct (getScheme_found SCHEMES configured Hknown) as (scheme & -> & _).
  - destruct (getScheme SCHEMES configured) as [scheme|] eqn:Hscheme; [|done].
    exfalso. by eapply Hknown, getScheme_named.
Qed.

End ThemeFacts.

Lemma remove_after_apply_witness :
  let '(_, settings1) :=
    Theme.applyColorScheme Theme.stored [plain] "plain" Theme.Global user_settings in
  let '(_, settings2) := Theme.removeColorScheme Theme.stored Theme.Global settings1 in
  exists kept,
    Theme.customizations settings2
    = Some {| Theme.rules := Some kept; Theme.others := ∅ |}
    /\ kept !! "type" = Some (VString "#4ec9b0")
    /\ kept !! "comment" = Some (VString "#111111").
Proof.
  pose proof (remove_after_apply [plain] "plain" plain Theme.Global Theme.Global
                user_settings eq_refl) as Hleft.
  cbv zeta in Hleft.
  destruct (Theme.applyColorScheme _ _ _ _ _) as [applied settings1].
  destruct (Theme.removeColorScheme _ _ _) as [removed settings2].
  destruct Hleft as (_ & _ & kept & Hwritten & Hgeneric & _ & Hkept).
  exists kept. split; [exact Hwritten|]. split.
  - by apply Forall_cons_1 in Hgeneric as [? _].
  - rewrite Hkept; [reflexivity | reflexivity |].
    apply (bool_decide_unpack _). vm_compute. exact I.
Defined.

Lemma getCurrentScheme_available_witness :
  Theme.getCurrentScheme Theme.stored [plain] "plain" user_settings
  ∈ Theme.getAvailableSchemeNames [plain].
Proof.
  destruct (getCurrentScheme_available Theme.stored [plain] "plain" user_settings)
    as (Hin & _).
  - apply list_elem_of_In. by left.
  - exact Hin.
Defined.

(** * Patterns that remember *)
Section Remembering.

Lemma test_forgetful (pattern : Stateful.RegExp) (text : string)
    (lastIndex : Stateful.LastIndex) :
  Stateful.remembers pattern = false ->
  Stateful.test pattern text lastIndex = (test_of pattern text, lastIndex).
Proof. unfold Stateful.test. by intros ->. Qed.

Lemma any_test_forgetful (patterns : list Stateful.RegExp) (text : string) :
  forgetful patterns ->
  forall lastIndex,
  Stateful.any_test patterns text lastIndex
  = (any_test (map test_of patterns) text, lastIndex).
Proof.
  induction 1 as [|pattern patterns Hpattern _ IH]; intros lastIndex; [done|].
  cbn [Stateful.any_test]. unfold Stateful.bind.
  rewrite (test_forgetful _ _ _ Hpattern).
  unfold any_test. cbn [map existsb]. destruct (test_of pattern text); [done|].
  by rewrite IH.
Qed.

(** When no pattern has answered [true], every pattern has been asked, and
    the patterns that do not remember find no match. *)
Lemma any_test_false (patterns : list Stateful.RegExp) (text : string) :
  forall lastIndex lastIndex',
  Stateful.any_test patterns text lastIndex = (false, lastIndex') ->
  unmatched patterns text.
Proof.
  induction patterns as [|pattern patterns IH]; intros lastIndex lastIndex';
    [by constructor|].
  cbn [Stateful.any_test]. unfold Stateful.bind.
  destruct (Stateful.test pattern text lastIndex) as [[] lastIndex1] eqn:Htest;
    [done|].
  intros Hrest. constructor; [|by eapply IH].
  intros Hforgets. rewrite (test_forgetful _ _ _ Hforgets) in Htest.
  injection Htest as Htest _. unfold test_of in Htest.
  by destruct (Stateful.exec pattern 0 text).
Qed.

(** Patterns that do not remember: the validators are those that see the
    patterns through their answers, and no [lastIndex] changes. *)
Lemma text_stages_forgetful (E : Env) (T : Stateful.PatternTables) (v : value)
    (options : Stateful.Text.t) (text : string) (r : SchemaValidationResult)
    (lastIndex : Stateful.LastIndex) :
  forgetful_text T options ->
  Stateful.text_stages T v options text r lastIndex
  = (text_stages (plain_env E T) v (plain_text options) text r, lastIndex).
Proof.
  intros (Hxss & Hsql & Hldap & Hcommand & Hforbidden & Hallowed).
  destruct options. unfold Stateful.text_stages, text_stages, plain_text. cbv zeta.
  simpl in *.
  destruct (negb (default true allowEmpty) && (len text =? 0)); [done|].
  unfold Stateful.bind, Stateful.ret.
  destruct allowedCharacters as [allowed|];
    [rewrite (test_forgetful allowed) by (by apply Forall_inv in Hallowed)|];
    cbv beta iota.
  all: replace (default [] (map test_of <$> forbiddenPatterns))
         with (map test_of (default [] forbiddenPatterns))
         by (by destruct forbiddenPatterns).
  all: rewrite (any_test_forgetful _ _ Hforbidden); cbv beta iota.
  all: destruct (default true preventXSS && negb (default false allowHTML));
    rewrite ?(any_test_forgetful _ _ Hxss); cbv beta iota.
  all: destruct (default true preventSQLInjection);
    rewrite ?(any_test_forgetful _ _ Hsql); cbv beta iota.
  all: destruct (default false preventLDAPInjection);
    rewrite ?(any_test_forgetful _ _ Hldap); cbv beta iota.
  all: destruct (default false preventCommandInjection);
    rewrite ?(any_test_forgetful _ _ Hcommand); cbv beta iota.
  all: reflexivity.
Qed.

Lemma validateTextSync_forgetful (E : Env) (T : Stateful.PatternTables) (v : value)
    (options : Stateful.Text.t) (lastIndex : Stateful.LastIndex) :
  forgetful_text T options ->
  Stateful.validateTextSync E T v options lastIndex
  = (validateTextSync (plain_env E T) v (plain_text options), lastIndex).
Proof.
  intros Hforgetful. unfold Stateful.validateTextSync, validateTextSync. cbv zeta.
  change (TextOptions.maxLength (plain_text options))
    with (Stateful.Text.maxLength options).
  change (TextOptions.trimWhitespace (plain_text options))
    with (Stateful.Text.trimWhitespace options).
  change (TextOptions.normalizeUnicode (plain_text options))
    with (Stateful.Text.normalizeUnicode options).
  change (normalizeNFC (plain_env E T)) with (normalizeNFC E).
  change (MAX_TEXT_LENGTH (SECURITY_CONSTANTS (plain_env E T)))
    with (MAX_TEXT_LENGTH (SECURITY_CONSTANTS E)).
  destruct v as [| | | | |text| |l]; try done.
  destruct (len text >? _); [done|].
  destruct (default false (Stateful.Text.trimWhitespace options)
            && negb (String.eqb (trim text) text));
    destruct (default false (Stateful.Text.normalizeUnicode options));
    try destruct (normalizeNFC E _) as [normalized|];
    try destruct (negb (String.eqb normalized _));
    by apply text_stages_forgetful.
Qed.

(** Patterns of any kind: a call is a call of the validator that sees the
    patterns through their answers, for the answers the patterns give in this
    call; and an answer [false] of a table says that its patterns that do not
    remember find no match. *)
Lemma text_stages_answers (E : Env) (T : Stateful.PatternTables) (v : value)
    (options : Stateful.Text.t) (text : string) (r : SchemaValidationResult)
    (lastIndex : Stateful.LastIndex) :
  exists allowed forbidden xss sql ldap command,
    fst (Stateful.text_stages T v options text r lastIndex)
    = text_stages (answers_env E xss sql ldap command) v
        (answers_text options allowed forbidden) text r
    /\ (forall pattern, Stateful.Text.allowedCharacters options = Some pattern ->
        allowed = true -> Stateful.remembers pattern = false ->
        Stateful.exec pattern 0 text <> None)
    /\ (forbidden = false ->
        unmatched (default [] (Stateful.Text.forbiddenPatterns options)) text)
    /\ (xss = false -> unmatched (Stateful.XSS_PATTERNS T) text)
    /\ (ldap = false -> unmatched (Stateful.LDAP_PATTERNS T) text)
    /\ (command = false -> unmatched (Stateful.COMMAND_INJECTION_PATTERNS T) text).
Proof.
  destruct options.
  unfold Stateful.text_stages, text_stages, answers_text, answers_env. cbv zeta.
  simpl.
  destruct (negb (default true allowEmpty) && (len text =? 0)).
  { exists false, true, true, true, true, true. by repeat split. }
  unfold Stateful.bind, Stateful.ret.
  destruct allowedCharacters as [pattern|];
    [destruct (Stateful.test pattern text lastIndex) as [allowed lastIndex1]
       eqn:Hallowed|];
    cbv beta iota.
  all: destruct (Stateful.any_test (default [] forbiddenPatterns) text _)
         as [forbidden lastIndex2] eqn:Hforbidden; cbv beta iota.
  all: destruct (default true preventXSS && negb (default false allowHTML));
    [destruct (Stateful.any_test (Stateful.XSS_PATTERNS T) text _)
       as [xss lastIndex3] eqn:Hxss|]; cbv beta iota.
  all: destruct (default true preventSQLInjection);
    [destruct (Stateful.any_test (Stateful.SQL_PATTERNS T) text _)
       as [sql lastIndex4] eqn:Hsql|]; cbv beta iota.
  all: destruct (default false preventLDAPInjection);
    [destruct (Stateful.any_test (Stateful.LDAP_PATTERNS T) text _)
       as [ldap lastIndex5] eqn:Hldap|]; cbv beta iota.
  all: destruct (default false preventCommandInjection);
    [destruct (Stateful.any_test (Stateful.COMMAND_INJECTION_PATTERNS T) text _)
       as [command lastIndex6] eqn:Hcommand|]; cbv beta iota.
  all: eexists _, _, _, _, _, _.
  all: split; [simpl; rewrite ?orb_false_r; reflexivity|].
  all: repeat split.
  all: try match goal with
           | |- ?answer = false -> _ =>
               is_evar answer; unify answer true; by intros
           end.
  all: try (intros ->; by eapply any_test_false).
  all: try (intros ? [= <-] -> Hforgets Hnone;
            rewrite (test_forgetful _ _ _ Hforgets) in Hallowed;
            unfold test_of in Hallowed; by rewrite Hnone in Hallowed).
  all: try by intros.
  Unshelve. all: exact true.
Qed.

(** The text the stages run on, as the two steps before them compute it. *)
Lemma processed_unfold (E : Env) (options : TextOptions.t) (text : string) :
  processed E options text
  = let trimmed :=
      if default false (TextOptions.trimWhitespace options)
         && negb (String.eqb (trim text) text)
      then trim text else text in
    if default false (TextOptions.normalizeUnicode options) then
      match normalizeNFC E trimmed with
      | Return normalized =>
          if negb (String.eqb normalized trimmed) then normalized else trimmed
      | Throw _ => trimmed
      end
    else trimmed.
Proof.
  unfold processed. cbv zeta.
  assert ((if default false (TextOptions.trimWhitespace options)
           then trim text else text)
          = (if default false (TextOptions.trimWhitespace options)
                && negb (String.eqb (trim text) text)
             then trim text else text)) as ->.
  { destruct (default false (TextOptions.trimWhitespace options)); [|done].
    by destruct (String.eqb_spec (trim text) text). }
  destruct (default false (TextOptions.normalizeUnicode options)); [|done].
  destruct (normalizeNFC E _) as [normalized|]; [|done].
  by destruct (String.eqb_spec normalized
                 (if default false (TextOptions.trimWhitespace options)
                     && negb (String.eqb (trim text) text)
                  then trim text else text)).
Qed.

Lemma validateTextSync_answers (E : Env) (T : Stateful.PatternTables)
    (text : string) (options : Stateful.Text.t) (lastIndex : Stateful.LastIndex) :
  exists allowed forbidden xss sql ldap command,
    fst (Stateful.validateTextSync E T (VString text) options lastIndex)
    = validateTextSync (answers_env E xss sql ldap command) (VString text)
        (answers_text options allowed forbidden)
    /\ (forall pattern, Stateful.Text.allowedCharacters options = Some pattern ->
        allowed = true -> Stateful.remembers pattern = false ->
        Stateful.exec pattern 0 (processed E (plain_text options) text) <> None)
    /\ (forbidden = false ->
        unmatched (default [] (Stateful.Text.forbiddenPatterns options))
          (processed E (plain_text options) text))
    /\ (xss = false ->
        unmatched (Stateful.XSS_PATTERNS T) (processed E (plain_text options) text))
    /\ (ldap = false ->
        unmatched (Stateful.LDAP_PATTERNS T) (processed E (plain_text options) text))
    /\ (command = false ->
        unmatched (Stateful.COMMAND_INJECTION_PATTERNS T)
          (processed E (plain_text options) text)).
Proof.
  rewrite processed_unfold.
  unfold Stateful.validateTextSync, validateTextSync. cbv zeta.
  cbn [answers_text plain_text answers_env with_tables SECURITY_CONSTANTS
       MAX_TEXT_LENGTH normalizeNFC TextOptions.maxLength
       TextOptions.trimWhitespace TextOptions.normalizeUnicode].
  destruct (len text >? _).
  { exists false, true, true, true, true, true. by repeat split. }
  destruct (default false (Stateful.Text.trimWhitespace options)
            && negb (String.eqb (trim text) text));
    destruct (default false (Stateful.Text.normalizeUnicode options));
    try destruct (normalizeNFC E _) as [normalized|];
    try destruct (negb (String.eqb normalized _));
    apply text_stages_answers.
Qed.

(** What a successful [validateTextSync] has checked, whatever the patterns
    and whatever they remember. The data handed back is the processed text;
    no error is listed; the input is within [maxLength] and the processed
    text is at least [minLength] long, within [maxLines], of the characters
    asked for, free of the two URI schemes and of null bytes. Of the patterns
    handed in from outside it says this much: those without the [g] and the
    [y] flag have been asked on the processed text from its start, and none
    of the forbidden ones matches. Of a pattern that remembers it says
    nothing. *)
Theorem validateTextSync_success (E : Env) (T : Stateful.PatternTables)
    (text : string) (options : Stateful.Text.t) (lastIndex : Stateful.LastIndex) :
  success (fst (Stateful.validateTextSync E T (VString text) options lastIndex)) = true ->
  data (fst (Stateful.validateTextSync E T (VString text) options lastIndex))
  = VString (processed E (plain_text options) text)
  /\ errors (fst (Stateful.validateTextSync E T (VString text) options lastIndex)) = []
  /\ len text <= default (MAX_TEXT_LENGTH (SECURITY_CONSTANTS E))
                   (Stateful.Text.maxLength options)
  /\ default 0 (Stateful.Text.minLength options)
     <= len (processed E (plain_text options) text)
  /\ (default true (Stateful.Text.allowEmpty options) = false ->
      processed E (plain_text options) text <> EmptyString)
  /\ (forall maxLines, Stateful.Text.maxLines options = Some maxLines ->
      Z.of_nat (length (split LF (processed E (plain_text options) text))) <= maxLines)
  /\ (Stateful.Text.encoding options = Some TextOptions.ascii ->
      all_chars (between 0 127) (processed E (plain_text options) text) = true)
  /\ (default false (Stateful.Text.requireAlphanumeric options) = true ->
      all_chars (fun c => alnum c || is_space c)
        (processed E (plain_text options) text) = true)
  /\ (forall allowed, Stateful.Text.allowedCharacters options = Some allowed ->
      Stateful.remembers allowed = false ->
      Stateful.exec allowed 0 (processed E (plain_text options) text) <> None)
  /\ unmatched (default [] (Stateful.Text.forbiddenPatterns options))
       (processed E (plain_text options) text)
  /\ (default true (Stateful.Text.preventXSS options) = true ->
      default false (Stateful.Text.allowHTML options) = false ->
      unmatched (Stateful.XSS_PATTERNS T) (processed E (plain_text options) text)
      /\ includes (processed E (plain_text options) text) "javascript:" = false
      /\ includes (processed E (plain_text options) text) "data:text/html" = false)
  /\ (default false (Stateful.Text.preventLDAPInjection options) = true ->
      unmatched (Stateful.LDAP_PATTERNS T) (processed E (plain_text options) text))
  /\ (default false (Stateful.Text.preventCommandInjection options) = true ->
      unmatched (Stateful.COMMAND_INJECTION_PATTERNS T)
        (processed E (plain_text options) text))
  /\ includes (processed E (plain_text options) text) NUL = false.
Proof.
  destruct (validateTextSync_answers E T text options lastIndex)
    as (allowed & forbidden & xss & sql & ldap & command & -> & Hallowed & Hforbidden
        & Hxss & Hldap & Hcommand).
  intros Hok.
  destruct (validateTextSync_checked _ _ _ Hok)
    as (Hdata & Herrors & Hmax & Hmin & Hempty & Hlines & Hascii & Halnum & Hchars
        & Hnone & Hscript & Hl & Hc & Hnul).
  assert (forall b : bool,
            any_test [fun _ : string => b] (processed E (plain_text options) text)
            = false -> b = false) as Hone.
  { intros b. unfold any_test. simpl. by rewrite orb_false_r. }
  split; [exact Hdata|]. split; [exact Herrors|]. split; [exact Hmax|].
  split; [exact Hmin|]. split; [exact Hempty|]. split; [exact Hlines|].
  split; [exact Hascii|]. split; [exact Halnum|].
  split.
  { intros pattern Hpattern. apply (Hallowed pattern Hpattern).
    specialize (Hchars (fun _ => allowed)). simpl in Hchars.
    rewrite Hpattern in Hchars. by apply Hchars. }
  split; [apply Hforbidden, Hone, Hnone|].
  split.
  { intros Hon Hoff. destruct (Hscript Hon Hoff) as (Htable & ? & ?).
    split; [apply Hxss, Hone, Htable | done]. }
  split; [intros Hon; apply Hldap, Hone, (Hl Hon)|].
  split; [intros Hon; apply Hcommand, Hone, (Hc Hon) | exact Hnul].
Qed.

Lemma validateTextSync_success_witness :
  data (fst (Stateful.validateTextSync Sample.env (script_table true)
               (VString "  hello  ") trimming ∅)) = VString "hello"
  /\ errors (fst (Stateful.validateTextSync Sample.env (script_table true)
                    (VString "  hello  ") trimming ∅)) = [].
Proof.
  assert (success (fst (Stateful.validateTextSync Sample.env (script_table true)
                          (VString "  hello  ") trimming ∅)) = true) as Hok
    by (vm_compute; reflexivity).
  destruct (validateTextSync_success Sample.env (script_table true) "  hello  "
              trimming ∅ Hok) as (Hdata & Herrors & _).
  split; [exact Hdata | exact Herrors].
Defined.

(** Validating again. When no pattern of the tables and of the options has
    the [g] or the [y] flag, Unicode normalisation is not asked for and a
    text is accepted, the data handed back (the text, trimmed if the options
    say so) is accepted by the next call under the same options, with no
    error, and comes back as it is; no [lastIndex] has changed. *)
Theorem validateTextSync_again (E : Env) (T : Stateful.PatternTables)
    (text : string) (options : Stateful.Text.t) (lastIndex : Stateful.LastIndex) :
  forgetful_text T options ->
  default false (Stateful.Text.normalizeUnicode options) = false ->
  success (fst (Stateful.validateTextSync E T (VString text) options lastIndex)) = true ->
  let '(first, lastIndex1) :=
    Stateful.validateTextSync E T (VString text) options lastIndex in
  let '(second, lastIndex2) :=
    Stateful.validateTextSync E T (data first) options lastIndex1 in
  success second = true /\ errors second = [] /\ data second = data first
  /\ lastIndex2 = lastIndex.
Proof.
  intros Hforgetful Hnorm.
  rewrite (validateTextSync_forgetful E T _ options lastIndex Hforgetful).
  cbn [fst]. intros Hok.
  rewrite (validateTextSync_forgetful E T _ options lastIndex Hforgetful).
  destruct (validateTextSync_stable (plain_env E T) text (plain_text options) Hnorm Hok)
    as (Hsuccess & Herrors & Hdata).
  by repeat split.
Qed.

Lemma validateTextSync_again_witness :
  let '(first, lastIndex1) :=
    Stateful.validateTextSync Sample.env (script_table false) (VString "  hello  ")
      trimming ∅ in
  let '(second, lastIndex2) :=
    Stateful.validateTextSync Sample.env (script_table false) (data first)
      trimming lastIndex1 in
  success second = true /\ errors second = [] /\ data second = data first
  /\ lastIndex2 = ∅.
Proof.
  apply (validateTextSync_again Sample.env (script_table false) "  hello  "
           trimming ∅).
  - repeat split; repeat constructor.
  - reflexivity.
  - vm_compute; reflexivity.
Defined.

(** One pattern that remembers, in the XSS table: the call is the call of the
    validator that sees the table through the answer the pattern gives from
    its [lastIndex], and the pattern is left with the end of its match, or
    with 0. *)
Lemma text_stages_one_remembers (E : Env) (T : Stateful.PatternTables) (v : value)
    (options : Stateful.Text.t) (text : string) (r : SchemaValidationResult)
    (lastIndex : Stateful.LastIndex) (pattern : Stateful.RegExp) :
  one_remembers T options pattern ->
  negb (default true (Stateful.Text.allowEmpty options)) && (len text =? 0) = false ->
  default true (Stateful.Text.preventXSS options)
  && negb (default false (Stateful.Text.allowHTML options)) = true ->
  Stateful.text_stages T v options text r lastIndex
  = (text_stages
       (xss_answers E T
          (bool_decide (is_Some (Stateful.exec pattern
                                   (default 0%nat (lastIndex !! Stateful.address pattern))
                                   text))))
       v (plain_text options) text r,
     <[Stateful.address pattern :=
         default 0%nat (Stateful.exec pattern
                          (default 0%nat (lastIndex !! Stateful.address pattern)) text)]>
       lastIndex).
Proof.
  intros (Htable & Hremembers & Hsql & Hldap & Hcommand & Hforbidden & Hallowed).
  destruct options.
  unfold Stateful.text_stages, text_stages, plain_text, xss_answers. cbv zeta.
  simpl in *. intros -> ->. rewrite Htable.
  unfold Stateful.bind, Stateful.ret.
  destruct allowedCharacters as [allowed|];
    [rewrite (test_forgetful allowed) by (by apply Forall_inv in Hallowed)|];
    cbv beta iota.
  all: replace (default [] (map test_of <$> forbiddenPatterns))
         with (map test_of (default [] forbiddenPatterns))
         by (by destruct forbiddenPatterns).
  all: rewrite (any_test_forgetful _ _ Hforbidden); cbv beta iota.
  all: cbn [Stateful.any_test]; unfold Stateful.bind, Stateful.ret, Stateful.test.
  all: rewrite Hremembers.
  all: destruct (Stateful.exec pattern _ text) as [e|]; cbv beta iota.
  all: destruct (default true preventSQLInjection);
    rewrite ?(any_test_forgetful _ _ Hsql); cbv beta iota.
  all: destruct (default false preventLDAPInjection);
    rewrite ?(any_test_forgetful _ _ Hldap); cbv beta iota.
  all: destruct (default false preventCommandInjection);
    rewrite ?(any_test_forgetful _ _ Hcommand); cbv beta iota.
  all: reflexivity.
Qed.

Lemma validateTextSync_one_remembers (E : Env) (T : Stateful.PatternTables)
    (text : string) (options : Stateful.Text.t) (lastIndex : Stateful.LastIndex)
    (pattern : Stateful.RegExp) :
  one_remembers T options pattern ->
  xss_asked E options text = true ->
  Stateful.validateTextSync E T (VString text) options lastIndex
  = (validateTextSync
       (xss_answers E T
          (bool_decide
             (is_Some (Stateful.exec pattern
                         (default 0%nat (lastIndex !! Stateful.address pattern))
                         (processed E (plain_text options) text)))))
       (VString text) (plain_text options),
     <[Stateful.address pattern :=
         default 0%nat
           (Stateful.exec pattern
              (default 0%nat (lastIndex !! Stateful.address pattern))
              (processed E (plain_text options) text))]> lastIndex).
Proof.
  intros Hone. unfold xss_asked.
  intros (((Hlen%negb_true_iff & Hempty%negb_true_iff)%andb_true_iff
           & Hon)%andb_true_iff & Hhtml)%andb_true_iff.
  revert Hempty. rewrite processed_unfold.
  unfold Stateful.validateTextSync, validateTextSync. cbv zeta.
  cbn [plain_text xss_answers with_tables SECURITY_CONSTANTS
       MAX_TEXT_LENGTH normalizeNFC TextOptions.maxLength
       TextOptions.trimWhitespace TextOptions.normalizeUnicode].
  rewrite Hlen.
  destruct (default false (Stateful.Text.trimWhitespace options)
            && negb (String.eqb (trim text) text));
    destruct (default false (Stateful.Text.normalizeUnicode options));
    try destruct (normalizeNFC E _) as [normalized|];
    try destruct (negb (String.eqb normalized _));
    intros Hempty; apply text_stages_one_remembers; try done;
    by rewrite Hon, Hhtml.
Qed.

(** The XSS table answering [true], at a stage that is asked: the call fails
    and lists the XSS error. *)
Lemma validateTextSync_xss_true (E : Env) (text : string) (options : TextOptions.t) :
  (len text >? default (MAX_TEXT_LENGTH (SECURITY_CONSTANTS E))
                 (TextOptions.maxLength options)) = false ->
  negb (default true (TextOptions.allowEmpty options))
  && (len (processed E options text) =? 0) = false ->
  default true (TextOptions.preventXSS options) = true ->
  default false (TextOptions.allowHTML options) = false ->
  any_test (XSS_PATTERNS (SECURITY_CONSTANTS E)) (processed E options text) = true ->
  success (validateTextSync E (VString text) options) = false
  /\ In (xss_error (VString text)) (errors (validateTextSync E (VString text) options)).
Proof.
  intros Hlen Hempty Hon Hhtml Hxss.
  destruct (validateTextSync_stages E text options Hlen) as (r0 & -> & _).
  unfold text_stages. cbv zeta. rewrite Hempty, Hon, Hhtml, Hxss. simpl negb. simpl andb.
  cbv iota. split; [stays_failed | unfold xss_error; error_kept].
Qed.

(** A pattern of the XSS table with the [g] or the [y] flag makes the check
    alternate. When the table is one such pattern, at rest, and the text
    holds one match of it, the first call fails with the XSS error; the
    second call on the same text starts the pattern where the match ended,
    finds nothing, and answers as if the table were empty; the third call is
    the first again. *)
Theorem xss_check_alternates (E : Env) (T : Stateful.PatternTables) (text : string)
    (options : Stateful.Text.t) (lastIndex : Stateful.LastIndex)
    (pattern : Stateful.RegExp) (e : nat) :
  one_remembers T options pattern ->
  xss_asked E options text = true ->
  default 0%nat (lastIndex !! Stateful.address pattern) = 0%nat ->
  Stateful.exec pattern 0 (processed E (plain_text options) text) = Some e ->
  Stateful.exec pattern e (processed E (plain_text options) text) = None ->
  let '(first, lastIndex1) :=
    Stateful.validateTextSync E T (VString text) options lastIndex in
  let '(second, lastIndex2) :=
    Stateful.validateTextSync E T (VString text) options lastIndex1 in
  let '(third, _) :=
    Stateful.validateTextSync E T (VString text) options lastIndex2 in
  success first = false
  /\ In (xss_error (VString text)) (errors first)
  /\ second = validateTextSync (xss_answers E T false) (VString text) (plain_text options)
  /\ third = first.
Proof.
  intros Hone Hasked Hrest Hmatch Hnone.
  rewrite (validateTextSync_one_remembers E T text options _ pattern Hone Hasked).
  rewrite Hrest, Hmatch. cbn [from_option id]. cbv beta iota.
  rewrite (validateTextSync_one_remembers E T text options _ pattern Hone Hasked).
  rewrite lookup_insert_eq. cbn [from_option id]. rewrite Hnone.
  cbn [from_option id]. cbv beta iota.
  rewrite (validateTextSync_one_remembers E T text options _ pattern Hone Hasked).
  rewrite lookup_insert_eq. cbn [from_option id]. rewrite Hmatch. cbv beta iota.
  rewrite (bool_decide_eq_true_2 (is_Some (Some e))) by by eexists.
  rewrite (bool_decide_eq_false_2 (is_Some (@None nat))) by by intros [? [=]].
  revert Hasked. unfold xss_asked.
  intros (((Hlen%negb_true_iff & Hempty%negb_true_iff)%andb_true_iff
           & Hon)%andb_true_iff & Hhtml%negb_true_iff)%andb_true_iff.
  destruct (validateTextSync_xss_true (xss_answers E T true) text (plain_text options))
    as [Hfailed Hlisted]; done.
Qed.

Lemma xss_check_alternates_witness :
  let '(first, lastIndex1) :=
    Stateful.validateTextSync Sample.env (script_table true)
      (VString "<script>alert(1)</script>") no_text_options ∅ in
  let '(second, lastIndex2) :=
    Stateful.validateTextSync Sample.env (script_table true)
      (VString "<script>alert(1)</script>") no_text_options lastIndex1 in
  let '(third, _) :=
    Stateful.validateTextSync Sample.env (script_table true)
      (VString "<script>alert(1)</script>") no_text_options lastIndex2 in
  (success first = false
   /\ In (xss_error (VString "<script>alert(1)</script>")) (errors first)
   /\ second = validateTextSync (xss_answers Sample.env (script_table true) false)
                 (VString "<script>alert(1)</script>") (plain_text no_text_options)
   /\ third = first)
  /\ success second = true.
Proof.
  assert (one_remembers (script_table true) no_text_options (script_tag true)) as Hone
    by (repeat split; repeat constructor).
  pose proof (xss_check_alternates Sample.env (script_table true)
                "<script>alert(1)</script>" no_text_options ∅ (script_tag true) 7
                Hone) as Hturns.
  destruct (Stateful.validateTextSync _ _ _ _ ∅) as [first lastIndex1].
  destruct (Stateful.validateTextSync _ _ _ _ lastIndex1) as [second lastIndex2].
  destruct (Stateful.validateTextSync _ _ _ _ lastIndex2) as [third lastIndex3].
  assert (success first = false
          /\ In (xss_error (VString "<script>alert(1)</script>")) (errors first)
          /\ second = validateTextSync (xss_answers Sample.env (script_table true) false)
                        (VString "<script>alert(1)</script>")
                        (plain_text no_text_options)
          /\ third = first) as Hall.
  { apply Hturns; [vm_compute; reflexivity | reflexivity | vm_compute; reflexivity
                  | vm_compute; reflexivity]. }
  split; [exact Hall|].
  destruct Hall as (_ & _ & -> & _). vm_compute. reflexivity.
Defined.

(** ** validateObject: what success means *)

Lemma check_key_checked (E : Env) (options : Stateful.Object.t) (key : string)
    (r : SchemaValidationResult) (lastIndex : Stateful.LastIndex) :
  success (fst (Stateful.check_key E options key r lastIndex)) = true ->
  success r = true /\ key_checked E options key.
Proof.
  unfold Stateful.check_key, key_checked. cbv zeta.
  destruct (Z.gtb_spec (len key)
              (default 100 (Stateful.Object.maxPropertyNameLength options)));
    [done|].
  destruct (dangerous E key); [done|].
  unfold Stateful.bind, Stateful.ret.
  set (screened := when (mem key (default [] (Stateful.Object.forbiddenKeys options))) _ _).
  assert (success screened = true ->
          success r = true
          /\ mem key (default [] (Stateful.Object.forbiddenKeys options)) = false
          /\ (default false (Stateful.Object.strict options) = true ->
              default [] (Stateful.Object.allowedKeys options) <> [] ->
              mem key (default [] (Stateful.Object.allowedKeys options)) = true))
    as Hscreened.
  { unfold screened. intros [Hforbidden Hok]%success_when_fail_inv.
    revert Hok.
    destruct (default [] (Stateful.Object.allowedKeys options)) as [|k ks] eqn:Hlist;
      cbn [length Nat.eqb negb andb]; [done|].
    destruct (mem key (k :: ks)); cbn [negb]; [done|].
    by destruct (default false (Stateful.Object.strict options)). }
  destruct (Stateful.Object.keyPattern options) as [keyPattern|].
  - destruct (Stateful.test keyPattern key lastIndex) as [matched lastIndex1] eqn:Htest.
    cbn [fst].
    intros [Hmatched Hok]%success_when_warn_inv%success_when_fail_inv.
    apply negb_false_iff in Hmatched. subst matched.
    destruct (Hscreened Hok) as (? & ? & ?). repeat split; try done.
    intros ? [= <-] Hforgets Hnone.
    rewrite (test_forgetful _ _ _ Hforgets) in Htest. unfold test_of in Htest.
    by rewrite Hnone in Htest.
  - cbn [fst].
    intros [_ Hok]%success_when_warn_inv%success_when_fail_inv.
    destruct (Hscreened Hok) as (? & ? & ?). by repeat split.
Qed.

Lemma check_keys_checked (E : Env) (options : Stateful.Object.t) (keys : list string) :
  forall (r : SchemaValidationResult) (lastIndex : Stateful.LastIndex),
  success (fst (Stateful.check_keys E options keys r lastIndex)) = true ->
  success r = true /\ Forall (key_checked E options) keys.
Proof.
  induction keys as [|key keys IH]; intros r lastIndex; [by split|].
  cbn [Stateful.check_keys]. unfold Stateful.bind.
  destruct (Stateful.check_key E options key r lastIndex) as [r1 lastIndex1] eqn:Hkey.
  intros [Hr1 Hrest]%IH.
  destruct (check_key_checked E options key r lastIndex) as [Hr Hchecked];
    [by rewrite Hkey|].
  split; [done|]. by constructor.
Qed.

(** What a successful [validateObject] has checked of a plain object: the
    pollution scan, when it is on, has found nothing; the keys are no more
    than [maxKeys]; every required key is there; every own key is within
    [maxPropertyNameLength], not denylisted, not forbidden, and allowed when
    the list of allowed keys is in force; and the helpers have accepted the
    object. Of [keyPattern] it says that every own key matches it when the
    pattern has neither the [g] nor the [y] flag; of a pattern that remembers
    it says nothing. *)
Theorem validateObject_success (E : Env) (options : Stateful.Object.t) (h : heap)
    (l : loc) (o : object) (lastIndex : Stateful.LastIndex) :
  h !! l = Some o -> is_array o = false ->
  success (fst (Stateful.validateObject E h (VRef l) options lastIndex)) = true ->
  (default true (Stateful.Object.preventPrototypePollution options) = true ->
   ~ polluted E h (VRef l))
  /\ Z.of_nat (length (keys o)) <= default 1000 (Stateful.Object.maxKeys options)
  /\ Forall (fun k => has_property k o = true)
       (default [] (Stateful.Object.requiredKeys options))
  /\ Forall (key_checked E options) (keys o)
  /\ success (validateObjectDeep E h (VRef l)
                (default (MAX_OBJECT_DEPTH E) (Stateful.Object.maxDepth options)) 0)
     = true
  /\ (truthy (default VUndefined (Stateful.Object.schema options)) = true ->
      success (validateObjectSchema E h (VRef l)
                 (default VUndefined (Stateful.Object.schema options))) = true).
Proof.
  intros Hl Hplain. unfold Stateful.validateObject. rewrite Hl, Hplain.
  unfold Stateful.object_checks. cbv zeta.
  destruct (default true (Stateful.Object.preventPrototypePollution options)
            && hasDangerousProperties_fresh E h (VRef l)) eqn:Hscan; [done|].
  unfold Stateful.bind, Stateful.ret.
  destruct (Stateful.check_keys E options (keys o) _ lastIndex)
    as [keyed lastIndex1] eqn:Hkeyed.
  cbn [fst].
  set (deep := validateObjectDeep E h (VRef l) _ 0).
  assert (success (merge deep keyed) = true ->
          Z.of_nat (length (keys o)) <= default 1000 (Stateful.Object.maxKeys options)
          /\ Forall (fun k => has_property k o = true)
               (default [] (Stateful.Object.requiredKeys options))
          /\ Forall (key_checked E options) (keys o) /\ success deep = true) as Hmerged.
  { intros [Hkeys Hdeep]%success_merge_inv.
    match type of Hkeyed with
    | Stateful.check_keys _ _ _ ?r _ = _ =>
        destruct (check_keys_checked E options (keys o) r lastIndex) as [Hreq Hall];
          [by rewrite Hkeyed|]
    end.
    apply (success_fold_left_inv _ (fun k => has_property k o = true)) in Hreq
      as [Hcount Hreq].
    - apply success_when_fail_inv in Hcount as [Hcount _].
      rewrite Z.gtb_ltb, Z.ltb_ge in Hcount. by repeat split.
    - intros r a [Hb Hr]%success_when_fail_inv. by apply negb_false_iff in Hb. }
  assert (default true (Stateful.Object.preventPrototypePollution options) = true ->
          ~ polluted E h (VRef l)) as Hclean.
  { intros Hguard Hpolluted. apply scan_complete in Hpolluted.
    by rewrite Hguard, Hpolluted in Hscan. }
  destruct (truthy (default VUndefined (Stateful.Object.schema options))) eqn:Hschema;
    cbn [andb].
  - destruct (success (merge deep keyed)) eqn:Hok.
    + intros [_ Hs]%success_merge_inv.
      destruct (Hmerged eq_refl) as (? & ? & ? & ?). by repeat split.
    + intros Hfalse. by rewrite Hfalse in Hok.
  - intros Hok. destruct (Hmerged Hok) as (? & ? & ? & ?). by repeat split.
Qed.

Lemma validateObject_success_witness :
  ~ polluted Sample.env record_store (VRef 1%positive)
  /\ Forall (key_checked Sample.env needs_name) ["name"; "address"].
Proof.
  assert (success (fst (Stateful.validateObject Sample.env record_store
                          (VRef 1%positive) needs_name ∅)) = true) as Hok
    by (vm_compute; reflexivity).
  pose proof (validateObject_success Sample.env needs_name record_store 1%positive
                (Obj false [("name", VString "x"); ("address", VRef 2%positive)]) ∅
                eq_refl eq_refl Hok) as (Hclean & _ & _ & Hkeys & _).
  split; [by apply Hclean | exact Hkeys].
Defined.

End Remembering.
